(** * EIF parser: a shallow embedding of [eif_parse.c] and its properties

    The development follows the C file top to bottom: the fixed-width
    integer types and the [BIG_ENDIAN_*] macros, the two structs, the two
    decoders [parse_eif_header] and [parse_eif_section_header], the printing
    helpers, and the section walk of [parse_eif_file] over a file descriptor.
    A buffer is a [list byte]; a machine integer is a [Z] with the wrap-around
    of its width written out; the file descriptor, [stdout] and [stderr] live
    in an explicit [world] threaded through a small state-and-exit monad. *)

From Stdlib Require Import ZArith Lia.
From Stdlib Require Import Strings.Byte.
From stdpp Require Import base option list strings.

Open Scope Z_scope.

(** ** Machine integers *)

Definition uint8_t  (z : Z) : Z := z mod 2^8.
Definition uint16_t (z : Z) : Z := z mod 2^16.
Definition uint32_t (z : Z) : Z := z mod 2^32.
Definition uint64_t (z : Z) : Z := z mod 2^64.

(** Conversion of an unsigned 64-bit value to the signed 64-bit types
    [off_t] and [ssize_t] (two's complement). *)
Definition int64_t (z : Z) : Z :=
  let u := z mod 2^64 in if u <? 2^63 then u else u - 2^64.

Definition UINT64_MAX : Z := 2^64 - 1.

#[global] Instance byte_eq_decision : EqDecision byte := Byte.byte_eq_dec.

(** The numeric value of a byte of a buffer. *)
Definition u8 (b : byte) : Z := Z.of_N (Byte.to_N b).

(** The byte holding the low eight bits of [z]. *)
Definition byte_of_Z (z : Z) : byte :=
  match Byte.of_N (Z.to_N (z mod 256)) with
  | Some b => b
  | None => x00
  end.

(** ** Outcomes

    The program leaves through [exit(1)] after a message on [stderr], or
    through a failed [assert]. [result] records which exit was taken.

    [exit] and the return from [main] flush the stream [stdout]. A failed
    [assert] ends the program through [abort], which need not: at the exit
    [TooManySections] the lines of [stdout] are those handed to the stream,
    and whether they reach the output is left open. The same holds of
    [OutOfBounds], where the behaviour is undefined altogether. *)

Inductive failure : Type :=
  | TruncatedInput          (* assert(buf_len >= EIF_HEADER_SIZE); "Failed to read eif header" *)
  | TooManySections         (* assert(eif_header.section_cnt <= MAX_SECTIONS) *)
  | SeekFailed              (* "Failed to offset to %lu" *)
  | TruncatedSectionHeader  (* "Failed to read section header"; assert(buf_len >= EIF_SECTION_HEADER_SIZE) *)
  | AllocFailed             (* "Failed to allocate memory[ for metadata]" *)
  | TruncatedMetadata       (* "Failed to read metadata" *)
  | OutOfBounds.            (* an access outside the object: undefined behaviour *)

Inductive result (A : Type) : Type :=
  | Ok (a : A)
  | Exit (f : failure).
Arguments Ok {A} a.
Arguments Exit {A} f.

#[global] Instance failure_eq_dec : EqDecision failure.
Proof. solve_decision. Defined.

Module Res.
Definition bind {A B} (r : result A) (k : A -> result B) : result B :=
  match r with
  | Ok a => k a
  | Exit f => Exit f
  end.

Definition assert (b : bool) (f : failure) : result unit :=
  if b then Ok tt else Exit f.
End Res.

Declare Scope res_scope.
Delimit Scope res_scope with res.
Notation "x <- r ; k" := (Res.bind r (fun x => k))
  (at level 100, r at next level, right associativity) : res_scope.
Notation "r ;; k" := (Res.bind r (fun _ => k))
  (at level 100, right associativity) : res_scope.

(** ** Constants and macros *)

Definition EIF_HEADER_SIZE : Z := 548.
Definition EIF_SECTION_HEADER_SIZE : Z := 12.
Definition MAX_SECTIONS : nat := 32.

(** [buf[i]]: a read outside the buffer is not a value of the model. *)
Definition rd (buf : list byte) (i : nat) : result Z :=
  match buf !! i with
  | Some b => Ok (u8 b)
  | None => Exit OutOfBounds
  end.

(** [(((uint16_t)buf[0] << 8) | (uint16_t)buf[1])]: the operands are
    promoted to [int], which holds the shifted value. *)
Definition BIG_ENDIAN_U16 (buf : list byte) : result Z :=
  (b0 <- rd buf 0;
   b1 <- rd buf 1;
   Ok (Z.lor (Z.shiftl (uint16_t b0) 8) (uint16_t b1)))%res.

Definition BIG_ENDIAN_U32 (buf : list byte) : result Z :=
  (b0 <- rd buf 0;
   b1 <- rd buf 1;
   b2 <- rd buf 2;
   b3 <- rd buf 3;
   Ok (Z.lor (Z.lor (Z.lor
         (uint32_t (Z.shiftl (uint32_t b0) 24))
         (uint32_t (Z.shiftl (uint32_t b1) 16)))
         (uint32_t (Z.shiftl (uint32_t b2) 8)))
         (uint32_t b3)))%res.

Definition BIG_ENDIAN_U64 (buf : list byte) : result Z :=
  (b0 <- rd buf 0;
   b1 <- rd buf 1;
   b2 <- rd buf 2;
   b3 <- rd buf 3;
   b4 <- rd buf 4;
   b5 <- rd buf 5;
   b6 <- rd buf 6;
   b7 <- rd buf 7;
   Ok (Z.lor (Z.lor (Z.lor (Z.lor (Z.lor (Z.lor (Z.lor
         (uint64_t (Z.shiftl (uint64_t b0) 56))
         (uint64_t (Z.shiftl (uint64_t b1) 48)))
         (uint64_t (Z.shiftl (uint64_t b2) 40)))
         (uint64_t (Z.shiftl (uint64_t b3) 32)))
         (uint64_t (Z.shiftl (uint64_t b4) 24)))
         (uint64_t (Z.shiftl (uint64_t b5) 16)))
         (uint64_t (Z.shiftl (uint64_t b6) 8)))
         (uint64_t b7)))%res.

(** ** The two structs *)

Record EifHeader : Type := mkEifHeader {
  magic : list Z;             (* uint8_t magic[4] *)
  version : Z;
  flags : Z;
  default_memory : Z;
  default_cpus : Z;
  reserved : Z;
  section_cnt : Z;
  section_offsets : list Z;   (* uint64_t section_offsets[MAX_SECTIONS] *)
  section_sizes : list Z;     (* uint64_t section_sizes[MAX_SECTIONS] *)
  unused : Z;
  eif_crc32 : Z
}.

Record EifSectionHeader : Type := mkEifSectionHeader {
  section_type : Z;
  sh_flags : Z;
  section_size : Z
}.

(** The shape the C types give a struct whatever it holds: the three arrays
    have their declared lengths. *)
Definition header_shape (h : EifHeader) : Prop :=
  length (magic h) = 4%nat /\
  length (section_offsets h) = MAX_SECTIONS /\
  length (section_sizes h) = MAX_SECTIONS.

(** Field assignments [header->f = v]; an array element is assigned in
    place (an index outside the array would leave the list as it is, which the
    callers below never do). *)
Definition set_magic (i : nat) (v : Z) (h : EifHeader) : EifHeader :=
  mkEifHeader (<[i := v]> (magic h)) (version h) (flags h) (default_memory h)
    (default_cpus h) (reserved h) (section_cnt h) (section_offsets h)
    (section_sizes h) (unused h) (eif_crc32 h).
Definition set_version (v : Z) (h : EifHeader) : EifHeader :=
  mkEifHeader (magic h) v (flags h) (default_memory h)
    (default_cpus h) (reserved h) (section_cnt h) (section_offsets h)
    (section_sizes h) (unused h) (eif_crc32 h).
Definition set_flags (v : Z) (h : EifHeader) : EifHeader :=
  mkEifHeader (magic h) (version h) v (default_memory h)
    (default_cpus h) (reserved h) (section_cnt h) (section_offsets h)
    (section_sizes h) (unused h) (eif_crc32 h).
Definition set_default_memory (v : Z) (h : EifHeader) : EifHeader :=
  mkEifHeader (magic h) (version h) (flags h) v
    (default_cpus h) (reserved h) (section_cnt h) (section_offsets h)
    (section_sizes h) (unused h) (eif_crc32 h).
Definition set_default_cpus (v : Z) (h : EifHeader) : EifHeader :=
  mkEifHeader (magic h) (version h) (flags h) (default_memory h)
    v (reserved h) (section_cnt h) (section_offsets h)
    (section_sizes h) (unused h) (eif_crc32 h).
Definition set_reserved (v : Z) (h : EifHeader) : EifHeader :=
  mkEifHeader (magic h) (version h) (flags h) (default_memory h)
    (default_cpus h) v (section_cnt h) (section_offsets h)
    (section_sizes h) (unused h) (eif_crc32 h).
Definition set_section_cnt (v : Z) (h : EifHeader) : EifHeader :=
  mkEifHeader (magic h) (version h) (flags h) (default_memory h)
    (default_cpus h) (reserved h) v (section_offsets h)
    (section_sizes h) (unused h) (eif_crc32 h).
Definition set_section_offsets (i : nat) (v : Z) (h : EifHeader) : EifHeader :=
  mkEifHeader (magic h) (version h) (flags h) (default_memory h)
    (default_cpus h) (reserved h) (section_cnt h)
    (<[i := v]> (section_offsets h)) (section_sizes h)
    (unused h) (eif_crc32 h).
Definition set_section_sizes (i : nat) (v : Z) (h : EifHeader) : EifHeader :=
  mkEifHeader (magic h) (version h) (flags h) (default_memory h)
    (default_cpus h) (reserved h) (section_cnt h)
    (section_offsets h) (<[i := v]> (section_sizes h))
    (unused h) (eif_crc32 h).
Definition set_unused (v : Z) (h : EifHeader) : EifHeader :=
  mkEifHeader (magic h) (version h) (flags h) (default_memory h)
    (default_cpus h) (reserved h) (section_cnt h)
    (section_offsets h) (section_sizes h) v (eif_crc32 h).
Definition set_eif_crc32 (v : Z) (h : EifHeader) : EifHeader :=
  mkEifHeader (magic h) (version h) (flags h) (default_memory h)
    (default_cpus h) (reserved h) (section_cnt h)
    (section_offsets h) (section_sizes h) (unused h) v.

Definition set_section_type (v : Z) (h : EifSectionHeader) : EifSectionHeader :=
  mkEifSectionHeader v (sh_flags h) (section_size h).
Definition set_sh_flags (v : Z) (h : EifSectionHeader) : EifSectionHeader :=
  mkEifSectionHeader (section_type h) v (section_size h).
Definition set_section_size (v : Z) (h : EifSectionHeader) : EifSectionHeader :=
  mkEifSectionHeader (section_type h) (sh_flags h) v.

(** ** The decoders *)

(** One turn of [for (i ...) { header->section_offsets[i] = BIG_ENDIAN_U64(buf);
    buf += 8; }], for the indices from [i] on; [set] is the array written. *)
Fixpoint u64_array_loop (set : nat -> Z -> EifHeader -> EifHeader)
    (n : nat) (i : nat) (buf : list byte) (header : EifHeader)
    : result (list byte * EifHeader) :=
  match n with
  | O => Ok (buf, header)
  | S n' =>
      (v <- BIG_ENDIAN_U64 buf;
       u64_array_loop set n' (S i) (drop 8 buf) (set i (uint64_t v) header))%res
  end.

(** [void parse_eif_header(uint8_t *buf, uint64_t buf_len, EifHeader *header)]:
    [header] is the struct the pointer designates on entry, the result is the
    struct it designates on return. *)
Definition parse_eif_header (buf : list byte) (buf_len : Z) (header : EifHeader)
    : result EifHeader :=
  (Res.assert (EIF_HEADER_SIZE <=? buf_len) TruncatedInput;;
   m0 <- rd buf 0;
   let header := set_magic 0 (uint8_t m0) header in
   m1 <- rd buf 1;
   let header := set_magic 1 (uint8_t m1) header in
   m2 <- rd buf 2;
   let header := set_magic 2 (uint8_t m2) header in
   m3 <- rd buf 3;
   let header := set_magic 3 (uint8_t m3) header in
   let buf := drop 4 buf in
   v <- BIG_ENDIAN_U16 buf;
   let header := set_version (uint16_t v) header in
   let buf := drop 2 buf in
   v <- BIG_ENDIAN_U16 buf;
   let header := set_flags (uint16_t v) header in
   let buf := drop 2 buf in
   v <- BIG_ENDIAN_U64 buf;
   let header := set_default_memory (uint64_t v) header in
   let buf := drop 8 buf in
   v <- BIG_ENDIAN_U64 buf;
   let header := set_default_cpus (uint64_t v) header in
   let buf := drop 8 buf in
   v <- BIG_ENDIAN_U16 buf;
   let header := set_reserved (uint16_t v) header in
   let buf := drop 2 buf in
   v <- BIG_ENDIAN_U16 buf;
   let header := set_section_cnt (uint16_t v) header in
   let buf := drop 2 buf in
   st <- u64_array_loop set_section_offsets MAX_SECTIONS 0 buf header;
   st <- u64_array_loop set_section_sizes MAX_SECTIONS 0 (fst st) (snd st);
   let buf := fst st in
   let header := snd st in
   v <- BIG_ENDIAN_U32 buf;
   let header := set_unused (uint32_t v) header in
   let buf := drop 4 buf in
   v <- BIG_ENDIAN_U32 buf;
   let header := set_eif_crc32 (uint32_t v) header in
   Ok header)%res.

(** [void parse_eif_section_header(uint8_t *buf, uint64_t buf_len,
    EifSectionHeader *header)]. *)
Definition parse_eif_section_header (buf : list byte) (buf_len : Z)
    (header : EifSectionHeader) : result EifSectionHeader :=
  (Res.assert (EIF_SECTION_HEADER_SIZE <=? buf_len) TruncatedSectionHeader;;
   v <- BIG_ENDIAN_U16 buf;
   let header := set_section_type (uint16_t v) header in
   let buf := drop 2 buf in
   v <- BIG_ENDIAN_U16 buf;
   let header := set_sh_flags (uint16_t v) header in
   let buf := drop 2 buf in
   v <- BIG_ENDIAN_U64 buf;
   let header := set_section_size (uint64_t v) header in
   Ok header)%res.

(** ** The printing helpers *)

Definition section_type_string (type : Z) : string :=
  if type =? 0 then "invalid"
  else if type =? 1 then "kernel"
  else if type =? 2 then "cmdline"
  else if type =? 3 then "ramdisk"
  else if type =? 4 then "signature"
  else if type =? 5 then "metadata"
  else "unknown".

(** What [%s] (or [%.4s]) shows of a byte array: the bytes before the first
    null byte. *)
Fixpoint c_string (l : list byte) : list byte :=
  match l with
  | [] => []
  | b :: l' => if bool_decide (b = x00) then [] else b :: c_string l'
  end.

(** What goes to [stdout]; numbers are kept as numbers, not as digits. *)
Inductive out_line : Type :=
  | OutHeader (magic : list byte)
      (version flags default_memory default_cpus section_cnt crc32 : Z)
                              (* print_eif_header *)
  | OutSectionsBegin          (* "------EIF Section Headers-----" *)
  | OutSection (type : string) (flags size : Z)
                              (* print_eif_section_header *)
  | OutSectionsEnd            (* "------EIF Section Headers------" *)
  | OutMetadata (json : list byte).
                              (* the metadata between its two banner lines *)

(** What goes to [stderr] without ending the program: the size warning, with
    the file header's size first and the section header's size second. *)
Inductive err_line : Type :=
  | Warning (header_size section_header_size : Z).

#[global] Instance out_line_eq_dec : EqDecision out_line.
Proof. solve_decision. Defined.

(** ** The file descriptor and the rest of the world

    [fd] is a regular file opened read-only: its bytes never change, it has a
    file offset, [lseek] refuses a negative offset or one beyond what the file
    system supports, and [read] transfers the bytes from the file offset on,
    as many as were asked for unless the file ends first or the request
    exceeds what one call transfers. [malloc] grants a request up to the
    memory that is free and hands out memory of indeterminate content. Every
    [lseek] and [read] is logged with its arguments and return value. *)

Inductive syscall : Type :=
  | SysLseek (offset ret : Z)
  | SysRead (count ret : Z).

Record world : Type := mkWorld {
  file_data : list byte;
  file_pos : Z;
  s_maxbytes : Z;        (* largest file offset the file system supports *)
  max_rw_count : Z;      (* most bytes a single read transfers *)
  heap_free : Z;         (* largest request malloc grants *)
  junk : byte;           (* content of memory never written *)
  syscalls : list syscall;
  stdout : list out_line;
  stderr : list err_line
}.

Definition M (A : Type) : Type := world -> result A * world.

Module IO.
Definition ret {A} (a : A) : M A := fun w => (Ok a, w).

Definition bind {A B} (m : M A) (k : A -> M B) : M B :=
  fun w =>
    match m w with
    | (Ok a, w') => k a w'
    | (Exit f, w') => (Exit f, w')
    end.

(** [fprintf(stderr, ...); exit(1);] or a failed [assert]. *)
Definition die {A} (f : failure) : M A := fun w => (Exit f, w).

Definition lift {A} (r : result A) : M A := fun w => (r, w).

Definition get_junk : M byte := fun w => (Ok (junk w), w).
End IO.

Declare Scope io_scope.
Delimit Scope io_scope with io.
Notation "x <- m ; k" := (IO.bind m (fun x => k))
  (at level 100, m at next level, right associativity) : io_scope.
Notation "m ;; k" := (IO.bind m (fun _ => k))
  (at level 100, right associativity) : io_scope.

Definition set_file_pos (p : Z) (w : world) : world :=
  mkWorld (file_data w) p (s_maxbytes w) (max_rw_count w) (heap_free w)
    (junk w) (syscalls w) (stdout w) (stderr w).
Definition log_syscall (c : syscall) (w : world) : world :=
  mkWorld (file_data w) (file_pos w) (s_maxbytes w) (max_rw_count w)
    (heap_free w) (junk w) (syscalls w ++ [c]) (stdout w) (stderr w).
Definition put_stdout (l : out_line) (w : world) : world :=
  mkWorld (file_data w) (file_pos w) (s_maxbytes w) (max_rw_count w)
    (heap_free w) (junk w) (syscalls w) (stdout w ++ [l]) (stderr w).
Definition put_stderr (l : err_line) (w : world) : world :=
  mkWorld (file_data w) (file_pos w) (s_maxbytes w) (max_rw_count w)
    (heap_free w) (junk w) (syscalls w) (stdout w) (stderr w ++ [l]).

(** [lseek(fd, offset, SEEK_SET)]. *)
Definition lseek (offset : Z) : M Z := fun w =>
  if (0 <=? offset) && (offset <=? s_maxbytes w)
  then (Ok offset, log_syscall (SysLseek offset offset) (set_file_pos offset w))
  else (Ok (-1), log_syscall (SysLseek offset (-1)) w).

(** The bytes one [read] of [count] bytes transfers. *)
Definition read_data (count : Z) (w : world) : list byte :=
  take (Z.to_nat (Z.min count (max_rw_count w)))
       (drop (Z.to_nat (file_pos w)) (file_data w)).

(** [read(fd, buf, count)]: returns the count transferred and the buffer
    with these bytes written over its beginning. Each call below passes as
    [count] the size [buf] was allocated with. *)
Definition read (buf : list byte) (count : Z) : M (Z * list byte) := fun w =>
  let data := read_data count w in
  let got := Z.of_nat (length data) in
  (Ok (got, data ++ drop (length data) buf),
   log_syscall (SysRead count got) (set_file_pos (file_pos w + got) w)).

(** [malloc(size)]: [None] is the null pointer. *)
Definition malloc (size : Z) : M (option (list byte)) := fun w =>
  if size <=? heap_free w
  then (Ok (Some (replicate (Z.to_nat size) (junk w))), w)
  else (Ok None, w).

(** [p[i] = v] on an allocated block. *)
Definition store (p : list byte) (i : Z) (v : byte) : result (list byte) :=
  if (0 <=? i) && (i <? Z.of_nat (length p))
  then Ok (<[Z.to_nat i := v]> p)
  else Exit OutOfBounds.

(** [a[i]] on an array of the header. *)
Definition arr (a : list Z) (i : nat) : result Z :=
  match a !! i with
  | Some v => Ok v
  | None => Exit OutOfBounds
  end.

Definition print_eif_header (header : EifHeader) : M unit := fun w =>
  (Ok tt,
   put_stdout (OutHeader (c_string (take 4 (byte_of_Z <$> magic header)))
                 (version header) (flags header) (default_memory header)
                 (default_cpus header) (section_cnt header) (eif_crc32 header))
              w).

Definition print_eif_section_header (header : EifSectionHeader) : M unit :=
  fun w =>
  (Ok tt,
   put_stdout (OutSection (section_type_string (section_type header))
                 (sh_flags header) (section_size header)) w).

Definition puts (l : out_line) : M unit := fun w => (Ok tt, put_stdout l w).
Definition warn (l : err_line) : M unit := fun w => (Ok tt, put_stderr l w).

(** A local struct that has not been assigned yet. *)
Definition uninit_section_header (j : byte) : EifSectionHeader :=
  mkEifSectionHeader (u8 j) (u8 j) (u8 j).
Definition uninit_header (j : byte) : EifHeader :=
  mkEifHeader (replicate 4 (u8 j)) (u8 j) (u8 j) (u8 j) (u8 j) (u8 j) (u8 j)
    (replicate MAX_SECTIONS (u8 j)) (replicate MAX_SECTIONS (u8 j))
    (u8 j) (u8 j).

(** ** The section walk of [parse_eif_file] *)

(** The locals that live across the iterations of the loop: the header
    buffer [buf] and the pointer [metadata] ([None] is [NULL]). *)
Definition locals : Type := list byte * option (list byte).

(** The block under [if (metadata == NULL && section_type == 5)]. *)
Definition capture_metadata (eif_section_header : EifSectionHeader)
    : M (list byte) :=
  (let size := uint64_t (section_size eif_section_header + 1) in
   p <- malloc size;
   match p with
   | None => IO.die AllocFailed
   | Some metadata =>
       r <- read metadata size;
       let got := fst r in
       let metadata := snd r in
       if negb (got =? int64_t size) then IO.die TruncatedMetadata
       else IO.lift (store metadata (uint64_t (size - 1)) x00)
   end)%io.

(** The body of [for (int i = 0; i < eif_header.section_cnt; ++i)]. *)
Definition section_iter (eif_header : EifHeader) (i : nat) (st : locals)
    : M locals :=
  (let buf := fst st in
   let metadata := snd st in
   j <- IO.get_junk;
   let eif_section_header := uninit_section_header j in
   section_offset <- IO.lift (arr (section_offsets eif_header) i);
   offset <- lseek (int64_t section_offset);
   if negb (uint64_t offset =? section_offset) then IO.die SeekFailed
   else
     r <- read buf EIF_SECTION_HEADER_SIZE;
     let got := fst r in
     let buf := snd r in
     if negb (got =? EIF_SECTION_HEADER_SIZE)
     then IO.die TruncatedSectionHeader
     else
       eif_section_header <-
         IO.lift (parse_eif_section_header buf EIF_SECTION_HEADER_SIZE
                    eif_section_header);
       print_eif_section_header eif_section_header;;
       declared <- IO.lift (arr (section_sizes eif_header) i);
       (if negb (declared =? section_size eif_section_header)
        then warn (Warning declared (section_size eif_section_header))
        else IO.ret tt);;
       if bool_decide (metadata = None)
          && (section_type eif_section_header =? 5)
       then
         m <- capture_metadata eif_section_header;
         IO.ret (buf, Some m)
       else IO.ret (buf, metadata))%io.

(** [n] turns of the loop, from index [i] on. *)
Fixpoint walk_loop (eif_header : EifHeader) (n : nat) (i : nat) (st : locals)
    : M locals :=
  match n with
  | O => IO.ret st
  | S n' =>
      (st' <- section_iter eif_header i st;
       walk_loop eif_header n' (S i) st')%io
  end.

(** [parse_eif_file] from the [assert] on the section count down to the
    metadata report; the value returned is the local [metadata] as it stands
    when [free(metadata)] is reached. *)
Definition walk_sections (eif_header : EifHeader) (buf : list byte)
    : M (option (list byte)) :=
  (IO.lift (Res.assert (section_cnt eif_header <=? Z.of_nat MAX_SECTIONS)
              TooManySections);;
   puts OutSectionsBegin;;
   st <- walk_loop eif_header (Z.to_nat (section_cnt eif_header)) 0
           (buf, None);
   puts OutSectionsEnd;;
   match snd st with
   | Some metadata => puts (OutMetadata (c_string metadata));; IO.ret (snd st)
   | None => IO.ret (snd st)
   end)%io.

(** [parse_eif_file] once [open] has returned the descriptor. *)
Definition parse_eif_file : M (option (list byte)) :=
  (j <- IO.get_junk;
   p <- malloc EIF_HEADER_SIZE;
   match p with
   | None => IO.die AllocFailed
   | Some buf =>
       r <- read buf EIF_HEADER_SIZE;
       let got := fst r in
       let buf := snd r in
       if negb (got =? EIF_HEADER_SIZE) then IO.die TruncatedInput
       else
         eif_header <-
           IO.lift (parse_eif_header buf EIF_HEADER_SIZE (uninit_header j));
         print_eif_header eif_header;;
         walk_sections eif_header buf
   end)%io.

(** ** The layout, stated independently of the decoders

    Big-endian as a positional value (the first byte is the most
    significant), the field found at an offset of a buffer, and the encoder
    that writes a value most significant byte first. The decoders above are
    compared with these. *)

Definition be_value (bs : list byte) : Z :=
  foldl (fun acc b => acc * 256 + u8 b) 0 bs.

Definition field (buf : list byte) (off len : nat) : Z :=
  be_value (take len (drop off buf)).

Fixpoint be_bytes (n : nat) (v : Z) : list byte :=
  match n with
  | O => []
  | S n' => byte_of_Z (v / 256 ^ Z.of_nat n') :: be_bytes n' v
  end.

(** The header the layout table describes for a buffer. *)
Definition layout_header (buf : list byte) : EifHeader :=
  mkEifHeader
    (u8 <$> take 4 buf)
    (field buf 4 2)
    (field buf 6 2)
    (field buf 8 8)
    (field buf 16 8)
    (field buf 24 2)
    (field buf 26 2)
    ((fun i => field buf (28 + 8 * i) 8) <$> seq 0 MAX_SECTIONS)
    ((fun i => field buf (284 + 8 * i) 8) <$> seq 0 MAX_SECTIONS)
    (field buf 540 4)
    (field buf 544 4).

Definition layout_section_header (buf : list byte) : EifSectionHeader :=
  mkEifSectionHeader (field buf 0 2) (field buf 2 2) (field buf 4 8).

(** Re-encoding: every field in layout order, at its width, big-endian. *)
Definition encode_header (h : EifHeader) : list byte :=
  (byte_of_Z <$> magic h)
  ++ be_bytes 2 (version h)
  ++ be_bytes 2 (flags h)
  ++ be_bytes 8 (default_memory h)
  ++ be_bytes 8 (default_cpus h)
  ++ be_bytes 2 (reserved h)
  ++ be_bytes 2 (section_cnt h)
  ++ concat (be_bytes 8 <$> section_offsets h)
  ++ concat (be_bytes 8 <$> section_sizes h)
  ++ be_bytes 4 (unused h)
  ++ be_bytes 4 (eif_crc32 h).

Definition encode_section_header (h : EifSectionHeader) : list byte :=
  be_bytes 2 (section_type h) ++ be_bytes 2 (sh_flags h)
  ++ be_bytes 8 (section_size h).

(** The two arrays of the header written as a whole; the loops of
    [parse_eif_header] are described with these. *)
Definition put_section_offsets (l : list Z) (h : EifHeader) : EifHeader :=
  mkEifHeader (magic h) (version h) (flags h) (default_memory h)
    (default_cpus h) (reserved h) (section_cnt h) l (section_sizes h)
    (unused h) (eif_crc32 h).
Definition put_section_sizes (l : list Z) (h : EifHeader) : EifHeader :=
  mkEifHeader (magic h) (version h) (flags h) (default_memory h)
    (default_cpus h) (reserved h) (section_cnt h) (section_offsets h) l
    (unused h) (eif_crc32 h).

(** ** Vocabulary for the statements about the walk *)

(** The bytes of the file from position [pos] on, [size] of them at most. *)
Definition payload_at (data : list byte) (pos size : Z) : list byte :=
  take (Z.to_nat size) (drop (Z.to_nat pos) data).

(** The value [lseek(fd, section_offset, SEEK_SET)] returns, and the world
    once it has returned. *)
Definition seek_result (section_offset : Z) (w : world) : Z :=
  if (0 <=? int64_t section_offset)
     && (int64_t section_offset <=? s_maxbytes w)
  then int64_t section_offset
  else -1.

Definition after_seek (section_offset : Z) (w : world) : world :=
  snd (lseek (int64_t section_offset) w).

(** The world once [read(fd, buf, count)] has returned. *)
Definition after_read (count : Z) (w : world) : world :=
  log_syscall (SysRead count (Z.of_nat (length (read_data count w))))
    (set_file_pos (file_pos w + Z.of_nat (length (read_data count w))) w).

(** A world with another content of [stderr]. *)
Definition set_stderr (e : list err_line) (w : world) : world :=
  mkWorld (file_data w) (file_pos w) (s_maxbytes w) (max_rw_count w)
    (heap_free w) (junk w) (syscalls w) (stdout w) e.

(** What the loop body prints for a section header. *)
Definition descriptor (sh : EifSectionHeader) : out_line :=
  OutSection (section_type_string (section_type sh)) (sh_flags sh)
    (section_size sh).

Definition is_descriptor (l : out_line) : bool :=
  match l with
  | OutSection _ _ _ => true
  | _ => false
  end.

(** Index (among the lines) and size of the first descriptor whose type reads
    "metadata". *)
Fixpoint first_metadata (ds : list out_line) : option (nat * Z) :=
  match ds with
  | [] => None
  | OutSection type _ size :: ds' =>
      if bool_decide (type = "metadata") then Some (0%nat, size)
      else (fun p => (S (fst p), snd p)) <$> first_metadata ds'
  | _ :: ds' => (fun p => (S (fst p), snd p)) <$> first_metadata ds'
  end.

(** The byte counts requested by the [read] calls of a log, in order. *)
Fixpoint reads (cs : list syscall) : list Z :=
  match cs with
  | [] => []
  | SysRead count _ :: cs' => count :: reads cs'
  | SysLseek _ _ :: cs' => reads cs'
  end.

(** Two worlds that are the same but for the byte at position [p] of the
    file. *)
Definition same_but_byte (p : Z) (w w' : world) : Prop :=
  0 <= p
  /\ (exists b, file_data w' = <[Z.to_nat p := b]> (file_data w))
  /\ file_pos w = file_pos w'
  /\ s_maxbytes w = s_maxbytes w'
  /\ max_rw_count w = max_rw_count w'
  /\ heap_free w = heap_free w'
  /\ junk w = junk w'
  /\ syscalls w = syscalls w'
  /\ stdout w = stdout w'
  /\ stderr w = stderr w'.

(** Two worlds in which a walk meets the same seeks and read lengths: the
    files have the same length, the file offsets and the limits agree. *)
Definition same_shape (w w' : world) : Prop :=
  length (file_data w) = length (file_data w')
  /\ file_pos w = file_pos w'
  /\ s_maxbytes w = s_maxbytes w'
  /\ max_rw_count w = max_rw_count w'
  /\ heap_free w = heap_free w'.

(** ** Concrete inputs *)

Definition pad32 (l : list Z) : list Z :=
  l ++ replicate (MAX_SECTIONS - length l) 0.

(** A header with magic [.eif], version 4 and the given section table. *)
Definition sample_header (cnt : Z) (offs sizes : list Z) : EifHeader :=
  mkEifHeader [46; 101; 105; 102] 4 0 0 0 0 cnt (pad32 offs) (pad32 sizes)
    0 0.

(** A section as it lies in the file: its header, then its payload. *)
Definition section_bytes (type size : Z) (payload : list byte) : list byte :=
  encode_section_header (mkEifSectionHeader type 0 size) ++ payload.

(** A freshly opened file on a system with ordinary limits: offsets up to
    [2^43], [0x7ffff000] bytes per read, [2^40] bytes of memory. *)
Definition sample_world (data : list byte) : world :=
  mkWorld data 0 (2^43) (2^31 - 4096) (2^40) xaa [] [] [].

(** 548 bytes of a well-formed header, and 548 bytes that are no header at
    all: magic [ff ff ff ff], section count 65535. *)
Definition sample_buf : list byte :=
  encode_header (sample_header 2 [548; 562] [2; 3]).
Definition garbage_buf : list byte := replicate 548 xff.

(** The header buffer as [parse_eif_file] holds it when the walk starts. *)
Definition header_buf (file : list byte) : list byte := take 548 file.

(** Files for the walk. Each starts with its 548-byte header.

    [two_metadata_file]: two metadata sections, back to back.
    [metadata_last_file]: one metadata section whose payload ends the file.
    [mismatch_file]: the header declares 10 bytes for a metadata section
    whose own header says 20.
    [truncated_file]: a kernel section, then a section offset past the end
    of the file.
    [refused_seek_file]: the one section offset of the header is [2^64 - 1];
    a kernel section lies right after the header.
    [overlap_file b]: the section table names the section at 562 first and
    the metadata section at 548 second; byte 562, the one right after the
    metadata payload, is the high byte [b] of the other section's type. *)
Definition two_metadata_file : list byte :=
  encode_header (sample_header 2 [548; 562] [2; 3])
  ++ section_bytes 5 2 [x7b; x7d]
  ++ section_bytes 5 3 [x41; x42; x43].

Definition metadata_last_file : list byte :=
  encode_header (sample_header 1 [548] [2])
  ++ section_bytes 5 2 [x7b; x7d].

Definition mismatch_file : list byte :=
  encode_header (sample_header 1 [548] [10])
  ++ section_bytes 5 20 (replicate 20 x61) ++ [xff].

Definition truncated_file : list byte :=
  encode_header (sample_header 2 [548; 5000] [0; 0])
  ++ section_bytes 1 0 [].

Definition refused_seek_file : list byte :=
  encode_header (sample_header 1 [UINT64_MAX] [0])
  ++ section_bytes 1 0 [].

Definition overlap_file (b : Z) : list byte :=
  encode_header (sample_header 2 [562; 548] [2; 2])
  ++ section_bytes 5 2 [x7b; x7d]
  ++ section_bytes (b * 256 + 5) 2 [x41; x42] ++ [x43].

(** ** Vocabulary for the further properties *)

(** A struct whose fields hold values of their C types. *)
Definition header_in_range (h : EifHeader) : Prop :=
  length (magic h) = 4%nat
  /\ Forall (fun b => 0 <= b < 2^8) (magic h)
  /\ 0 <= version h < 2^16
  /\ 0 <= flags h < 2^16
  /\ 0 <= default_memory h < 2^64
  /\ 0 <= default_cpus h < 2^64
  /\ 0 <= reserved h < 2^16
  /\ 0 <= section_cnt h < 2^16
  /\ length (section_offsets h) = MAX_SECTIONS
  /\ Forall (fun v => 0 <= v < 2^64) (section_offsets h)
  /\ length (section_sizes h) = MAX_SECTIONS
  /\ Forall (fun v => 0 <= v < 2^64) (section_sizes h)
  /\ 0 <= unused h < 2^32
  /\ 0 <= eif_crc32 h < 2^32.

Definition section_header_in_range (h : EifSectionHeader) : Prop :=
  0 <= section_type h < 2^16
  /\ 0 <= sh_flags h < 2^16
  /\ 0 <= section_size h < 2^64.

(** The offsets passed to the [lseek] calls of a log, in order. *)
Fixpoint seeks (cs : list syscall) : list Z :=
  match cs with
  | [] => []
  | SysLseek offset _ :: cs' => offset :: seeks cs'
  | SysRead _ _ :: cs' => seeks cs'
  end.

(** The warnings that declared sizes and printed descriptors call for, pair
    by pair. *)
Fixpoint warnings (declared : list Z) (ds : list out_line) : list err_line :=
  match declared, ds with
  | d :: declared', OutSection _ _ size :: ds' =>
      (if d =? size then [] else [Warning d size]) ++ warnings declared' ds'
  | _ :: declared', _ :: ds' => warnings declared' ds'
  | _, _ => []
  end.

(** The header line [print_eif_header] writes. *)
Definition header_line (h : EifHeader) : out_line :=
  OutHeader (c_string (take 4 (byte_of_Z <$> magic h)))
    (version h) (flags h) (default_memory h) (default_cpus h)
    (section_cnt h) (eif_crc32 h).

(** A section the loop can visit in the world [w]: [lseek] accepts its
    offset, its 12-byte header lies within the file and, when that header is
    metadata-typed, its payload and one byte more can be allocated and lie
    within what one [read] transfers and the file holds. *)
Definition section_readable (w : world) (o : Z) : Prop :=
  0 <= o < 2^63 /\ o <= s_maxbytes w /\ 12 <= max_rw_count w
  /\ o + 12 <= Z.of_nat (length (file_data w))
  /\ let sh := layout_section_header (payload_at (file_data w) o 12) in
     (section_type sh = 5 ->
      section_size sh + 1 < 2^63
      /\ section_size sh + 1 <= heap_free w
      /\ section_size sh + 1 <= max_rw_count w
      /\ o + 12 + (section_size sh + 1) <= Z.of_nat (length (file_data w))).

(** ** Vocabulary for the byte read beyond the payload *)

(** The section header that lies at position [q] of a file. *)
Definition section_header_at (data : list byte) (q : Z) : EifSectionHeader :=
  layout_section_header (payload_at data q 12).

(** Where the loop reads the section headers of the table entries [offs], one
    after the other from the file offset [pos] on, as long as no metadata
    block is read in between: at the entry when [lseek] accepts it, and where
    the previous [read] ended when it does not. *)
Fixpoint header_positions (smax pos : Z) (offs : list Z) : list Z :=
  match offs with
  | [] => []
  | o :: offs' =>
      let q := if (0 <=? int64_t o) && (int64_t o <=? smax)
               then int64_t o else pos in
      q :: header_positions smax (q + 12) offs'
  end.

(** Two worlds whose files are the same but for the byte at position [p],
    with the same file offset, not negative, and the same limits; what has
    been printed and logged may differ. *)
Definition same_file_but_byte (p : Z) (w w' : world) : Prop :=
  0 <= p
  /\ 0 <= file_pos w
  /\ (exists b, file_data w' = <[Z.to_nat p := b]> (file_data w))
  /\ file_pos w = file_pos w'
  /\ s_maxbytes w = s_maxbytes w'
  /\ max_rw_count w = max_rw_count w'
  /\ heap_free w = heap_free w'.

(** Two more files.

    [flags_overlap_file]: the table names the section at 560 first and the
    metadata section at 548 second; the section at 560 lies over the end of
    the metadata section, so that the byte right after the metadata payload
    (562) is the first byte of its flags.
    [moved_section_file o]: 548 bytes whose one table entry is [o]. With
    [o = 4] the section header is read from the header fields themselves
    (version 5, default memory 19), and the byte right after its payload (35)
    is the last byte of the table entry; with [o = 40] the section header is
    read from the unused table entries 1 and 2. *)
Definition flags_overlap_file : list byte :=
  encode_header (sample_header 2 [560; 548] [0; 2])
  ++ section_bytes 5 2 [x7b; x7d] ++ replicate 10 x00.

Definition moved_section_file (o : Z) : list byte :=
  encode_header
    (mkEifHeader [46; 101; 105; 102] 5 0 19 6000276099170574625 16705 1
       (pad32 [o; 327680; 2; 8898268438753968128]) (pad32 []) 0 0).

(** * Properties *)

(** ** Bytes and bit arithmetic *)

Lemma u8_range (b : byte) : 0 <= u8 b < 256.
Proof.
  unfold u8. pose proof (Byte.to_N_bounded b) as Hb. lia.
Qed.

Lemma byte_of_Z_u8 (b : byte) : byte_of_Z (u8 b) = b.
Proof.
  unfold byte_of_Z. rewrite Z.mod_small by apply u8_range.
  unfold u8. rewrite N2Z.id, Byte.of_to_N. reflexivity.
Qed.

(** Or-ing a value below [2^n] into a multiple of [2^n] adds it. *)
Lemma lor_disjoint (n x b : Z) :
  0 <= n -> x mod 2^n = 0 -> 0 <= b < 2^n -> Z.lor x b = x + b.
Proof.
  intros Hn Hx Hb.
  assert (Hland : Z.land x b = 0).
  { apply Z.bits_inj'. intros i Hi.
    rewrite Z.land_spec, Z.bits_0.
    destruct (Z.lt_ge_cases i n) as [Hlt|Hge].
    - assert (Hbit : Z.testbit x i = false).
      { rewrite <- (Z.mod_pow2_bits_low x n i) by lia.
        rewrite Hx. apply Z.bits_0. }
      rewrite Hbit. reflexivity.
    - assert (Hbit : Z.testbit b i = false).
      { destruct (Z.eq_dec b 0) as [->|Hnz]; [apply Z.bits_0|].
        apply Z.bits_above_log2; [lia|].
        apply Z.log2_lt_pow2; [lia|].
        apply Z.lt_le_trans with (2^n); [lia|].
        apply Z.pow_le_mono_r; lia. }
      rewrite Hbit. apply andb_false_r. }
  pose proof (Z.add_lor_land x b) as H. lia.
Qed.

Lemma mod_mul_pow2 (q k n : Z) : 0 <= n <= k -> (q * 2^k) mod 2^n = 0.
Proof.
  intros H. replace k with ((k - n) + n) by lia.
  rewrite Z.pow_add_r by lia. rewrite Z.mul_assoc.
  apply Z.mod_mul. lia.
Qed.

Ltac lor_step n x b :=
  rewrite (lor_disjoint n x b) by (first [apply mod_mul_pow2; lia | lia]).

Lemma be16_arith (a0 a1 : Z) :
  0 <= a0 < 256 -> 0 <= a1 < 256 ->
  Z.lor (Z.shiftl (uint16_t a0) 8) (uint16_t a1) = (0 * 256 + a0) * 256 + a1.
Proof.
  intros H0 H1. unfold uint16_t.
  rewrite !Z.shiftl_mul_pow2 by lia.
  rewrite (Z.mod_small a0), (Z.mod_small a1) by lia.
  lor_step 8 (a0 * 2^8) a1. lia.
Qed.

Lemma be32_arith (a0 a1 a2 a3 : Z) :
  0 <= a0 < 256 -> 0 <= a1 < 256 -> 0 <= a2 < 256 -> 0 <= a3 < 256 ->
  Z.lor (Z.lor (Z.lor
         (uint32_t (Z.shiftl (uint32_t a0) 24))
         (uint32_t (Z.shiftl (uint32_t a1) 16)))
         (uint32_t (Z.shiftl (uint32_t a2) 8)))
         (uint32_t a3)
  = (((0 * 256 + a0) * 256 + a1) * 256 + a2) * 256 + a3.
Proof.
  intros H0 H1 H2 H3. unfold uint32_t.
  rewrite !Z.shiftl_mul_pow2 by lia.
  rewrite (Z.mod_small a0), (Z.mod_small a1), (Z.mod_small a2),
    (Z.mod_small a3) by lia.
  rewrite (Z.mod_small (a0 * _)), (Z.mod_small (a1 * _)),
    (Z.mod_small (a2 * _)) by lia.
  lor_step 24 (a0 * 2^24) (a1 * 2^16).
  replace (a0 * 2^24 + a1 * 2^16) with ((a0 * 2^8 + a1) * 2^16) by lia.
  lor_step 16 ((a0 * 2^8 + a1) * 2^16) (a2 * 2^8).
  replace ((a0 * 2^8 + a1) * 2^16 + a2 * 2^8)
    with (((a0 * 2^8 + a1) * 2^8 + a2) * 2^8) by lia.
  lor_step 8 (((a0 * 2^8 + a1) * 2^8 + a2) * 2^8) a3. lia.
Qed.

Lemma be64_arith (a0 a1 a2 a3 a4 a5 a6 a7 : Z) :
  0 <= a0 < 256 -> 0 <= a1 < 256 -> 0 <= a2 < 256 -> 0 <= a3 < 256 ->
  0 <= a4 < 256 -> 0 <= a5 < 256 -> 0 <= a6 < 256 -> 0 <= a7 < 256 ->
  Z.lor (Z.lor (Z.lor (Z.lor (Z.lor (Z.lor (Z.lor
         (uint64_t (Z.shiftl (uint64_t a0) 56))
         (uint64_t (Z.shiftl (uint64_t a1) 48)))
         (uint64_t (Z.shiftl (uint64_t a2) 40)))
         (uint64_t (Z.shiftl (uint64_t a3) 32)))
         (uint64_t (Z.shiftl (uint64_t a4) 24)))
         (uint64_t (Z.shiftl (uint64_t a5) 16)))
         (uint64_t (Z.shiftl (uint64_t a6) 8)))
         (uint64_t a7)
  = (((((((0 * 256 + a0) * 256 + a1) * 256 + a2) * 256 + a3) * 256 + a4)
        * 256 + a5) * 256 + a6) * 256 + a7.
Proof.
  intros H0 H1 H2 H3 H4 H5 H6 H7. unfold uint64_t.
  rewrite !Z.shiftl_mul_pow2 by lia.
  rewrite (Z.mod_small a0), (Z.mod_small a1), (Z.mod_small a2),
    (Z.mod_small a3), (Z.mod_small a4), (Z.mod_small a5),
    (Z.mod_small a6), (Z.mod_small a7) by lia.
  rewrite (Z.mod_small (a0 * _)), (Z.mod_small (a1 * _)),
    (Z.mod_small (a2 * _)), (Z.mod_small (a3 * _)), (Z.mod_small (a4 * _)),
    (Z.mod_small (a5 * _)), (Z.mod_small (a6 * _)) by lia.
  lor_step 56 (a0 * 2^56) (a1 * 2^48).
  replace (a0 * 2^56 + a1 * 2^48) with ((a0 * 2^8 + a1) * 2^48) by lia.
  set (p1 := a0 * 2^8 + a1). assert (0 <= p1 < 2^16) by lia.
  lor_step 48 (p1 * 2^48) (a2 * 2^40).
  replace (p1 * 2^48 + a2 * 2^40) with ((p1 * 2^8 + a2) * 2^40) by lia.
  set (p2 := p1 * 2^8 + a2). assert (0 <= p2 < 2^24) by lia.
  lor_step 40 (p2 * 2^40) (a3 * 2^32).
  replace (p2 * 2^40 + a3 * 2^32) with ((p2 * 2^8 + a3) * 2^32) by lia.
  set (p3 := p2 * 2^8 + a3). assert (0 <= p3 < 2^32) by lia.
  lor_step 32 (p3 * 2^32) (a4 * 2^24).
  replace (p3 * 2^32 + a4 * 2^24) with ((p3 * 2^8 + a4) * 2^24) by lia.
  set (p4 := p3 * 2^8 + a4). assert (0 <= p4 < 2^40) by lia.
  lor_step 24 (p4 * 2^24) (a5 * 2^16).
  replace (p4 * 2^24 + a5 * 2^16) with ((p4 * 2^8 + a5) * 2^16) by lia.
  set (p5 := p4 * 2^8 + a5). assert (0 <= p5 < 2^48) by lia.
  lor_step 16 (p5 * 2^16) (a6 * 2^8).
  replace (p5 * 2^16 + a6 * 2^8) with ((p5 * 2^8 + a6) * 2^8) by lia.
  set (p6 := p5 * 2^8 + a6). assert (0 <= p6 < 2^56) by lia.
  lor_step 8 (p6 * 2^8) a7.
  subst p6 p5 p4 p3 p2 p1. lia.
Qed.

Lemma be_value_foldl (bs : list byte) (acc : Z) :
  foldl (fun a b => a * 256 + u8 b) acc bs
  = acc * 256 ^ Z.of_nat (length bs) + be_value bs.
Proof.
  unfold be_value. revert acc.
  induction bs as [|b bs IH]; intros acc; simpl foldl.
  - simpl. lia.
  - rewrite IH, (IH (0 * 256 + u8 b)).
    rewrite length_cons, Nat2Z.inj_succ, Z.pow_succ_r by lia. lia.
Qed.

Lemma be_value_cons (b : byte) (bs : list byte) :
  be_value (b :: bs) = u8 b * 256 ^ Z.of_nat (length bs) + be_value bs.
Proof.
  unfold be_value at 1. simpl foldl. rewrite be_value_foldl. lia.
Qed.

Lemma be_value_range (bs : list byte) :
  0 <= be_value bs < 256 ^ Z.of_nat (length bs).
Proof.
  induction bs as [|b bs IH].
  - unfold be_value. simpl. lia.
  - rewrite be_value_cons, length_cons, Nat2Z.inj_succ, Z.pow_succ_r by lia.
    pose proof (u8_range b). nia.
Qed.

Lemma BIG_ENDIAN_U16_take (buf : list byte) :
  (2 <= length buf)%nat -> BIG_ENDIAN_U16 buf = Ok (be_value (take 2 buf)).
Proof.
  intros H. destruct buf as [|b0 [|b1 buf]]; simpl in H; try lia.
  unfold BIG_ENDIAN_U16, rd. simpl.
  rewrite be16_arith by apply u8_range. reflexivity.
Qed.

Lemma BIG_ENDIAN_U32_take (buf : list byte) :
  (4 <= length buf)%nat -> BIG_ENDIAN_U32 buf = Ok (be_value (take 4 buf)).
Proof.
  intros H. destruct buf as [|b0 [|b1 [|b2 [|b3 buf]]]]; simpl in H; try lia.
  unfold BIG_ENDIAN_U32, rd. simpl.
  rewrite be32_arith by apply u8_range. reflexivity.
Qed.

Lemma BIG_ENDIAN_U64_take (buf : list byte) :
  (8 <= length buf)%nat -> BIG_ENDIAN_U64 buf = Ok (be_value (take 8 buf)).
Proof.
  intros H.
  destruct buf as [|b0 [|b1 [|b2 [|b3 [|b4 [|b5 [|b6 [|b7 buf]]]]]]]];
    simpl in H; try lia.
  unfold BIG_ENDIAN_U64, rd. simpl.
  rewrite be64_arith by apply u8_range. reflexivity.
Qed.

Lemma uint16_be_value (bs : list byte) :
  (length bs <= 2)%nat -> uint16_t (be_value bs) = be_value bs.
Proof.
  intros H. unfold uint16_t. apply Z.mod_small.
  pose proof (be_value_range bs) as Hr.
  assert (256 ^ Z.of_nat (length bs) <= 256 ^ 2) by (apply Z.pow_le_mono_r; lia).
  lia.
Qed.

Lemma uint32_be_value (bs : list byte) :
  (length bs <= 4)%nat -> uint32_t (be_value bs) = be_value bs.
Proof.
  intros H. unfold uint32_t. apply Z.mod_small.
  pose proof (be_value_range bs) as Hr.
  assert (256 ^ Z.of_nat (length bs) <= 256 ^ 4) by (apply Z.pow_le_mono_r; lia).
  lia.
Qed.

Lemma uint64_be_value (bs : list byte) :
  (length bs <= 8)%nat -> uint64_t (be_value bs) = be_value bs.
Proof.
  intros H. unfold uint64_t. apply Z.mod_small.
  pose proof (be_value_range bs) as Hr.
  assert (256 ^ Z.of_nat (length bs) <= 256 ^ 8) by (apply Z.pow_le_mono_r; lia).
  lia.
Qed.

(** ** The decoders follow the layout *)

Lemma field_drop (buf : list byte) (k off len : nat) :
  field (drop k buf) off len = field buf (k + off) len.
Proof. unfold field. rewrite drop_drop. reflexivity. Qed.

Lemma be_value_take_field (buf : list byte) (len : nat) :
  be_value (take len buf) = field buf 0 len.
Proof. unfold field. rewrite drop_0. reflexivity. Qed.

(** An array of the header as a lens: what the loop needs of [set]. *)
Section ArrayLoop.
Variable get : EifHeader -> list Z.
Variable put : list Z -> EifHeader -> EifHeader.
Variable set : nat -> Z -> EifHeader -> EifHeader.
Hypothesis set_put : forall i v h, set i v h = put (<[i := v]> (get h)) h.
Hypothesis get_put : forall l h, get (put l h) = l.
Hypothesis put_put : forall l l' h, put l (put l' h) = put l h.
Hypothesis put_get : forall h, put (get h) h = h.

Lemma u64_array_loop_spec (n i : nat) (buf : list byte) (h : EifHeader) :
  (8 * n <= length buf)%nat ->
  (i + n <= length (get h))%nat ->
  u64_array_loop set n i buf h
  = Ok (drop (8 * n) buf,
        put (take i (get h)
             ++ ((fun k => field buf (8 * k) 8) <$> seq 0 n)
             ++ drop (i + n) (get h)) h).
Proof.
  revert i buf h. induction n as [|n IH]; intros i buf h Hbuf Hlen.
  - simpl. rewrite drop_0, Nat.add_0_r, take_drop, put_get. reflexivity.
  - cbn [u64_array_loop].
    rewrite BIG_ENDIAN_U64_take by lia. cbn [Res.bind].
    rewrite uint64_be_value by (rewrite length_take; lia).
    rewrite be_value_take_field.
    rewrite IH; cycle 1.
    { rewrite length_drop. lia. }
    { rewrite set_put, get_put, length_insert. lia. }
    rewrite set_put, get_put, put_put, drop_drop.
    f_equal. f_equal; [f_equal; lia|]. f_equal.
    rewrite (take_S_r _ _ (field buf 0 8))
      by (apply list_lookup_insert_eq; lia).
    rewrite take_insert_ge by lia.
    rewrite drop_insert_lt by lia.
    rewrite <- app_assoc. f_equal. cbn [seq fmap list_fmap app].
    replace (8 * 0)%nat with 0%nat by lia. f_equal.
    replace (S i + n)%nat with (i + S n)%nat by lia. f_equal.
    rewrite <- fmap_S_seq, <- list_fmap_compose.
    apply list_fmap_ext. intros _ k _. unfold compose. rewrite field_drop.
    f_equal. lia.
Qed.
End ArrayLoop.

Lemma rd_field (buf : list byte) (i : nat) :
  (i < length buf)%nat -> rd buf i = Ok (field buf i 1).
Proof.
  intros H. unfold rd, field.
  destruct (lookup_lt_is_Some_2 buf i H) as [b Hb]. rewrite Hb.
  rewrite <- (take_drop_middle buf i b Hb).
  rewrite drop_app_length' by (rewrite length_take; lia).
  cbn. unfold be_value. cbn. f_equal.
Qed.

Lemma U16_field (buf : list byte) (off : nat) :
  (off + 2 <= length buf)%nat ->
  BIG_ENDIAN_U16 (drop off buf) = Ok (field buf off 2).
Proof.
  intros H. apply BIG_ENDIAN_U16_take. rewrite length_drop. lia.
Qed.

Lemma U32_field (buf : list byte) (off : nat) :
  (off + 4 <= length buf)%nat ->
  BIG_ENDIAN_U32 (drop off buf) = Ok (field buf off 4).
Proof.
  intros H. apply BIG_ENDIAN_U32_take. rewrite length_drop. lia.
Qed.

Lemma U64_field (buf : list byte) (off : nat) :
  (off + 8 <= length buf)%nat ->
  BIG_ENDIAN_U64 (drop off buf) = Ok (field buf off 8).
Proof.
  intros H. apply BIG_ENDIAN_U64_take. rewrite length_drop. lia.
Qed.

Lemma uint8_field (buf : list byte) (off : nat) :
  uint8_t (field buf off 1) = field buf off 1.
Proof.
  unfold uint8_t, field. apply Z.mod_small.
  pose proof (be_value_range (take 1 (drop off buf))) as Hr.
  assert (256 ^ Z.of_nat (length (take 1 (drop off buf))) <= 256 ^ 1)
    by (apply Z.pow_le_mono_r; rewrite ?length_take; lia).
  lia.
Qed.

Lemma uint16_field (buf : list byte) (off : nat) :
  uint16_t (field buf off 2) = field buf off 2.
Proof. apply uint16_be_value. rewrite length_take. lia. Qed.

Lemma uint32_field (buf : list byte) (off : nat) :
  uint32_t (field buf off 4) = field buf off 4.
Proof. apply uint32_be_value. rewrite length_take. lia. Qed.

Lemma uint64_field (buf : list byte) (off : nat) :
  uint64_t (field buf off 8) = field buf off 8.
Proof. apply uint64_be_value. rewrite length_take. lia. Qed.

Lemma magic_fields (buf : list byte) :
  (4 <= length buf)%nat ->
  [field buf 0 1; field buf 1 1; field buf 2 1; field buf 3 1]
  = u8 <$> take 4 buf.
Proof.
  intros H. destruct buf as [|b0 [|b1 [|b2 [|b3 buf]]]]; simpl in H; try lia.
  unfold field, be_value. cbn. repeat f_equal.
Qed.

Lemma offsets_loop (buf : list byte) (h : EifHeader) :
  (8 * MAX_SECTIONS <= length buf)%nat ->
  length (section_offsets h) = MAX_SECTIONS ->
  u64_array_loop set_section_offsets MAX_SECTIONS 0 buf h
  = Ok (drop (8 * MAX_SECTIONS) buf,
        put_section_offsets
          ((fun k => field buf (8 * k) 8) <$> seq 0 MAX_SECTIONS) h).
Proof.
  intros Hbuf Hlen.
  rewrite (u64_array_loop_spec section_offsets put_section_offsets);
    try (by intros; destruct h0); try lia.
  rewrite take_0, (drop_ge (section_offsets h)) by (cbn; lia).
  rewrite app_nil_r. reflexivity.
Qed.

Lemma sizes_loop (buf : list byte) (h : EifHeader) :
  (8 * MAX_SECTIONS <= length buf)%nat ->
  length (section_sizes h) = MAX_SECTIONS ->
  u64_array_loop set_section_sizes MAX_SECTIONS 0 buf h
  = Ok (drop (8 * MAX_SECTIONS) buf,
        put_section_sizes
          ((fun k => field buf (8 * k) 8) <$> seq 0 MAX_SECTIONS) h).
Proof.
  intros Hbuf Hlen.
  rewrite (u64_array_loop_spec section_sizes put_section_sizes);
    try (by intros; destruct h0); try lia.
  rewrite take_0, (drop_ge (section_sizes h)) by (cbn; lia).
  rewrite app_nil_r. reflexivity.
Qed.

Lemma parse_eif_header_layout (buf : list byte) (buf_len : Z) (h0 : EifHeader) :
  EIF_HEADER_SIZE <= buf_len ->
  (548 <= length buf)%nat ->
  header_shape h0 ->
  parse_eif_header buf buf_len h0 = Ok (layout_header buf).
Proof.
  intros Hlen Hbuf (Hm & Ho & Hs).
  unfold parse_eif_header.
  replace (EIF_HEADER_SIZE <=? buf_len) with true by (symmetry; lia).
  cbn [Res.assert Res.bind].
  rewrite !rd_field by lia. cbn [Res.bind].
  rewrite !uint8_field.
  rewrite !drop_drop. cbn [Nat.add].
  rewrite !U16_field, !U64_field by lia. cbn [Res.bind].
  rewrite !uint16_field, !uint64_field.
  rewrite offsets_loop by (rewrite ?length_drop; cbn; lia).
  cbn [Res.bind fst snd].
  rewrite sizes_loop by (rewrite ?length_drop; cbn; lia).
  cbn [Res.bind fst snd].
  rewrite !drop_drop. change (8 * MAX_SECTIONS)%nat with 256%nat.
  cbn [Nat.add].
  rewrite !U32_field by lia. cbn [Res.bind].
  rewrite !uint32_field.
  f_equal. unfold layout_header.
  rewrite <- magic_fields by lia.
  replace ((fun k => field (drop 28 buf) (8 * k) 8) <$> seq 0 MAX_SECTIONS)
    with ((fun i => field buf (28 + 8 * i) 8) <$> seq 0 MAX_SECTIONS)
    by (apply list_fmap_ext; intros _ k _; symmetry; apply field_drop).
  replace ((fun k => field (drop 284 buf) (8 * k) 8) <$> seq 0 MAX_SECTIONS)
    with ((fun i => field buf (284 + 8 * i) 8) <$> seq 0 MAX_SECTIONS)
    by (apply list_fmap_ext; intros _ k _; symmetry; apply field_drop).
  destruct h0 as [m ? ? ? ? ? ? offs szs ? ?]. cbn in Hm, Ho, Hs.
  destruct m as [|m0 [|m1 [|m2 [|m3 [|]]]]]; simpl in Hm; try lia.
  reflexivity.
Qed.

Lemma parse_eif_section_header_layout
    (buf : list byte) (buf_len : Z) (h0 : EifSectionHeader) :
  EIF_SECTION_HEADER_SIZE <= buf_len ->
  (12 <= length buf)%nat ->
  parse_eif_section_header buf buf_len h0 = Ok (layout_section_header buf).
Proof.
  intros Hlen Hbuf. unfold parse_eif_section_header.
  replace (EIF_SECTION_HEADER_SIZE <=? buf_len) with true by (symmetry; lia).
  cbn [Res.assert Res.bind].
  rewrite <- (drop_0 buf) at 1.
  rewrite !drop_drop. cbn [Nat.add].
  rewrite !U16_field, !U64_field by lia. cbn [Res.bind].
  rewrite !uint16_field, !uint64_field.
  reflexivity.
Qed.

Lemma byte_of_Z_mod (z : Z) : byte_of_Z (z mod 256) = byte_of_Z z.
Proof. unfold byte_of_Z. rewrite Z.mod_mod by lia. reflexivity. Qed.

Lemma byte_of_Z_add_mul (z x : Z) : byte_of_Z (z + x * 256) = byte_of_Z z.
Proof.
  rewrite <- (byte_of_Z_mod (z + x * 256)), Z.mod_add by lia.
  apply byte_of_Z_mod.
Qed.

Lemma be_bytes_add_mul (n : nat) (v x : Z) :
  be_bytes n (v + x * 256 ^ Z.of_nat n) = be_bytes n v.
Proof.
  revert x. induction n as [|n IH]; intros x; [reflexivity|].
  cbn [be_bytes]. f_equal.
  - rewrite Nat2Z.inj_succ, Z.pow_succ_r by lia.
    replace (x * (256 * 256 ^ Z.of_nat n))
      with ((x * 256) * 256 ^ Z.of_nat n) by lia.
    rewrite Z.div_add by lia. apply byte_of_Z_add_mul.
  - rewrite Nat2Z.inj_succ, Z.pow_succ_r by lia.
    replace (x * (256 * 256 ^ Z.of_nat n))
      with ((x * 256) * 256 ^ Z.of_nat n) by lia.
    apply IH.
Qed.

Lemma be_bytes_be_value (bs : list byte) :
  be_bytes (length bs) (be_value bs) = bs.
Proof.
  induction bs as [|b bs IH]; [reflexivity|].
  cbn [length be_bytes]. rewrite be_value_cons.
  pose proof (be_value_range bs) as Hr.
  f_equal.
  - rewrite Z.add_comm, Z.div_add by lia.
    rewrite Z.div_small by lia. apply byte_of_Z_u8.
  - rewrite Z.add_comm, be_bytes_add_mul. exact IH.
Qed.

Lemma be_bytes_field (buf : list byte) (off n : nat) :
  (off + n <= length buf)%nat ->
  be_bytes n (field buf off n) = take n (drop off buf).
Proof.
  intros H. unfold field.
  rewrite <- (be_bytes_be_value (take n (drop off buf))) at 2.
  rewrite length_take, length_drop. f_equal. lia.
Qed.

Lemma concat_fields (buf : list byte) (off n : nat) :
  (off + 8 * n <= length buf)%nat ->
  concat (be_bytes 8 <$> ((fun i => field buf (off + 8 * i) 8) <$> seq 0 n))
  = take (8 * n) (drop off buf).
Proof.
  induction n as [|n IH]; intros H.
  - reflexivity.
  - rewrite seq_S, !fmap_app, concat_app, IH by lia.
    cbn [fmap list_fmap concat Nat.add]. rewrite app_nil_r.
    rewrite be_bytes_field by lia.
    rewrite <- (drop_drop buf (8 * n) off), take_take_drop.
    f_equal. lia.
Qed.

Lemma encode_layout_header (buf : list byte) :
  (548 <= length buf)%nat ->
  encode_header (layout_header buf) = take 548 buf.
Proof.
  intros H. unfold encode_header, layout_header.
  cbn [magic version flags default_memory default_cpus reserved section_cnt
       section_offsets section_sizes unused eif_crc32].
  rewrite <- list_fmap_compose.
  rewrite (list_fmap_ext (byte_of_Z ∘ u8) id (take 4 buf))
    by (intros; apply byte_of_Z_u8).
  rewrite list_fmap_id.
  rewrite !be_bytes_field by lia.
  rewrite (concat_fields buf 28 MAX_SECTIONS) by (cbn; lia).
  rewrite (concat_fields buf 284 MAX_SECTIONS) by (cbn; lia).
  change (8 * MAX_SECTIONS)%nat with 256%nat.
  do 9 (rewrite app_assoc, take_take_drop; cbn [Nat.add]).
  rewrite take_take_drop. reflexivity.
Qed.

Lemma field_take (buf : list byte) (m off n : nat) :
  (off + n <= m)%nat -> field (take m buf) off n = field buf off n.
Proof.
  intros H. unfold field.
  rewrite !take_drop_commute, take_take. do 3 f_equal. lia.
Qed.

Lemma layout_header_take (buf : list byte) :
  layout_header (take 548 buf) = layout_header buf.
Proof.
  unfold layout_header. rewrite take_take.
  rewrite !field_take by lia.
  f_equal; apply list_fmap_ext; intros i k Hk;
    apply lookup_seq in Hk as [-> Hi]; unfold MAX_SECTIONS in Hi;
    apply field_take; lia.
Qed.

(** ** The header decoder *)

(** C3. [parse_eif_header] takes every field of [EifHeader] from its fixed
    offset of the layout table (magic 0, version 4, flags 6, default_memory 8,
    default_cpus 16, reserved 24, section_cnt 26, the 32 offsets from 28, the
    32 sizes from 284, unused 540, eif_crc32 544), each multi-byte integer as
    the big-endian value of its bytes; [parse_eif_section_header] takes the
    type from bytes 0-1, the flags from bytes 2-3 and the size from bytes
    4-11 of its 12 bytes, big-endian as well. *)
Theorem decoders_follow_layout
    (buf : list byte) (h0 : EifHeader)
    (sbuf : list byte) (sh0 : EifSectionHeader) :
  (548 <= length buf)%nat ->
  header_shape h0 ->
  length sbuf = 12%nat ->
  parse_eif_header buf (Z.of_nat (length buf)) h0
  = Ok {| magic := u8 <$> take 4 buf;
          version := field buf 4 2;
          flags := field buf 6 2;
          default_memory := field buf 8 8;
          default_cpus := field buf 16 8;
          reserved := field buf 24 2;
          section_cnt := field buf 26 2;
          section_offsets :=
            (fun i => field buf (28 + 8 * i) 8) <$> seq 0 32;
          section_sizes :=
            (fun i => field buf (284 + 8 * i) 8) <$> seq 0 32;
          unused := field buf 540 4;
          eif_crc32 := field buf 544 4 |}
  /\ parse_eif_section_header sbuf (Z.of_nat (length sbuf)) sh0
     = Ok {| section_type := field sbuf 0 2;
             sh_flags := field sbuf 2 2;
             section_size := field sbuf 4 8 |}.
Proof.
  intros Hbuf Hshape Hsbuf. split.
  - apply parse_eif_header_layout; [unfold EIF_HEADER_SIZE; lia | lia | done].
  - apply parse_eif_section_header_layout;
      [unfold EIF_SECTION_HEADER_SIZE; lia | lia].
Qed.

Lemma decoders_follow_layout_witness :
  parse_eif_header sample_buf (Z.of_nat (length sample_buf))
    (uninit_header xaa)
  = Ok {| magic := u8 <$> take 4 sample_buf;
          version := field sample_buf 4 2;
          flags := field sample_buf 6 2;
          default_memory := field sample_buf 8 8;
          default_cpus := field sample_buf 16 8;
          reserved := field sample_buf 24 2;
          section_cnt := field sample_buf 26 2;
          section_offsets :=
            (fun i => field sample_buf (28 + 8 * i) 8) <$> seq 0 32;
          section_sizes :=
            (fun i => field sample_buf (284 + 8 * i) 8) <$> seq 0 32;
          unused := field sample_buf 540 4;
          eif_crc32 := field sample_buf 544 4 |}
  /\ parse_eif_section_header (section_bytes 5 2 [])
       (Z.of_nat (length (section_bytes 5 2 [])))
       (uninit_section_header xaa)
     = Ok {| section_type := field (section_bytes 5 2 []) 0 2;
             sh_flags := field (section_bytes 5 2 []) 2 2;
             section_size := field (section_bytes 5 2 []) 4 8 |}.
Proof.
  apply decoders_follow_layout.
  - vm_compute. lia.
  - repeat split.
  - reflexivity.
Defined.

(** C2. Decoding a buffer of exactly 548 bytes and writing every decoded
    field back at its place, big-endian, gives the 548 bytes again. *)
Theorem header_round_trip (buf : list byte) (h0 : EifHeader) :
  length buf = 548%nat ->
  header_shape h0 ->
  exists h,
    parse_eif_header buf (Z.of_nat (length buf)) h0 = Ok h
    /\ encode_header h = buf.
Proof.
  intros Hbuf Hshape. exists (layout_header buf). split.
  - apply parse_eif_header_layout; [unfold EIF_HEADER_SIZE; lia | lia | done].
  - rewrite encode_layout_header by lia. apply take_ge. lia.
Qed.

Lemma header_round_trip_witness :
  exists h,
    parse_eif_header garbage_buf (Z.of_nat (length garbage_buf))
      (uninit_header x00) = Ok h
    /\ encode_header h = garbage_buf.
Proof.
  apply header_round_trip.
  - reflexivity.
  - repeat split.
Defined.

(** C7. On fewer than 548 bytes [parse_eif_header] stops at its assertion
    (TruncatedInput) and has read nothing, so nothing outside the buffer; on
    548 bytes or more it succeeds with the recorded values, whatever the
    magic and the section count are: neither is checked. On no input does it
    read outside the buffer. *)
Theorem header_truncated_or_raw (buf : list byte) (h0 : EifHeader) :
  header_shape h0 ->
  ((length buf < 548)%nat ->
     parse_eif_header buf (Z.of_nat (length buf)) h0 = Exit TruncatedInput)
  /\ ((548 <= length buf)%nat ->
     exists h,
       parse_eif_header buf (Z.of_nat (length buf)) h0 = Ok h
       /\ h = layout_header buf
       /\ magic h = u8 <$> take 4 buf
       /\ section_cnt h = field buf 26 2)
  /\ parse_eif_header buf (Z.of_nat (length buf)) h0 <> Exit OutOfBounds.
Proof.
  intros Hshape.
  assert (Hshort : (length buf < 548)%nat ->
            parse_eif_header buf (Z.of_nat (length buf)) h0
            = Exit TruncatedInput).
  { intros Hlen. unfold parse_eif_header.
    replace (EIF_HEADER_SIZE <=? Z.of_nat (length buf)) with false
      by (symmetry; unfold EIF_HEADER_SIZE; lia).
    reflexivity. }
  assert (Hlong : (548 <= length buf)%nat ->
            parse_eif_header buf (Z.of_nat (length buf)) h0
            = Ok (layout_header buf)).
  { intros Hlen.
    apply parse_eif_header_layout; [unfold EIF_HEADER_SIZE; lia | lia | done]. }
  split; [exact Hshort|]. split.
  - intros Hlen. exists (layout_header buf). split; [by apply Hlong|done].
  - destruct (Nat.lt_ge_cases (length buf) 548) as [Hlen|Hlen].
    + rewrite Hshort by exact Hlen. discriminate.
    + rewrite Hlong by exact Hlen. discriminate.
Qed.

Lemma header_truncated_or_raw_witness :
  (parse_eif_header (take 547 garbage_buf)
     (Z.of_nat (length (take 547 garbage_buf))) (uninit_header x00)
   = Exit TruncatedInput)
  /\ exists h,
       parse_eif_header garbage_buf (Z.of_nat (length garbage_buf))
         (uninit_header x00) = Ok h
       /\ magic h = [255; 255; 255; 255]
       /\ section_cnt h = 65535.
Proof.
  split.
  - apply (header_truncated_or_raw (take 547 garbage_buf) (uninit_header x00));
      [repeat split | vm_compute; lia].
  - destruct (header_truncated_or_raw garbage_buf (uninit_header x00))
      as (_ & H & _); [repeat split|].
    destruct H as (h & Hparse & _ & Hmagic & Hcnt); [vm_compute; lia|].
    exists h. split; [exact Hparse|]. split.
    + rewrite Hmagic. reflexivity.
    + rewrite Hcnt. reflexivity.
Defined.

(** C9. The decoded header is a function of the first 548 bytes alone: two
    buffers that agree there decode to the same record, whatever follows and
    whatever the two output structs held before, so every field of the result
    was assigned from the input. *)
Theorem header_depends_on_prefix
    (buf buf' : list byte) (h0 h0' : EifHeader) :
  (548 <= length buf)%nat ->
  (548 <= length buf')%nat ->
  take 548 buf = take 548 buf' ->
  header_shape h0 ->
  header_shape h0' ->
  exists h,
    parse_eif_header buf (Z.of_nat (length buf)) h0 = Ok h
    /\ parse_eif_header buf' (Z.of_nat (length buf')) h0' = Ok h.
Proof.
  intros Hbuf Hbuf' Heq Hshape Hshape'.
  exists (layout_header buf). split.
  - apply parse_eif_header_layout; [unfold EIF_HEADER_SIZE; lia | lia | done].
  - rewrite <- layout_header_take, Heq, layout_header_take.
    apply parse_eif_header_layout; [unfold EIF_HEADER_SIZE; lia | lia | done].
Qed.

Lemma header_depends_on_prefix_witness :
  exists h,
    parse_eif_header (sample_buf ++ [x01; x02])
      (Z.of_nat (length (sample_buf ++ [x01; x02]))) (uninit_header x00)
    = Ok h
    /\ parse_eif_header (sample_buf ++ [xff])
         (Z.of_nat (length (sample_buf ++ [xff]))) (uninit_header x5a)
       = Ok h.
Proof.
  apply header_depends_on_prefix.
  - vm_compute. lia.
  - vm_compute. lia.
  - reflexivity.
  - repeat split.
  - repeat split.
Defined.

(** ** System calls *)

Lemma uint64_t_range (z : Z) : 0 <= uint64_t z < 2^64.
Proof. unfold uint64_t. apply Z.mod_pos_bound. lia. Qed.

Lemma int64_t_small (z : Z) : 0 <= z < 2^63 -> int64_t z = z.
Proof.
  intros H. unfold int64_t. rewrite Z.mod_small by lia.
  destruct (Z.ltb_spec z (2^63)); lia.
Qed.

Lemma int64_t_nonneg (z : Z) :
  0 <= z < 2^64 -> 0 <= int64_t z -> z < 2^63 /\ int64_t z = z.
Proof.
  intros Hz. unfold int64_t. rewrite Z.mod_small by lia.
  destruct (Z.ltb_spec z (2^63)); lia.
Qed.

Lemma length_read_data (count : Z) (w : world) :
  (length (read_data count w) <= Z.to_nat count)%nat
  /\ (length (read_data count w) <= Z.to_nat (max_rw_count w))%nat
  /\ (length (read_data count w)
      <= length (file_data w) - Z.to_nat (file_pos w))%nat.
Proof.
  unfold read_data. rewrite length_take, length_drop. lia.
Qed.

(** A read that returns all it was asked for returned the bytes at the file
    offset. *)
Lemma read_data_full (count : Z) (w : world) :
  0 < count ->
  Z.of_nat (length (read_data count w)) = count ->
  read_data count w = payload_at (file_data w) (file_pos w) count
  /\ count <= max_rw_count w
  /\ (Z.to_nat (file_pos w) + Z.to_nat count <= length (file_data w))%nat.
Proof.
  intros Hc Hlen. pose proof (length_read_data count w) as (H1 & H2 & H3).
  split; [|lia].
  unfold read_data, payload_at. f_equal. lia.
Qed.

Lemma snoc_terminator (l : list byte) (n : nat) :
  length l = S n -> <[n := x00]> l = take n l ++ [x00].
Proof.
  intros Hlen.
  destruct (lookup_lt_is_Some_2 l n) as [b Hb]; [lia|].
  rewrite <- (take_drop_middle l n b Hb) at 1.
  rewrite (drop_ge l (S n)) by lia.
  rewrite insert_app_r_alt by (rewrite length_take; lia).
  rewrite length_take. replace (n - n `min` length l)%nat with 0%nat by lia.
  reflexivity.
Qed.

(** ** The metadata block *)

Lemma capture_metadata_Ok (sh : EifSectionHeader) (w : world)
    (m : list byte) (w' : world) :
  0 <= section_size sh < 2^64 ->
  capture_metadata sh w = (Ok m, w') ->
  let size := section_size sh in
  m = payload_at (file_data w) (file_pos w) size ++ [x00]
  /\ Z.of_nat (length (payload_at (file_data w) (file_pos w) size)) = size
  /\ (Z.to_nat (file_pos w) + Z.to_nat (size + 1)
      <= length (file_data w))%nat
  /\ size + 1 <= heap_free w
  /\ size + 1 <= max_rw_count w
  /\ size + 1 < 2^63
  /\ w' = log_syscall (SysRead (size + 1) (size + 1))
            (set_file_pos (file_pos w + (size + 1)) w).
Proof.
  intros Hrange. unfold capture_metadata, IO.bind, malloc.
  pose proof (uint64_t_range (section_size sh + 1)) as Hsz.
  set (size := uint64_t (section_size sh + 1)) in *.
  destruct (Z.leb_spec size (heap_free w)) as [Hheap|]; [|discriminate].
  unfold read. cbn [fst snd].
  set (data := read_data size w).
  destruct (Z.eqb_spec (Z.of_nat (length data)) (int64_t size)) as [Hgot|];
    [|discriminate].
  cbn [negb]. unfold IO.lift, store.
  destruct (int64_t_nonneg size Hsz) as [Hlt Hint]; [lia|].
  rewrite Hint in Hgot.
  rewrite length_app, length_drop, length_replicate.
  replace (Z.of_nat (length data + (Z.to_nat size - length data))) with size
    by lia.
  destruct (Z.ltb_spec (uint64_t (size - 1)) size) as [Hidx|];
    [|rewrite andb_false_r; discriminate].
  destruct (Z.leb_spec 0 (uint64_t (size - 1))); [|discriminate].
  cbn [andb]. intros Heq. injection Heq as <- <-.
  assert (Hpos : 1 <= size).
  { destruct (Z.eq_dec size 0) as [E|]; [|lia].
    rewrite E in Hidx. vm_compute in Hidx. discriminate. }
  assert (Hsize : size = section_size sh + 1).
  { subst size. unfold uint64_t in *.
    destruct (Z.eq_dec (section_size sh) (2^64 - 1)) as [E|].
    - rewrite E in Hpos. vm_compute in Hpos. contradiction Hpos. reflexivity.
    - apply Z.mod_small. lia. }
  replace (uint64_t (size - 1)) with (size - 1)
    by (unfold uint64_t; rewrite Z.mod_small; lia).
  destruct (read_data_full size w) as (Hdata & Hrw & Havail); [lia|exact Hgot|].
  fold data in Hdata.
  rewrite drop_ge by (rewrite length_replicate; lia).
  rewrite app_nil_r.
  rewrite (snoc_terminator data (Z.to_nat (size - 1))) by lia.
  rewrite Hgot, <- Hsize.
  assert (Htake : take (Z.to_nat (size - 1)) data
                  = payload_at (file_data w) (file_pos w) (size - 1)).
  { rewrite Hdata. unfold payload_at. rewrite take_take. f_equal. lia. }
  replace (section_size sh) with (size - 1) by lia.
  cbv zeta. rewrite <- Htake.
  repeat split; try lia; try reflexivity.
  rewrite length_take. lia.
Qed.

Lemma field_app_l (l k : list byte) (off n : nat) :
  (off + n <= length l)%nat -> field (l ++ k) off n = field l off n.
Proof.
  intros H. unfold field.
  rewrite drop_app_le by lia. rewrite take_app_le by (rewrite length_drop; lia).
  reflexivity.
Qed.

Lemma layout_section_header_app (l k : list byte) :
  length l = 12%nat ->
  layout_section_header (l ++ k) = layout_section_header l.
Proof.
  intros H. unfold layout_section_header.
  rewrite !field_app_l by lia. reflexivity.
Qed.

Lemma section_size_range (buf : list byte) :
  0 <= section_size (layout_section_header buf) < 2^64.
Proof.
  cbn. unfold field.
  pose proof (be_value_range (take 8 (drop 4 buf))) as Hr.
  assert (256 ^ Z.of_nat (length (take 8 (drop 4 buf))) <= 256 ^ 8)
    by (apply Z.pow_le_mono_r; rewrite ?length_take; lia).
  lia.
Qed.

(** What a seek that passes the check of the loop has done: it has moved
    the file offset to the requested place, or it was refused on the one
    request that reads back as its own failure value. *)
Lemma seek_check (o : Z) (w : world) (ret : Z) (w1 : world) :
  lseek (int64_t o) w = (Ok ret, w1) ->
  uint64_t ret = o ->
  (0 <= o <= s_maxbytes w /\ o < 2^63 /\ ret = o
   /\ w1 = log_syscall (SysLseek o o) (set_file_pos o w))
  \/ (o = UINT64_MAX /\ ret = -1
      /\ w1 = log_syscall (SysLseek (-1) (-1)) w).
Proof.
  unfold lseek.
  destruct ((0 <=? int64_t o) && (int64_t o <=? s_maxbytes w)) eqn:E;
    intros Heq Hret; injection Heq as <- <-.
  - left. apply andb_true_iff in E as [E1 E2].
    apply Z.leb_le in E1. apply Z.leb_le in E2.
    assert (Ho : int64_t o = o).
    { revert E1 Hret. unfold int64_t, uint64_t.
      pose proof (Z.mod_pos_bound o (2^64)) as Hm.
      destruct (Z.ltb_spec (o mod 2^64) (2^63)); intros.
      - rewrite Z.mod_mod in Hret by lia. lia.
      - lia. }
    rewrite Ho in *.
    assert (o < 2^63).
    { revert Ho. unfold int64_t.
      pose proof (Z.mod_pos_bound o (2^64)) as Hm.
      destruct (Z.ltb_spec (o mod 2^64) (2^63)); lia. }
    repeat split; lia || reflexivity.
  - right. assert (Ho : o = UINT64_MAX) by (rewrite <- Hret; reflexivity).
    split; [exact Ho|]. split; [reflexivity|].
    rewrite Ho. reflexivity.
Qed.

Lemma section_iter_Ok (h : EifHeader) (i : nat) (buf : list byte)
    (md : option (list byte)) (w : world)
    (buf' : list byte) (md' : option (list byte)) (w' : world) :
  section_iter h i (buf, md) w = (Ok (buf', md'), w') ->
  exists o d,
    section_offsets h !! i = Some o /\ section_sizes h !! i = Some d /\
    let w1 := after_seek o w in
    let hdr := payload_at (file_data w) (file_pos w1) 12 in
    let sh := layout_section_header hdr in
    ((0 <= o <= s_maxbytes w /\ o < 2^63
      /\ w1 = log_syscall (SysLseek o o) (set_file_pos o w))
     \/ (o = UINT64_MAX /\ w1 = log_syscall (SysLseek (-1) (-1)) w))
    /\ length hdr = 12%nat
    /\ buf' = hdr ++ drop 12 buf
    /\ stdout w' = stdout w ++ [descriptor sh]
    /\ stderr w'
       = stderr w ++ (if d =? section_size sh then []
                      else [Warning d (section_size sh)])
    /\ file_data w' = file_data w
    /\ s_maxbytes w' = s_maxbytes w
    /\ max_rw_count w' = max_rw_count w
    /\ heap_free w' = heap_free w
    /\ junk w' = junk w
    /\ ((md = None /\ section_type sh = 5
         /\ md' = Some (payload_at (file_data w) (file_pos w1 + 12)
                          (section_size sh) ++ [x00])
         /\ Z.of_nat (length (payload_at (file_data w) (file_pos w1 + 12)
                                (section_size sh))) = section_size sh
         /\ syscalls w'
            = syscalls w1 ++ [SysRead 12 12;
                              SysRead (section_size sh + 1)
                                      (section_size sh + 1)]
         /\ file_pos w' = file_pos w1 + 12 + (section_size sh + 1))
        \/ (~ (md = None /\ section_type sh = 5)
            /\ md' = md
            /\ syscalls w' = syscalls w1 ++ [SysRead 12 12]
            /\ file_pos w' = file_pos w1 + 12)).
Proof.
  unfold section_iter, IO.bind, IO.get_junk, IO.lift, arr. cbn [fst snd].
  change EIF_SECTION_HEADER_SIZE with 12.
  destruct (section_offsets h !! i) as [o|] eqn:Eo; [|discriminate].
  destruct (lseek (int64_t o) w) as [[ret|f] w1] eqn:Eseek;
    [|unfold lseek in Eseek; destruct (_ && _) in Eseek; discriminate].
  destruct (Z.eqb_spec (uint64_t ret) o) as [Hret|]; [|discriminate].
  cbn [negb]. unfold read at 1. cbn [fst snd].
  set (data := read_data 12 w1).
  destruct (Z.eqb_spec (Z.of_nat (length data)) 12) as [Hgot|];
    [|discriminate].
  cbn [negb].
  destruct (read_data_full 12 w1) as (Hdata & Hrw & Hav);
    [lia | exact Hgot |].
  fold data in Hdata.
  assert (Hlen : length data = 12%nat) by lia.
  rewrite parse_eif_section_header_layout;
    [|unfold EIF_SECTION_HEADER_SIZE; lia | rewrite length_app; lia].
  rewrite layout_section_header_app by exact Hlen.
  unfold print_eif_section_header.
  destruct (section_sizes h !! i) as [d|] eqn:Ed; [|discriminate].
  assert (Hw1 : w1 = after_seek o w) by (unfold after_seek; rewrite Eseek; done).
  assert (Hfile : file_data w1 = file_data w).
  { destruct (seek_check o w ret w1 Eseek Hret) as [(_ & _ & _ & ->)|(_ & _ & ->)];
      reflexivity. }
  intros Hrun. exists o, d. split; [reflexivity|]. split; [reflexivity|].
  cbv zeta. rewrite <- Hw1, <- Hfile, <- Hdata.
  split.
  { destruct (seek_check o w ret w1 Eseek Hret) as [(? & ? & ? & ?)|(? & ? & ?)];
      [left|right]; repeat split; first [assumption | lia]. }
  split; [exact Hlen|].
  set (sh := layout_section_header data) in *.
  set (w2 := log_syscall (SysRead 12 (Z.of_nat (length data)))
               (set_file_pos (file_pos w1 + Z.of_nat (length data)) w1)) in *.
  set (w3 := put_stdout (OutSection (section_type_string (section_type sh))
                           (sh_flags sh) (section_size sh)) w2) in *.
  set (w4 := if negb (d =? section_size sh)
             then put_stderr (Warning d (section_size sh)) w3 else w3).
  assert (Hw4 : (if negb (d =? section_size sh)
                 then warn (Warning d (section_size sh))
                 else IO.ret tt) w3 = (Ok tt, w4)).
  { subst w4. destruct (d =? section_size sh); reflexivity. }
  rewrite Hw4 in Hrun.
  assert (Hstatic : file_data w4 = file_data w1 /\ s_maxbytes w4 = s_maxbytes w1
          /\ max_rw_count w4 = max_rw_count w1 /\ heap_free w4 = heap_free w1
          /\ junk w4 = junk w1 /\ syscalls w4 = syscalls w1 ++ [SysRead 12 12]
          /\ file_pos w4 = file_pos w1 + 12
          /\ stdout w4 = stdout w1 ++ [descriptor sh]
          /\ stderr w4 = stderr w1 ++ (if d =? section_size sh then []
                                       else [Warning d (section_size sh)])).
  { subst w4 w3 w2. rewrite Hgot.
    destruct (d =? section_size sh); cbn; rewrite ?app_nil_r; done. }
  destruct Hstatic as (Hs1 & Hs2 & Hs3 & Hs4 & Hs5 & Hs6 & Hs7 & Hs8 & Hs9).
  assert (Hseek : s_maxbytes w1 = s_maxbytes w /\ max_rw_count w1 = max_rw_count w
          /\ heap_free w1 = heap_free w /\ junk w1 = junk w
          /\ stdout w1 = stdout w /\ stderr w1 = stderr w).
  { destruct (seek_check o w ret w1 Eseek Hret) as [(_ & _ & _ & ->)|(_ & _ & ->)];
      done. }
  destruct Hseek as (Hk1 & Hk2 & Hk3 & Hk4 & Hk5 & Hk6).
  destruct (bool_decide (md = None) && (section_type sh =? 5)) eqn:Ecap.
  - apply andb_true_iff in Ecap as [Emd Ety].
    apply bool_decide_eq_true in Emd. apply Z.eqb_eq in Ety.
    destruct (capture_metadata sh w4) as [[m|f] w5] eqn:Ecapt;
      [|discriminate].
    unfold IO.ret in Hrun. rewrite Hlen in Hrun. injection Hrun as <- <- <-.
    destruct (capture_metadata_Ok sh w4 m w5 (section_size_range data) Ecapt)
      as (Hm & Hplen & _ & _ & _ & _ & Hw5).
    rewrite Hs1, Hs7 in Hm, Hplen.
    split; [reflexivity|].
    rewrite Hw5. cbn [stdout stderr file_data s_maxbytes max_rw_count
                      heap_free junk syscalls file_pos log_syscall
                      set_file_pos].
    rewrite Hs1, Hs2, Hs3, Hs4, Hs5, Hs6, Hs7, Hs8, Hs9,
      Hk1, Hk2, Hk3, Hk4, Hk5, Hk6.
    repeat (split; [reflexivity|]).
    left. rewrite Hm, <- app_assoc.
    repeat split; done.
  - unfold IO.ret in Hrun. rewrite Hlen in Hrun. injection Hrun as <- <- <-.
    split; [reflexivity|].
    rewrite Hs1, Hs2, Hs3, Hs4, Hs5, Hs6, Hs7, Hs8, Hs9,
      Hk1, Hk2, Hk3, Hk4, Hk5, Hk6.
    repeat (split; [reflexivity|]).
    right. split; [|done].
    intros [Hmd Hty]. rewrite Hmd, Hty in Ecap. discriminate.
Qed.

(** ** The loop *)

Lemma reads_app (cs cs' : list syscall) : reads (cs ++ cs') = reads cs ++ reads cs'.
Proof.
  induction cs as [|[]]; cbn; [reflexivity|exact IHcs|by rewrite IHcs].
Qed.

Lemma section_type_string_metadata (type : Z) :
  section_type_string type = "metadata" <-> type = 5.
Proof.
  unfold section_type_string.
  repeat match goal with
         | |- context [ ?a =? ?b ] => destruct (Z.eqb_spec a b)
         end; split; intros H; try discriminate; try lia; reflexivity.
Qed.

Lemma after_seek_syscalls (o : Z) (w : world) :
  exists ret, syscalls (after_seek o w)
              = syscalls w ++ [SysLseek (int64_t o) ret].
Proof.
  unfold after_seek, lseek. destruct (_ && _); cbn; eauto.
Qed.

Lemma walk_loop_Ok (h : EifHeader) (n i : nat) (buf : list byte)
    (md : option (list byte)) (w : world)
    (buf' : list byte) (md' : option (list byte)) (w' : world) :
  walk_loop h n i (buf, md) w = (Ok (buf', md'), w') ->
  exists ds cs,
    stdout w' = stdout w ++ ds
    /\ syscalls w' = syscalls w ++ cs
    /\ length ds = n
    /\ Forall (fun d => is_descriptor d = true) ds
    /\ file_data w' = file_data w
    /\ match md with
       | Some m => md' = Some m /\ reads cs = replicate n 12
       | None =>
           match first_metadata ds with
           | None => md' = None /\ reads cs = replicate n 12
           | Some (k, size) =>
               exists o pos,
                 section_offsets h !! (i + k)%nat = Some o
                 /\ (o <> UINT64_MAX -> pos = o)
                 /\ md' = Some (payload_at (file_data w) (pos + 12) size
                                ++ [x00])
                 /\ Z.of_nat (length (payload_at (file_data w) (pos + 12)
                                        size)) = size
                 /\ reads cs = replicate (S k) 12 ++ [size + 1]
                               ++ replicate (n - S k) 12
           end
       end.
Proof.
  revert i buf md w. induction n as [|n IH]; intros i buf md w Hrun.
  - cbn in Hrun. injection Hrun as <- <- <-.
    exists [], []. rewrite !app_nil_r.
    repeat split; try done. destruct md; done.
  - cbn [walk_loop] in Hrun. unfold IO.bind in Hrun.
    destruct (section_iter h i (buf, md) w) as [[[buf1 md1]|f] w1] eqn:Eit;
      [|discriminate].
    apply section_iter_Ok in Eit
      as (o & d & Ho & Hd & Hseek & Hlen & Hbuf & Hout & Herr & Hfile
          & _ & _ & _ & _ & Hmd).
    cbv zeta in *.
    destruct (after_seek_syscalls o w) as [ret Hsys].
    set (ws := after_seek o w) in *.
    set (sh := layout_section_header (payload_at (file_data w) (file_pos ws) 12))
      in *.
    apply IH in Hrun as (ds & cs & Hout' & Hsys' & Hlds & Hdesc & Hfile' & Hrest).
    assert (Hpos : o <> UINT64_MAX -> file_pos ws = o).
    { destruct Hseek as [(_ & _ & ->)|[-> _]]; [done|congruence]. }
    destruct Hmd as [(-> & Hty & -> & Hplen & Hsys1 & _)
                    |(Hnot & -> & Hsys1 & _)].
    + exists (descriptor sh :: ds),
        ([SysLseek (int64_t o) ret; SysRead 12 12;
          SysRead (section_size sh + 1) (section_size sh + 1)] ++ cs).
      rewrite Hout', Hout, Hsys', Hsys1, Hsys, Hfile', Hfile, <- !app_assoc.
      repeat split; try done; [cbn; lia | by constructor |].
      cbn [first_metadata descriptor].
      rewrite bool_decide_true by (by apply section_type_string_metadata).
      exists o, (file_pos ws). rewrite Nat.add_0_r.
      destruct Hrest as [-> Hreads].
      repeat split; try done.
      rewrite reads_app, Hreads. cbn. by rewrite Nat.sub_0_r.
    + exists (descriptor sh :: ds),
        ([SysLseek (int64_t o) ret; SysRead 12 12] ++ cs).
      rewrite Hout', Hout, Hsys', Hsys1, Hsys, Hfile', Hfile, <- !app_assoc.
      repeat split; try done; [cbn; lia | by constructor |].
      destruct md as [m|].
      * destruct Hrest as [-> Hreads]. split; [done|].
        rewrite reads_app, Hreads. reflexivity.
      * cbn [first_metadata descriptor].
        rewrite bool_decide_false; cycle 1.
        { intros E. apply section_type_string_metadata in E. tauto. }
        destruct (first_metadata ds) as [[k size]|]; cbn [fmap option_fmap option_map fst snd].
        -- destruct Hrest as (o' & pos & Ho' & Hp & -> & Hplen & Hreads).
           exists o', pos. rewrite Hfile in *.
           replace (i + S k)%nat with (S i + k)%nat by lia.
           repeat split; try done.
           rewrite reads_app, Hreads. reflexivity.
        -- destruct Hrest as [-> Hreads]. split; [done|].
           rewrite reads_app, Hreads. reflexivity.
Qed.

(** ** The loop body, path by path *)

Lemma lseek_eq (o : Z) (w : world) :
  lseek (int64_t o) w = (Ok (seek_result o w), after_seek o w).
Proof.
  unfold after_seek, seek_result, lseek. destruct (_ && _); reflexivity.
Qed.

Lemma read_eq (buf : list byte) (count : Z) (w : world) :
  read buf count w
  = (Ok (Z.of_nat (length (read_data count w)),
         read_data count w ++ drop (length (read_data count w)) buf),
     after_read count w).
Proof. reflexivity. Qed.

Lemma section_iter_unfold (h : EifHeader) (i : nat) (buf : list byte)
    (md : option (list byte)) (w : world) :
  section_iter h i (buf, md) w =
  match section_offsets h !! i with
  | None => (Exit OutOfBounds, w)
  | Some o =>
      let w1 := after_seek o w in
      if negb (uint64_t (seek_result o w) =? o) then (Exit SeekFailed, w1)
      else
        let data := read_data 12 w1 in
        let w2 := after_read 12 w1 in
        if negb (Z.of_nat (length data) =? 12)
        then (Exit TruncatedSectionHeader, w2)
        else
          let sh := layout_section_header data in
          let w3 := put_stdout (descriptor sh) w2 in
          match section_sizes h !! i with
          | None => (Exit OutOfBounds, w3)
          | Some d =>
              let w4 := if negb (d =? section_size sh)
                        then put_stderr (Warning d (section_size sh)) w3
                        else w3 in
              if bool_decide (md = None) && (section_type sh =? 5)
              then
                match capture_metadata sh w4 with
                | (Ok m, w5) => (Ok (data ++ drop 12 buf, Some m), w5)
                | (Exit f, w5) => (Exit f, w5)
                end
              else (Ok (data ++ drop 12 buf, md), w4)
          end
  end.
Proof.
  unfold section_iter, IO.bind, IO.get_junk, IO.lift, arr. cbn [fst snd].
  change EIF_SECTION_HEADER_SIZE with 12.
  destruct (section_offsets h !! i) as [o|]; [|reflexivity].
  rewrite lseek_eq. cbv zeta.
  destruct (negb (uint64_t (seek_result o w) =? o)); [reflexivity|].
  rewrite read_eq. cbn [fst snd].
  destruct (Z.eqb_spec (Z.of_nat (length (read_data 12 (after_seek o w)))) 12)
    as [Hgot|]; [|reflexivity].
  cbn [negb].
  assert (Hlen : length (read_data 12 (after_seek o w)) = 12%nat) by lia.
  rewrite parse_eif_section_header_layout;
    [|unfold EIF_SECTION_HEADER_SIZE; lia | rewrite length_app; lia].
  rewrite layout_section_header_app by exact Hlen.
  unfold print_eif_section_header. fold (descriptor
    (layout_section_header (read_data 12 (after_seek o w)))).
  destruct (section_sizes h !! i) as [d|]; [|reflexivity].
  rewrite Hlen.
  destruct (negb (d =? _)); unfold warn, IO.ret;
    destruct (bool_decide (md = None) && _); reflexivity.
Qed.

(** ** The walk as a whole *)

Lemma walk_sections_unfold (h : EifHeader) (buf : list byte) (w : world) :
  walk_sections h buf w =
  if section_cnt h <=? 32 then
    match walk_loop h (Z.to_nat (section_cnt h)) 0 (buf, None)
            (put_stdout OutSectionsBegin w) with
    | (Ok st, wl) =>
        (Ok (snd st),
         match snd st with
         | Some m => put_stdout (OutMetadata (c_string m))
                       (put_stdout OutSectionsEnd wl)
         | None => put_stdout OutSectionsEnd wl
         end)
    | (Exit f, wl) => (Exit f, wl)
    end
  else (Exit TooManySections, w).
Proof.
  unfold walk_sections, IO.bind, IO.lift, Res.assert, puts, IO.ret.
  change (Z.of_nat MAX_SECTIONS) with 32.
  destruct (section_cnt h <=? 32); [|reflexivity].
  destruct (walk_loop _ _ _ _ _) as [[[b md]|f] wl]; [|reflexivity].
  cbn [snd]. destruct md; reflexivity.
Qed.

(** C6. With a section count above 32 the walk stops at its assertion
    (TooManySections) in the world it started in: no seek, no read, nothing
    printed. *)
Theorem too_many_sections (h : EifHeader) (buf : list byte) (w : world) :
  32 < section_cnt h ->
  walk_sections h buf w = (Exit TooManySections, w).
Proof.
  intros H. rewrite walk_sections_unfold.
  destruct (Z.leb_spec (section_cnt h) 32); [lia|reflexivity].
Qed.

Lemma too_many_sections_witness :
  walk_sections (sample_header 33 [] []) (replicate 548 x00)
    (sample_world two_metadata_file)
  = (Exit TooManySections, sample_world two_metadata_file).
Proof. apply too_many_sections. reflexivity. Defined.

(** C1. The metadata section of [metadata_last_file] has all of its
    [section_size] = 2 payload bytes in the file, which ends there; the walk
    asks [read] for 3 bytes, gets 2 and exits with TruncatedMetadata. *)
Theorem metadata_at_end_of_file_is_fatal :
  length metadata_last_file = (548 + 12 + 2)%nat
  /\ fst (parse_eif_file (sample_world metadata_last_file))
     = Exit TruncatedMetadata
  /\ syscalls (snd (parse_eif_file (sample_world metadata_last_file)))
     = [SysRead 548 548; SysLseek 548 548; SysRead 12 12; SysRead 3 2].
Proof. vm_compute. repeat split. Qed.

(** The same in general: the block asks for one byte more than the payload,
    and a file that holds the payload but not that byte fails it. *)
Lemma capture_needs_one_more_byte (sh : EifSectionHeader) (w : world) :
  0 <= section_size sh ->
  section_size sh + 1 < 2^63 ->
  section_size sh + 1 <= heap_free w ->
  (length (file_data w) - Z.to_nat (file_pos w)
   < Z.to_nat (section_size sh + 1))%nat ->
  fst (capture_metadata sh w) = Exit TruncatedMetadata.
Proof.
  intros H0 H63 Hheap Hshort.
  unfold capture_metadata, IO.bind, malloc.
  replace (uint64_t (section_size sh + 1)) with (section_size sh + 1)
    by (unfold uint64_t; rewrite Z.mod_small; lia).
  destruct (Z.leb_spec (section_size sh + 1) (heap_free w)); [|lia].
  rewrite read_eq. cbn [fst snd].
  rewrite int64_t_small by lia.
  pose proof (length_read_data (section_size sh + 1) w) as (_ & _ & Hlen).
  destruct (Z.eqb_spec
              (Z.of_nat (length (read_data (section_size sh + 1) w)))
              (section_size sh + 1)); [lia|].
  reflexivity.
Qed.



(** ** The size warning *)


Lemma warn_or_not (b : bool) (l : err_line) (w : world) :
  (if b then put_stderr l w else w)
  = set_stderr (stderr w ++ (if b then [l] else [])) w.
Proof.
  destruct w, b; cbn; rewrite ?app_nil_r; reflexivity.
Qed.



(** ** Fatal conditions *)

Lemma walk_loop_app (h : EifHeader) (k n i : nat) (st : locals) (w : world) :
  walk_loop h (k + n) i st w =
  match walk_loop h k i st w with
  | (Ok st', w') => walk_loop h n (i + k) st' w'
  | (Exit f, w') => (Exit f, w')
  end.
Proof.
  revert i st w. induction k as [|k IH]; intros i st w.
  - cbn. rewrite Nat.add_0_r. reflexivity.
  - cbn [Nat.add walk_loop]. unfold IO.bind.
    destruct (section_iter h i st w) as [[st1|f] w1]; [|reflexivity].
    rewrite IH. replace (S i + k)%nat with (i + S k)%nat by lia.
    reflexivity.
Qed.

Lemma capture_metadata_stdout (sh : EifSectionHeader) (w : world) :
  stdout (snd (capture_metadata sh w)) = stdout w.
Proof.
  unfold capture_metadata, IO.bind, malloc, IO.die, IO.lift.
  destruct (_ <=? heap_free w); [|reflexivity].
  rewrite read_eq. cbn [fst snd].
  destruct (negb _); [reflexivity|].
  destruct (store _ _ _); reflexivity.
Qed.

Lemma after_seek_stdout (o : Z) (w : world) :
  stdout (after_seek o w) = stdout w.
Proof. unfold after_seek, lseek. destruct (_ && _); reflexivity. Qed.

(** Whatever way an iteration ends, what was on [stdout] stays there. *)
Lemma section_iter_stdout (h : EifHeader) (i : nat) (st : locals) (w : world) :
  exists ds, stdout (snd (section_iter h i st w)) = stdout w ++ ds.
Proof.
  destruct st as [buf md]. rewrite section_iter_unfold.
  destruct (section_offsets h !! i) as [o|];
    [|exists []; by rewrite app_nil_r].
  cbv zeta.
  destruct (negb (uint64_t _ =? o));
    [exists []; cbn [snd]; by rewrite app_nil_r, after_seek_stdout|].
  destruct (negb (Z.of_nat _ =? 12));
    [exists []; cbn [snd after_read stdout log_syscall set_file_pos];
     by rewrite app_nil_r, after_seek_stdout|].
  set (sh := layout_section_header _).
  exists [descriptor sh].
  destruct (section_sizes h !! i) as [d|];
    [|cbn [snd after_read stdout log_syscall set_file_pos put_stdout];
      by rewrite after_seek_stdout].
  rewrite warn_or_not.
  destruct (bool_decide (md = None) && _).
  - pose proof (capture_metadata_stdout sh
      (set_stderr (stderr (put_stdout (descriptor sh)
                             (after_read 12 (after_seek o w)))
                   ++ (if negb (d =? section_size sh)
                       then [Warning d (section_size sh)] else []))
         (put_stdout (descriptor sh) (after_read 12 (after_seek o w)))))
      as Hc.
    destruct (capture_metadata sh _) as [[m|f] w5]; cbn [snd] in *;
      rewrite Hc; cbn; by rewrite after_seek_stdout.
  - cbn. by rewrite after_seek_stdout.
Qed.

(** C8, amended. Let the walk have come through [k] sections and be at
    section [k]. If the value [lseek] returns differs from the requested
    offset, the walk exits with SeekFailed right after the seek; if the seek
    passes and [read] returns other than 12 bytes, the walk exits with
    TruncatedSectionHeader right after that read; and whatever fatal condition
    ends iteration [k] ends the walk, in the world that iteration stopped in:
    no later section is visited and no metadata is presented. The [k]
    descriptors printed for the earlier sections are on [stdout] and stay
    there. *)
Theorem fatal_conditions_abort (h : EifHeader) (buf : list byte) (w : world)
    (k n : nat) (st_k : locals) (w_k : world) (o : Z) :
  section_cnt h <= 32 ->
  Z.to_nat (section_cnt h) = (k + S n)%nat ->
  walk_loop h k 0 (buf, None) (put_stdout OutSectionsBegin w)
  = (Ok st_k, w_k) ->
  section_offsets h !! k = Some o ->
  (uint64_t (seek_result o w_k) <> o ->
     walk_sections h buf w = (Exit SeekFailed, after_seek o w_k))
  /\ (uint64_t (seek_result o w_k) = o ->
      length (read_data 12 (after_seek o w_k)) <> 12%nat ->
      walk_sections h buf w
      = (Exit TruncatedSectionHeader, after_read 12 (after_seek o w_k)))
  /\ (forall f w_f,
        section_iter h k st_k w_k = (Exit f, w_f) ->
        walk_sections h buf w = (Exit f, w_f)
        /\ exists ds', stdout w_f = stdout w_k ++ ds')
  /\ exists ds,
       stdout w_k = stdout w ++ [OutSectionsBegin] ++ ds
       /\ length ds = k
       /\ Forall (fun d => is_descriptor d = true) ds.
Proof.
  intros Hcnt Hn Hloop Ho.
  assert (Habort : forall f w_f,
             section_iter h k st_k w_k = (Exit f, w_f) ->
             walk_sections h buf w = (Exit f, w_f)).
  { intros f w_f Hit. rewrite walk_sections_unfold.
    destruct (Z.leb_spec (section_cnt h) 32); [|lia].
    rewrite Hn, walk_loop_app, Hloop. cbn [walk_loop Nat.add].
    unfold IO.bind. rewrite Hit. reflexivity. }
  destruct st_k as [buf_k md_k].
  split; [|split; [|split]].
  - intros Hne. apply Habort. rewrite section_iter_unfold, Ho. cbv zeta.
    destruct (Z.eqb_spec (uint64_t (seek_result o w_k)) o); [contradiction|].
    reflexivity.
  - intros Heq Hshort. apply Habort.
    rewrite section_iter_unfold, Ho. cbv zeta.
    destruct (Z.eqb_spec (uint64_t (seek_result o w_k)) o); [|contradiction].
    cbn [negb].
    destruct (Z.eqb_spec
                (Z.of_nat (length (read_data 12 (after_seek o w_k)))) 12);
      [lia|]. reflexivity.
  - intros f w_f Hit. split; [by apply Habort|].
    destruct (section_iter_stdout h k (buf_k, md_k) w_k) as [ds' Hds'].
    rewrite Hit in Hds'. exists ds'. exact Hds'.
  - apply walk_loop_Ok in Hloop
      as (ds & cs & Hout & _ & Hlen & Hdesc & _).
    exists ds. cbn [stdout put_stdout] in Hout.
    rewrite Hout, <- app_assoc. done.
Qed.

Lemma fatal_conditions_abort_witness :
  let h := sample_header 2 [548; 5000] [0; 0] in
  let buf := header_buf truncated_file in
  let w := sample_world truncated_file in
  let run_k := walk_loop h 1 0 (buf, None) (put_stdout OutSectionsBegin w) in
  walk_sections h buf w
  = (Exit TruncatedSectionHeader, after_read 12 (after_seek 5000 (snd run_k)))
  /\ stdout (snd run_k) = [OutSectionsBegin; OutSection "kernel" 0 0].
Proof.
  cbv zeta.
  destruct (fatal_conditions_abort (sample_header 2 [548; 5000] [0; 0])
              (header_buf truncated_file) (sample_world truncated_file)
              1 0
              (take 12 (drop 548 truncated_file)
               ++ drop 12 (header_buf truncated_file), None)
              (snd (walk_loop (sample_header 2 [548; 5000] [0; 0]) 1 0
                      (header_buf truncated_file, None)
                      (put_stdout OutSectionsBegin
                         (sample_world truncated_file))))
              5000)
    as (_ & Hshort & _ & _).
  - vm_compute. discriminate.
  - reflexivity.
  - vm_compute. reflexivity.
  - reflexivity.
  - split.
    + apply Hshort; vm_compute; [reflexivity | discriminate].
    + vm_compute. reflexivity.
Defined.

(** C8 as stated does not hold: a fatal condition does not take back the
    descriptors of the sections before it. In [truncated_file] the second
    section cannot be read; the descriptor of the first is on [stdout] when
    the walk exits. *)
Lemma descriptors_survive_fatal_exit :
  ~ (forall h buf w f w',
       walk_sections h buf w = (Exit f, w') ->
       Forall (fun l => is_descriptor l = false) (stdout w')).
Proof.
  intros H.
  specialize (H (sample_header 2 [548; 5000] [0; 0])
                (header_buf truncated_file) (sample_world truncated_file)
                TruncatedSectionHeader
                (snd (walk_sections (sample_header 2 [548; 5000] [0; 0])
                        (header_buf truncated_file)
                        (sample_world truncated_file)))).
  assert (Hrun : Forall (fun l => is_descriptor l = false)
                   [OutSectionsBegin; OutSection "kernel" 0 0]).
  { apply H. vm_compute. reflexivity. }
  apply Forall_cons in Hrun as [_ Hrun].
  apply Forall_cons in Hrun as [Hrun _]. discriminate.
Qed.

(** A seek to the offset [2^64 - 1] is refused and goes unnoticed: the value
    returned, -1, reads back as the requested offset, and the section header
    is taken from where the file offset was, here right after the header. *)
Lemma refused_seek_goes_unnoticed :
  fst (parse_eif_file (sample_world refused_seek_file)) = Ok None
  /\ syscalls (snd (parse_eif_file (sample_world refused_seek_file)))
     = [SysRead 548 548; SysLseek (-1) (-1); SysRead 12 12]
  /\ file_pos (snd (parse_eif_file (sample_world refused_seek_file))) = 560.
Proof. vm_compute. repeat split. Qed.

(** ** Payloads, and files of the same length *)

Lemma payload_at_insert (data : list byte) (P : nat) (b : byte) (pos size : Z) :
  (P < Z.to_nat pos \/ Z.to_nat pos + Z.to_nat size <= P)%nat ->
  payload_at (<[P := b]> data) pos size = payload_at data pos size.
Proof.
  intros H. unfold payload_at.
  destruct (Nat.lt_ge_cases P (Z.to_nat pos)).
  - rewrite drop_insert_lt by lia. reflexivity.
  - rewrite drop_insert_ge by lia. apply take_insert_ge. lia.
Qed.

Lemma read_data_payload (count : Z) (w : world) :
  read_data count w
  = payload_at (file_data w) (file_pos w) (Z.min count (max_rw_count w)).
Proof. reflexivity. Qed.

(** When the block succeeds. *)
Lemma capture_metadata_complete (sh : EifSectionHeader) (w : world) :
  0 <= section_size sh ->
  section_size sh + 1 < 2^63 ->
  section_size sh + 1 <= heap_free w ->
  section_size sh + 1 <= max_rw_count w ->
  (Z.to_nat (file_pos w) + Z.to_nat (section_size sh + 1)
   <= length (file_data w))%nat ->
  capture_metadata sh w
  = (Ok (payload_at (file_data w) (file_pos w) (section_size sh) ++ [x00]),
     after_read (section_size sh + 1) w).
Proof.
  intros H0 H63 Hheap Hrw Hav.
  unfold capture_metadata, IO.bind, malloc, IO.lift.
  replace (uint64_t (section_size sh + 1)) with (section_size sh + 1)
    by (unfold uint64_t; rewrite Z.mod_small; lia).
  destruct (Z.leb_spec (section_size sh + 1) (heap_free w)); [|lia].
  rewrite read_eq. cbn [fst snd].
  rewrite int64_t_small by lia.
  set (size := section_size sh + 1) in *.
  assert (Hdata : read_data size w
                  = payload_at (file_data w) (file_pos w) size).
  { rewrite read_data_payload. f_equal. lia. }
  assert (Hlen : length (read_data size w) = Z.to_nat size).
  { rewrite Hdata. unfold payload_at. rewrite length_take, length_drop. lia. }
  destruct (Z.eqb_spec (Z.of_nat (length (read_data size w))) size); [|lia].
  cbn [negb].
  rewrite drop_ge by (rewrite length_replicate; lia).
  rewrite app_nil_r. unfold store.
  replace (uint64_t (size - 1)) with (size - 1)
    by (unfold uint64_t; rewrite Z.mod_small; lia).
  destruct (Z.leb_spec 0 (size - 1)); [|lia].
  destruct (Z.ltb_spec (size - 1) (Z.of_nat (length (read_data size w))));
    [|lia].
  cbn [andb].
  rewrite (snoc_terminator _ (Z.to_nat (size - 1))) by lia.
  rewrite Hdata. unfold payload_at at 1. rewrite take_take.
  replace (Z.to_nat (size - 1) `min` Z.to_nat size)%nat
    with (Z.to_nat (section_size sh)) by lia.
  reflexivity.
Qed.

(** Two files of the same length meet the same seeks and read lengths. *)
Lemma shape_seek_result (o : Z) (w wB : world) :
  same_shape w wB -> seek_result o wB = seek_result o w.
Proof.
  intros (_ & _ & Hmax & _). unfold seek_result. rewrite Hmax. reflexivity.
Qed.

Lemma shape_after_seek (o : Z) (w wB : world) :
  same_shape w wB -> same_shape (after_seek o w) (after_seek o wB).
Proof.
  intros (? & ? & Hmax & ? & ?). unfold after_seek, lseek. rewrite <- Hmax.
  destruct (_ && _); unfold same_shape; cbn; repeat split; done.
Qed.

Lemma shape_length_read_data (count : Z) (w wB : world) :
  same_shape w wB ->
  length (read_data count wB) = length (read_data count w).
Proof.
  intros (Hlen & Hpos & _ & Hrw & _). unfold read_data.
  rewrite !length_take, !length_drop, Hlen, Hpos, Hrw. reflexivity.
Qed.

Lemma shape_after_read (count : Z) (w wB : world) :
  same_shape w wB -> same_shape (after_read count w) (after_read count wB).
Proof.
  intros Hs. pose proof (shape_length_read_data count w wB Hs) as Hlen.
  destruct Hs as (? & Hpos & ? & ? & ?).
  unfold after_read, same_shape. rewrite Hlen, <- Hpos. cbn.
  repeat split; done.
Qed.

Lemma shape_prints (w wB : world) (l l' : out_line)
    (b b' : bool) (e e' : err_line) :
  same_shape w wB ->
  same_shape (if b then put_stderr e (put_stdout l w) else put_stdout l w)
             (if b' then put_stderr e' (put_stdout l' wB)
              else put_stdout l' wB).
Proof.
  intros (? & ? & ? & ? & ?).
  destruct b, b'; unfold same_shape; cbn; repeat split; done.
Qed.

(** * Further properties *)

(** ** Section types *)

(** X1. The name printed for a section type tells the type apart: two types
    print the same name only if they are equal or both outside 0..5, and the
    name is "unknown" exactly for the types outside 0..5. *)
Theorem section_type_string_names (t t' : Z) :
  (section_type_string t = section_type_string t'
   <-> t = t' \/ (~ 0 <= t <= 5 /\ ~ 0 <= t' <= 5))
  /\ (section_type_string t = "unknown" <-> ~ 0 <= t <= 5).
Proof.
  unfold section_type_string.
  repeat match goal with
         | |- context [ ?a =? ?b ] => destruct (Z.eqb_spec a b)
         end;
    (split; split; intros H; first [discriminate | lia | reflexivity | idtac]).
Qed.

(** ** Encoding, then decoding *)

Lemma u8_byte_of_Z (z : Z) : u8 (byte_of_Z z) = z mod 256.
Proof.
  unfold byte_of_Z.
  assert (Hr : 0 <= z mod 256 < 256) by (apply Z.mod_pos_bound; lia).
  destruct (Byte.of_N (Z.to_N (z mod 256))) as [b|] eqn:E.
  - apply Byte.to_of_N in E. unfold u8. rewrite E. lia.
  - apply Byte.of_N_None_iff in E. lia.
Qed.

Lemma length_be_bytes (n : nat) (v : Z) : length (be_bytes n v) = n.
Proof. induction n as [|n IH]; cbn; [reflexivity | by rewrite IH]. Qed.

Lemma be_value_be_bytes_mod (n : nat) (v : Z) :
  be_value (be_bytes n v) = v mod 256 ^ Z.of_nat n.
Proof.
  induction n as [|n IH].
  - cbn. rewrite Z.mod_1_r. reflexivity.
  - cbn [be_bytes]. rewrite be_value_cons, length_be_bytes, IH, u8_byte_of_Z.
    rewrite Nat2Z.inj_succ, Z.pow_succ_r by lia.
    rewrite (Z.mul_comm 256), Z.rem_mul_r by lia. lia.
Qed.

Lemma be_value_be_bytes (n : nat) (v : Z) :
  0 <= v < 256 ^ Z.of_nat n -> be_value (be_bytes n v) = v.
Proof.
  intros H. rewrite be_value_be_bytes_mod. apply Z.mod_small. exact H.
Qed.

(** A field behind a prefix of known length, and the field a value was
    written to. *)
Lemma field_skip (a l : list byte) (k off n : nat) :
  length a = k -> field (a ++ l) (k + off) n = field l off n.
Proof.
  intros <-. unfold field. rewrite drop_app_add'; reflexivity.
Qed.

Lemma field_be_bytes (post : list byte) (n : nat) (v : Z) :
  0 <= v < 256 ^ Z.of_nat n ->
  field (be_bytes n v ++ post) 0 n = v.
Proof.
  intros Hv. unfold field.
  rewrite drop_0, take_app_length' by (by rewrite length_be_bytes).
  by apply be_value_be_bytes.
Qed.

Lemma layout_encode_section_header (sh : EifSectionHeader) (rest : list byte) :
  section_header_in_range sh ->
  layout_section_header (encode_section_header sh ++ rest) = sh.
Proof.
  intros (Ht & Hf & Hs). destruct sh as [t f s]. cbn in Ht, Hf, Hs.
  unfold layout_section_header, encode_section_header.
  cbn [section_type sh_flags section_size].
  rewrite <- !app_assoc.
  rewrite (field_skip (be_bytes 2 t) _ 2 2 8) by apply length_be_bytes.
  rewrite (field_skip (be_bytes 2 t) _ 2 0 2) by apply length_be_bytes.
  rewrite (field_skip (be_bytes 2 f) _ 2 0 8) by apply length_be_bytes.
  rewrite !field_be_bytes by (cbn; lia).
  reflexivity.
Qed.

Lemma drop_piece (a l buf : list byte) (k n : nat) :
  drop k buf = a ++ l -> length a = n -> drop (k + n) buf = l.
Proof.
  intros H <-. rewrite <- drop_drop, H. apply drop_app_length.
Qed.

Lemma field_at_piece (buf post : list byte) (k n : nat) (v : Z) :
  drop k buf = be_bytes n v ++ post ->
  0 <= v < 256 ^ Z.of_nat n ->
  field buf k n = v.
Proof.
  intros H Hv. rewrite <- (Nat.add_0_r k), <- field_drop, H.
  by apply field_be_bytes.
Qed.

Lemma length_concat_be_bytes (l : list Z) :
  length (concat (be_bytes 8 <$> l)) = (8 * length l)%nat.
Proof.
  induction l as [|a l IH]; [reflexivity|].
  cbn [fmap list_fmap concat length]. rewrite length_app, length_be_bytes.
  change (list_fmap Z (list byte) (be_bytes 8) l) with (be_bytes 8 <$> l).
  rewrite IH. lia.
Qed.

Lemma fields_of_concat (l : list Z) (rest : list byte) :
  Forall (fun v => 0 <= v < 2^64) l ->
  (fun i => field (concat (be_bytes 8 <$> l) ++ rest) (8 * i) 8)
    <$> seq 0 (length l) = l.
Proof.
  induction 1 as [|a l Ha Hl IH]; [reflexivity|].
  cbn [length seq]. rewrite <- fmap_S_seq. cbn [fmap list_fmap concat].
  change (list_fmap Z (list byte) (be_bytes 8) l) with (be_bytes 8 <$> l).
  rewrite <- app_assoc. f_equal.
  - apply field_be_bytes. cbn. lia.
  - rewrite <- list_fmap_compose. rewrite <- IH at 2.
    apply list_fmap_ext. intros _ i _. unfold compose.
    replace (8 * S i)%nat with (8 + 8 * i)%nat by lia.
    apply field_skip, length_be_bytes.
Qed.

Lemma u8_byte_of_Z_list (l : list Z) :
  Forall (fun b => 0 <= b < 2^8) l -> u8 <$> (byte_of_Z <$> l) = l.
Proof.
  induction 1 as [|b l Hb Hl IH]; [reflexivity|].
  cbn [fmap list_fmap]. f_equal; [|exact IH].
  rewrite u8_byte_of_Z. apply Z.mod_small. lia.
Qed.

Lemma layout_encode_header (h : EifHeader) (rest : list byte) :
  header_in_range h ->
  layout_header (encode_header h ++ rest) = h.
Proof.
  intros (Hml & Hm & Hv & Hf & Hdm & Hdc & Hr & Hc & Hol & Ho & Hsl & Hs
          & Hu & Hcrc).
  destruct h as [m v f dm dc r c offs szs u crc].
  cbn [magic version flags default_memory default_cpus reserved section_cnt
       section_offsets section_sizes unused eif_crc32] in *.
  set (buf := encode_header _ ++ rest).
  assert (H0 : drop 0 buf
               = (byte_of_Z <$> m) ++ be_bytes 2 v ++ be_bytes 2 f
                 ++ be_bytes 8 dm ++ be_bytes 8 dc ++ be_bytes 2 r
                 ++ be_bytes 2 c ++ concat (be_bytes 8 <$> offs)
                 ++ concat (be_bytes 8 <$> szs) ++ be_bytes 4 u
                 ++ be_bytes 4 crc ++ rest).
  { subst buf. unfold encode_header.
    cbn [magic version flags default_memory default_cpus reserved
         section_cnt section_offsets section_sizes unused eif_crc32].
    rewrite drop_0, <- !app_assoc. reflexivity. }
  pose proof (drop_piece _ _ _ 0 4 H0 ltac:(by rewrite length_fmap)) as H4.
  pose proof (drop_piece _ _ _ _ 2 H4 (length_be_bytes _ _)) as H6.
  pose proof (drop_piece _ _ _ _ 2 H6 (length_be_bytes _ _)) as H8.
  pose proof (drop_piece _ _ _ _ 8 H8 (length_be_bytes _ _)) as H16.
  pose proof (drop_piece _ _ _ _ 8 H16 (length_be_bytes _ _)) as H24.
  pose proof (drop_piece _ _ _ _ 2 H24 (length_be_bytes _ _)) as H26.
  pose proof (drop_piece _ _ _ _ 2 H26 (length_be_bytes _ _)) as H28.
  pose proof (drop_piece _ _ _ _ 256 H28
                ltac:(rewrite length_concat_be_bytes, Hol; reflexivity))
    as H284.
  pose proof (drop_piece _ _ _ _ 256 H284
                ltac:(rewrite length_concat_be_bytes, Hsl; reflexivity))
    as H540.
  pose proof (drop_piece _ _ _ _ 4 H540 (length_be_bytes _ _)) as H544.
  cbn [Nat.add] in *.
  unfold layout_header.
  rewrite (field_at_piece buf _ 4 2 v H4) by (cbn; lia).
  rewrite (field_at_piece buf _ 6 2 f H6) by (cbn; lia).
  rewrite (field_at_piece buf _ 8 8 dm H8) by (cbn; lia).
  rewrite (field_at_piece buf _ 16 8 dc H16) by (cbn; lia).
  rewrite (field_at_piece buf _ 24 2 r H24) by (cbn; lia).
  rewrite (field_at_piece buf _ 26 2 c H26) by (cbn; lia).
  rewrite (field_at_piece buf _ 540 4 u H540) by (cbn; lia).
  rewrite (field_at_piece buf _ 544 4 crc H544) by (cbn; lia).
  f_equal.
  - rewrite drop_0 in H0. rewrite H0.
    rewrite take_app_length' by (by rewrite length_fmap).
    by apply u8_byte_of_Z_list.
  - etransitivity;
      [|exact (fields_of_concat offs
                 (concat (be_bytes 8 <$> szs) ++ be_bytes 4 u
                  ++ be_bytes 4 crc ++ rest) Ho)].
    rewrite Hol, <- H28. apply list_fmap_ext. intros _ i _.
    symmetry. apply field_drop.
  - etransitivity;
      [|exact (fields_of_concat szs
                 (be_bytes 4 u ++ be_bytes 4 crc ++ rest) Hs)].
    rewrite Hsl, <- H284. apply list_fmap_ext. intros _ i _.
    symmetry. apply field_drop.
Qed.

Lemma field_range (buf : list byte) (off n : nat) :
  0 <= field buf off n < 256 ^ Z.of_nat n.
Proof.
  unfold field.
  pose proof (be_value_range (take n (drop off buf))) as Hr.
  assert (256 ^ Z.of_nat (length (take n (drop off buf))) <= 256 ^ Z.of_nat n)
    by (apply Z.pow_le_mono_r; rewrite ?length_take; lia).
  lia.
Qed.

Lemma field2_range (buf : list byte) (off : nat) :
  0 <= field buf off 2 < 2^16.
Proof. exact (field_range buf off 2). Qed.

Lemma field4_range (buf : list byte) (off : nat) :
  0 <= field buf off 4 < 2^32.
Proof. exact (field_range buf off 4). Qed.

Lemma field8_range (buf : list byte) (off : nat) :
  0 <= field buf off 8 < 2^64.
Proof. exact (field_range buf off 8). Qed.

Lemma layout_header_in_range (buf : list byte) :
  (548 <= length buf)%nat -> header_in_range (layout_header buf).
Proof.
  intros Hlen. unfold header_in_range, layout_header.
  cbn [magic version flags default_memory default_cpus reserved section_cnt
       section_offsets section_sizes unused eif_crc32].
  rewrite !length_fmap, !length_seq, length_take.
  split; [lia|]. split.
  { apply Forall_fmap, Forall_forall. intros b _. apply u8_range. }
  do 6 (split; [first [apply field2_range | apply field8_range]|]).
  split; [reflexivity|]. split.
  { apply Forall_fmap, Forall_forall. intros i _. apply field8_range. }
  split; [reflexivity|]. split.
  { apply Forall_fmap, Forall_forall. intros i _. apply field8_range. }
  split; apply field4_range.
Qed.

Lemma layout_section_header_in_range (buf : list byte) :
  section_header_in_range (layout_section_header buf).
Proof.
  unfold section_header_in_range, layout_section_header.
  cbn [section_type sh_flags section_size].
  split; [apply field2_range|]. split; [apply field2_range|].
  apply field8_range.
Qed.

Lemma length_encode_header (h : EifHeader) :
  length (magic h) = 4%nat ->
  length (section_offsets h) = MAX_SECTIONS ->
  length (section_sizes h) = MAX_SECTIONS ->
  length (encode_header h) = 548%nat.
Proof.
  intros Hm Ho Hs. unfold encode_header.
  rewrite !length_app, length_fmap, !length_be_bytes,
    !length_concat_be_bytes, Hm, Ho, Hs.
  reflexivity.
Qed.

Lemma encode_layout_section_header (buf : list byte) :
  (12 <= length buf)%nat ->
  encode_section_header (layout_section_header buf) = take 12 buf.
Proof.
  intros H. unfold encode_section_header, layout_section_header.
  cbn [section_type sh_flags section_size].
  rewrite !be_bytes_field by lia. rewrite drop_0.
  rewrite app_assoc, take_take_drop. cbn [Nat.add].
  rewrite take_take_drop. reflexivity.
Qed.

(** ** The decoders on every input *)

(** X2. [parse_eif_section_header] on a window shorter than 12 bytes stops
    at its assertion and reads nothing; on 12 bytes or more it succeeds, and
    the result is that of the first 12 bytes alone, whatever the output struct
    held before. *)
Theorem section_header_window_outcome
    (buf : list byte) (sh0 : EifSectionHeader) :
  parse_eif_section_header buf (Z.of_nat (length buf)) sh0
  = (if (length buf <? 12)%nat then Exit TruncatedSectionHeader
     else Ok (layout_section_header (take 12 buf))).
Proof.
  destruct (Nat.ltb_spec (length buf) 12) as [Hlen|Hlen].
  - unfold parse_eif_section_header.
    replace (EIF_SECTION_HEADER_SIZE <=? Z.of_nat (length buf)) with false
      by (symmetry; unfold EIF_SECTION_HEADER_SIZE; lia).
    reflexivity.
  - rewrite parse_eif_section_header_layout
      by (unfold EIF_SECTION_HEADER_SIZE; lia).
    rewrite <- (take_drop 12 buf) at 1.
    rewrite layout_section_header_app by (rewrite length_take; lia).
    reflexivity.
Qed.

(** X3. Every field of a decoded header is a value of its C type, and the
    three arrays have their declared lengths; the same holds of a decoded
    section header. *)
Theorem decoded_fields_in_range
    (buf : list byte) (h0 : EifHeader)
    (sbuf : list byte) (sh0 : EifSectionHeader) :
  (548 <= length buf)%nat ->
  header_shape h0 ->
  (12 <= length sbuf)%nat ->
  (exists h, parse_eif_header buf (Z.of_nat (length buf)) h0 = Ok h
             /\ header_in_range h)
  /\ (exists sh,
        parse_eif_section_header sbuf (Z.of_nat (length sbuf)) sh0 = Ok sh
        /\ section_header_in_range sh).
Proof.
  intros Hbuf Hshape Hsbuf. split.
  - exists (layout_header buf). split.
    + apply parse_eif_header_layout;
        [unfold EIF_HEADER_SIZE; lia | lia | done].
    + by apply layout_header_in_range.
  - exists (layout_section_header sbuf). split.
    + apply parse_eif_section_header_layout;
        [unfold EIF_SECTION_HEADER_SIZE; lia | lia].
    + apply layout_section_header_in_range.
Qed.

Lemma decoded_fields_in_range_witness :
  (exists h, parse_eif_header garbage_buf (Z.of_nat (length garbage_buf))
               (uninit_header xaa) = Ok h
             /\ header_in_range h)
  /\ (exists sh,
        parse_eif_section_header (replicate 12 xff)
          (Z.of_nat (length (replicate 12 xff))) (uninit_section_header xaa)
        = Ok sh
        /\ section_header_in_range sh).
Proof.
  apply decoded_fields_in_range.
  - vm_compute. lia.
  - repeat split.
  - vm_compute. lia.
Defined.

(** X4. A header whose fields are values of their C types, written out
    big-endian in layout order, decodes to itself, whatever bytes follow the
    548 and whatever the output struct held before. *)
Theorem header_encode_then_decode
    (h h0 : EifHeader) (rest : list byte) :
  header_in_range h ->
  header_shape h0 ->
  length (encode_header h) = 548%nat
  /\ parse_eif_header (encode_header h ++ rest)
       (Z.of_nat (length (encode_header h ++ rest))) h0 = Ok h.
Proof.
  intros Hrange Hshape.
  assert (Hlen : length (encode_header h) = 548%nat).
  { destruct Hrange as (? & _ & _ & _ & _ & _ & _ & _ & ? & _ & ? & _).
    by apply length_encode_header. }
  split; [exact Hlen|].
  rewrite parse_eif_header_layout;
    [| unfold EIF_HEADER_SIZE; rewrite length_app; lia
     | rewrite length_app; lia | exact Hshape].
  f_equal. by apply layout_encode_header.
Qed.

Lemma header_encode_then_decode_witness :
  length (encode_header (sample_header 2 [548; 562] [2; 3])) = 548%nat
  /\ parse_eif_header
       (encode_header (sample_header 2 [548; 562] [2; 3]) ++ [x01; x02])
       (Z.of_nat (length (encode_header (sample_header 2 [548; 562] [2; 3])
                          ++ [x01; x02])))
       (uninit_header xaa)
     = Ok (sample_header 2 [548; 562] [2; 3]).
Proof.
  apply header_encode_then_decode.
  - unfold header_in_range. cbn.
    repeat split; try lia; repeat constructor; lia.
  - repeat split.
Defined.

(** X5. The section header round trip, both ways: 12 bytes decode to a
    section header whose big-endian encoding is these 12 bytes, and a section
    header with fields of their C types, written out and followed by any
    payload, decodes to itself. *)
Theorem section_header_codec_inverse
    (buf : list byte) (sh sh0 : EifSectionHeader) (payload : list byte) :
  length buf = 12%nat ->
  section_header_in_range sh ->
  (exists sh',
     parse_eif_section_header buf (Z.of_nat (length buf)) sh0 = Ok sh'
     /\ encode_section_header sh' = buf)
  /\ parse_eif_section_header (encode_section_header sh ++ payload)
       (Z.of_nat (length (encode_section_header sh ++ payload))) sh0
     = Ok sh.
Proof.
  intros Hbuf Hrange. split.
  - exists (layout_section_header buf). split.
    + apply parse_eif_section_header_layout;
        [unfold EIF_SECTION_HEADER_SIZE; lia | lia].
    + rewrite encode_layout_section_header by lia. apply take_ge. lia.
  - assert (Hlen : length (encode_section_header sh) = 12%nat).
    { unfold encode_section_header.
      rewrite !length_app, !length_be_bytes. reflexivity. }
    rewrite parse_eif_section_header_layout;
      [| unfold EIF_SECTION_HEADER_SIZE; rewrite length_app; lia
       | rewrite length_app; lia].
    f_equal. by apply layout_encode_section_header.
Qed.

Lemma section_header_codec_inverse_witness :
  (exists sh',
     parse_eif_section_header (replicate 12 xff)
       (Z.of_nat (length (replicate 12 xff))) (uninit_section_header xaa)
     = Ok sh'
     /\ encode_section_header sh' = replicate 12 xff)
  /\ parse_eif_section_header
       (encode_section_header (mkEifSectionHeader 5 0 2) ++ [x7b; x7d])
       (Z.of_nat (length (encode_section_header (mkEifSectionHeader 5 0 2)
                          ++ [x7b; x7d])))
       (uninit_section_header xaa)
     = Ok (mkEifSectionHeader 5 0 2).
Proof.
  apply section_header_codec_inverse.
  - reflexivity.
  - unfold section_header_in_range. cbn. lia.
Defined.

(** ** The program as a whole *)

Lemma uninit_header_shape (j : byte) : header_shape (uninit_header j).
Proof. repeat split. Qed.

Lemma parse_eif_file_unfold (w : world) :
  parse_eif_file w =
  if 548 <=? heap_free w then
    let data := read_data 548 w in
    if Z.of_nat (length data) =? 548 then
      walk_sections (layout_header data) data
        (put_stdout (header_line (layout_header data)) (after_read 548 w))
    else (Exit TruncatedInput, after_read 548 w)
  else (Exit AllocFailed, w).
Proof.
  unfold parse_eif_file, IO.bind, IO.get_junk, malloc, IO.die, IO.lift.
  change EIF_HEADER_SIZE with 548.
  destruct (548 <=? heap_free w); [|reflexivity].
  rewrite read_eq. cbn [fst snd]. cbv zeta.
  destruct (Z.eqb_spec (Z.of_nat (length (read_data 548 w))) 548) as [Hgot|];
    [|reflexivity].
  cbn [negb].
  rewrite drop_ge by (rewrite length_replicate; lia).
  rewrite app_nil_r.
  rewrite parse_eif_header_layout;
    [| unfold EIF_HEADER_SIZE; lia | lia | apply uninit_header_shape].
  reflexivity.
Qed.

Lemma read_data_available (count : Z) (w : world) :
  0 <= count <= max_rw_count w ->
  (Z.to_nat (file_pos w) + Z.to_nat count <= length (file_data w))%nat ->
  read_data count w = payload_at (file_data w) (file_pos w) count
  /\ Z.of_nat (length (read_data count w)) = count.
Proof.
  intros Hc Hav. rewrite read_data_payload.
  replace (Z.min count (max_rw_count w)) with count by lia.
  split; [reflexivity|].
  unfold payload_at. rewrite length_take, length_drop. lia.
Qed.

(** X6. When [malloc] refuses the 548-byte header buffer the program exits
    with AllocFailed having touched nothing; when the file holds fewer than
    548 bytes from the file offset on, it exits with TruncatedInput after its
    single [read]. In both cases nothing has been printed. *)
Theorem no_header_no_output (w : world) :
  (heap_free w < 548 -> parse_eif_file w = (Exit AllocFailed, w))
  /\ (548 <= heap_free w ->
      (length (file_data w) - Z.to_nat (file_pos w) < 548)%nat ->
      parse_eif_file w = (Exit TruncatedInput, after_read 548 w)
      /\ stdout (after_read 548 w) = stdout w
      /\ reads (syscalls (after_read 548 w)) = reads (syscalls w) ++ [548]).
Proof.
  split.
  - intros H. rewrite parse_eif_file_unfold.
    destruct (Z.leb_spec 548 (heap_free w)); [lia|reflexivity].
  - intros Hheap Hshort. rewrite parse_eif_file_unfold.
    destruct (Z.leb_spec 548 (heap_free w)); [|lia].
    cbv zeta. pose proof (length_read_data 548 w) as (_ & _ & Hlen).
    destruct (Z.eqb_spec (Z.of_nat (length (read_data 548 w))) 548); [lia|].
    split; [reflexivity|]. split; [reflexivity|].
    unfold after_read. cbn [syscalls log_syscall set_file_pos].
    rewrite reads_app. reflexivity.
Qed.

Lemma no_header_no_output_witness :
  parse_eif_file (sample_world (take 547 two_metadata_file))
  = (Exit TruncatedInput,
     after_read 548 (sample_world (take 547 two_metadata_file)))
  /\ stdout (after_read 548 (sample_world (take 547 two_metadata_file)))
     = stdout (sample_world (take 547 two_metadata_file))
  /\ reads (syscalls (after_read 548
                        (sample_world (take 547 two_metadata_file))))
     = reads (syscalls (sample_world (take 547 two_metadata_file))) ++ [548].
Proof.
  apply (no_header_no_output (sample_world (take 547 two_metadata_file))).
  - vm_compute. discriminate.
  - vm_compute. lia.
Defined.

(** X7. With the header buffer granted and 548 bytes to read, the program is
    the walk of the header that the layout gives for these 548 bytes, started
    right after the header has been read and printed: the file offset is
    behind the header, one [read] of 548 is logged, the header line is on
    [stdout]. *)
Theorem parse_eif_file_is_header_then_walk (w : world) :
  548 <= heap_free w ->
  548 <= max_rw_count w ->
  (Z.to_nat (file_pos w) + 548 <= length (file_data w))%nat ->
  let buf := payload_at (file_data w) (file_pos w) 548 in
  let h := layout_header buf in
  parse_eif_file w
  = walk_sections h buf (put_stdout (header_line h) (after_read 548 w))
  /\ file_pos (after_read 548 w) = file_pos w + 548
  /\ syscalls (after_read 548 w) = syscalls w ++ [SysRead 548 548].
Proof.
  intros Hheap Hrw Hav. cbv zeta.
  destruct (read_data_available 548 w) as [Hdata Hgot]; [lia | lia |].
  rewrite parse_eif_file_unfold.
  destruct (Z.leb_spec 548 (heap_free w)); [|lia].
  cbv zeta. rewrite Hgot, Z.eqb_refl, Hdata.
  split; [reflexivity|].
  unfold after_read. rewrite Hgot. split; reflexivity.
Qed.

Lemma parse_eif_file_is_header_then_walk_witness :
  let w := sample_world two_metadata_file in
  let buf := payload_at (file_data w) (file_pos w) 548 in
  let h := layout_header buf in
  parse_eif_file w
  = walk_sections h buf (put_stdout (header_line h) (after_read 548 w))
  /\ file_pos (after_read 548 w) = file_pos w + 548
  /\ syscalls (after_read 548 w) = syscalls w ++ [SysRead 548 548].
Proof.
  apply (parse_eif_file_is_header_then_walk (sample_world two_metadata_file)).
  - vm_compute. discriminate.
  - vm_compute. discriminate.
  - vm_compute. lia.
Defined.

(** X8. A file whose section count field (bytes 26-27) reads above 32 makes
    the program stop at the assertion on the count after its one [read] of
    the 548 header bytes: no [lseek] and no further [read] has been made, and
    the file offset stands right behind the header. The assertion ends the
    program through [abort], so nothing is said here of [stdout]. *)
Theorem oversized_count_stops_program (w : world) :
  548 <= heap_free w ->
  548 <= max_rw_count w ->
  (Z.to_nat (file_pos w) + 548 <= length (file_data w))%nat ->
  32 < field (payload_at (file_data w) (file_pos w) 548) 26 2 ->
  fst (parse_eif_file w) = Exit TooManySections
  /\ syscalls (snd (parse_eif_file w)) = syscalls w ++ [SysRead 548 548]
  /\ file_pos (snd (parse_eif_file w)) = file_pos w + 548.
Proof.
  intros Hheap Hrw Hav Hcnt.
  destruct (read_data_available 548 w) as [Hdata Hgot]; [lia | lia |].
  rewrite parse_eif_file_unfold.
  destruct (Z.leb_spec 548 (heap_free w)); [|lia].
  cbv zeta. rewrite Hgot, Z.eqb_refl, Hdata, walk_sections_unfold.
  cbn [layout_header section_cnt].
  destruct (Z.leb_spec
              (field (payload_at (file_data w) (file_pos w) 548) 26 2) 32);
    [lia|].
  cbn [fst snd]. unfold after_read. rewrite Hgot.
  split; [reflexivity|]. split; reflexivity.
Qed.

Lemma oversized_count_stops_program_witness :
  let w := sample_world (encode_header (sample_header 33 [] [])) in
  fst (parse_eif_file w) = Exit TooManySections
  /\ syscalls (snd (parse_eif_file w)) = syscalls w ++ [SysRead 548 548]
  /\ file_pos (snd (parse_eif_file w)) = file_pos w + 548.
Proof.
  apply (oversized_count_stops_program
           (sample_world (encode_header (sample_header 33 [] [])))).
  - vm_compute. discriminate.
  - vm_compute. discriminate.
  - vm_compute. lia.
  - vm_compute. reflexivity.
Defined.

(** ** The walk and the section table *)

Lemma seeks_app (cs cs' : list syscall) :
  seeks (cs ++ cs') = seeks cs ++ seeks cs'.
Proof.
  induction cs as [|[]]; cbn; [reflexivity|by rewrite IHcs|exact IHcs].
Qed.

Lemma take_drop_S {A} (l : list A) (n i : nat) (x : A) :
  l !! i = Some x -> take (S n) (drop i l) = x :: take n (drop (S i) l).
Proof.
  intros H. rewrite <- (take_drop_middle l i x H) at 1.
  rewrite drop_app_length' by (rewrite length_take; apply lookup_lt_Some in H; lia).
  reflexivity.
Qed.

(** What a completed run of the loop has sought and warned about. *)
Lemma walk_loop_table (h : EifHeader) (n i : nat) (st st' : locals)
    (w w' : world) :
  walk_loop h n i st w = (Ok st', w') ->
  exists ds cs,
    stdout w' = stdout w ++ ds
    /\ length ds = n
    /\ syscalls w' = syscalls w ++ cs
    /\ seeks cs = int64_t <$> take n (drop i (section_offsets h))
    /\ stderr w'
       = stderr w ++ warnings (take n (drop i (section_sizes h))) ds.
Proof.
  revert i st w. induction n as [|n IH]; intros i [buf md] w Hrun.
  - cbn in Hrun. injection Hrun as <- <-. exists [], [].
    rewrite !app_nil_r. repeat split; reflexivity.
  - cbn [walk_loop] in Hrun. unfold IO.bind in Hrun.
    destruct (section_iter h i (buf, md) w) as [[[buf1 md1]|f] w1] eqn:Eit;
      [|discriminate].
    apply section_iter_Ok in Eit
      as (o & d & Ho & Hd & Hseek & _ & _ & Hout & Herr & _ & _ & _ & _ & _
          & Hmd).
    cbv zeta in *.
    set (ws := after_seek o w) in *.
    set (sh := layout_section_header _) in *.
    apply IH in Hrun as (ds & cs & Hout' & Hlen & Hsys' & Hseeks & Herr').
    assert (Hws : syscalls ws = syscalls w ++ [SysLseek (int64_t o) (int64_t o)]).
    { destruct Hseek as [(? & ? & ->)|(-> & ->)].
      - rewrite int64_t_small by lia. reflexivity.
      - reflexivity. }
    assert (Hsys1 : exists rs, syscalls w1 = syscalls ws ++ rs /\ seeks rs = []).
    { destruct Hmd as [(_ & _ & _ & _ & -> & _)|(_ & _ & -> & _)];
        eexists; split; reflexivity. }
    destruct Hsys1 as (rs & Hsys1 & Hrs).
    exists (descriptor sh :: ds),
      ([SysLseek (int64_t o) (int64_t o)] ++ rs ++ cs).
    rewrite Hout', Hout, Hsys', Hsys1, Hws, Herr', Herr, <- !app_assoc.
    rewrite (take_drop_S _ _ _ _ Ho), (take_drop_S _ _ _ _ Hd).
    split; [reflexivity|]. split; [cbn; lia|]. split; [reflexivity|].
    split.
    + rewrite !seeks_app, Hrs, Hseeks. reflexivity.
    + cbn [warnings descriptor]. reflexivity.
Qed.

(** X9. A walk that completes has sought the offsets of the section table
    in table order, one [lseek] per section and no other, whatever order the
    offsets are in; the offset passed is the table entry converted to
    [off_t]. *)
Theorem walk_seeks_in_table_order (h : EifHeader) (buf : list byte)
    (w : world) (md : option (list byte)) (w' : world) :
  walk_sections h buf w = (Ok md, w') ->
  exists cs,
    syscalls w' = syscalls w ++ cs
    /\ seeks cs
       = int64_t <$> take (Z.to_nat (section_cnt h)) (section_offsets h).
Proof.
  rewrite walk_sections_unfold.
  destruct (section_cnt h <=? 32); [|discriminate].
  destruct (walk_loop _ _ _ _ _) as [[st|f] wl] eqn:Eloop; [|discriminate].
  intros Hrun.
  apply walk_loop_table in Eloop
    as (ds & cs & _ & _ & Hsys & Hseeks & _).
  rewrite drop_0 in Hseeks. cbn [syscalls put_stdout] in Hsys.
  exists cs. split; [|exact Hseeks].
  injection Hrun as _ <-. destruct (snd st); exact Hsys.
Qed.

Lemma walk_seeks_in_table_order_witness :
  let h := sample_header 2 [562; 548] [2; 2] in
  let w := sample_world (overlap_file 1) in
  let w' := snd (walk_sections h (header_buf (overlap_file 1)) w) in
  exists cs,
    syscalls w' = syscalls w ++ cs
    /\ seeks cs
       = int64_t <$> take (Z.to_nat (section_cnt h)) (section_offsets h).
Proof.
  cbv zeta.
  apply (walk_seeks_in_table_order (sample_header 2 [562; 548] [2; 2])
           (header_buf (overlap_file 1)) (sample_world (overlap_file 1))
           (Some [x7b; x7d; x00])).
  vm_compute. reflexivity.
Defined.

(** X10. A walk that completes has written to [stderr] exactly the warnings
    that the declared sizes of the visited sections and the sizes in the
    printed descriptors call for, in table order: one for each section whose
    two sizes differ, none for the others. *)
Theorem walk_warnings_match (h : EifHeader) (buf : list byte)
    (w : world) (md : option (list byte)) (w' : world) :
  walk_sections h buf w = (Ok md, w') ->
  exists ds tail,
    stdout w' = stdout w ++ OutSectionsBegin :: ds ++ OutSectionsEnd :: tail
    /\ length ds = Z.to_nat (section_cnt h)
    /\ stderr w'
       = stderr w
         ++ warnings (take (Z.to_nat (section_cnt h)) (section_sizes h)) ds.
Proof.
  rewrite walk_sections_unfold.
  destruct (section_cnt h <=? 32); [|discriminate].
  destruct (walk_loop _ _ _ _ _) as [[st|f] wl] eqn:Eloop; [|discriminate].
  intros Hrun.
  apply walk_loop_table in Eloop
    as (ds & cs & Hout & Hlen & _ & _ & Herr).
  rewrite drop_0 in Herr. cbn [stdout stderr put_stdout] in Hout, Herr.
  injection Hrun as _ <-.
  destruct (snd st) as [m|].
  - exists ds, [OutMetadata (c_string m)].
    cbn [stdout stderr put_stdout]. rewrite Hout, Herr, <- !app_assoc.
    repeat split; done.
  - exists ds, []. cbn [stdout stderr put_stdout].
    rewrite Hout, Herr, <- !app_assoc. repeat split; done.
Qed.

Lemma walk_warnings_match_witness :
  let h := sample_header 1 [548] [10] in
  let w := sample_world mismatch_file in
  let w' := snd (walk_sections h (header_buf mismatch_file) w) in
  exists ds tail,
    stdout w' = stdout w ++ OutSectionsBegin :: ds ++ OutSectionsEnd :: tail
    /\ length ds = Z.to_nat (section_cnt h)
    /\ stderr w'
       = stderr w
         ++ warnings (take (Z.to_nat (section_cnt h)) (section_sizes h)) ds.
Proof.
  cbv zeta.
  apply (walk_warnings_match (sample_header 1 [548] [10])
           (header_buf mismatch_file) (sample_world mismatch_file)
           (Some (replicate 20 x61 ++ [x00]))).
  vm_compute. reflexivity.
Defined.

(** Only entry [i] of the two tables matters to iteration [i]. *)
Lemma section_iter_ext (h h' : EifHeader) (i : nat) (st : locals) (w : world) :
  section_offsets h !! i = section_offsets h' !! i ->
  section_sizes h !! i = section_sizes h' !! i ->
  section_iter h i st w = section_iter h' i st w.
Proof.
  intros Ho Hs. destruct st as [buf md].
  rewrite !section_iter_unfold, Ho, Hs. reflexivity.
Qed.

Lemma walk_loop_ext (h h' : EifHeader) (n i : nat) (st : locals) (w : world) :
  (forall j, (i <= j < i + n)%nat ->
             section_offsets h !! j = section_offsets h' !! j
             /\ section_sizes h !! j = section_sizes h' !! j) ->
  walk_loop h n i st w = walk_loop h' n i st w.
Proof.
  revert i st w. induction n as [|n IH]; intros i st w Heq; [reflexivity|].
  cbn [walk_loop]. unfold IO.bind.
  destruct (Heq i ltac:(lia)) as [Ho Hs].
  rewrite (section_iter_ext h h' i st w Ho Hs).
  destruct (section_iter h' i st w) as [[st1|f] w1]; [|reflexivity].
  apply IH. intros j Hj. apply Heq. lia.
Qed.

(** X11. The walk looks at the first [section_cnt] entries of the two tables
    only: two headers with the same count that agree on these entries are
    walked alike, whatever their remaining entries and their other fields
    hold. *)
Theorem padding_entries_ignored (h h' : EifHeader) (buf : list byte)
    (w : world) :
  section_cnt h = section_cnt h' ->
  take (Z.to_nat (section_cnt h)) (section_offsets h)
  = take (Z.to_nat (section_cnt h)) (section_offsets h') ->
  take (Z.to_nat (section_cnt h)) (section_sizes h)
  = take (Z.to_nat (section_cnt h)) (section_sizes h') ->
  walk_sections h buf w = walk_sections h' buf w.
Proof.
  intros Hcnt Ho Hs. rewrite !walk_sections_unfold, <- Hcnt.
  destruct (section_cnt h <=? 32); [|reflexivity].
  rewrite (walk_loop_ext h h'); [reflexivity|].
  intros j Hj. split.
  - rewrite <- (lookup_take_lt (section_offsets h) (Z.to_nat (section_cnt h)))
      by lia.
    rewrite Ho. apply lookup_take_lt. lia.
  - rewrite <- (lookup_take_lt (section_sizes h) (Z.to_nat (section_cnt h)))
      by lia.
    rewrite Hs. apply lookup_take_lt. lia.
Qed.

Lemma padding_entries_ignored_witness :
  walk_sections (sample_header 1 [548] [2]) (header_buf two_metadata_file)
    (sample_world two_metadata_file)
  = walk_sections
      (mkEifHeader [0; 0; 0; 0] 9 9 9 9 9 1
         (548 :: replicate 31 7) (2 :: replicate 31 7) 9 9)
      (header_buf two_metadata_file) (sample_world two_metadata_file).
Proof.
  apply padding_entries_ignored; reflexivity.
Defined.

(** ** Section offsets *)

Lemma int64_t_u64 (o : Z) :
  0 <= o < 2^64 -> int64_t o = if o <? 2^63 then o else o - 2^64.
Proof. intros H. unfold int64_t. rewrite Z.mod_small by lia. reflexivity. Qed.

(** The two ways an [lseek] to a table entry can go. *)
Lemma seek_result_cases (o : Z) (w : world) :
  0 <= o < 2^64 ->
  (o < 2^63 /\ o <= s_maxbytes w
   /\ seek_result o w = o
   /\ after_seek o w = log_syscall (SysLseek o o) (set_file_pos o w))
  \/ (~ (o < 2^63 /\ o <= s_maxbytes w)
      /\ seek_result o w = -1
      /\ after_seek o w = log_syscall (SysLseek (int64_t o) (-1)) w).
Proof.
  intros Ho. unfold seek_result, after_seek, lseek.
  rewrite (int64_t_u64 o Ho).
  destruct (Z.ltb_spec o (2^63)).
  - destruct (Z.leb_spec 0 o); [|lia].
    destruct (Z.leb_spec o (s_maxbytes w)); cbn [andb snd].
    + left. repeat split; lia || reflexivity.
    + right. repeat split; lia || reflexivity.
  - destruct (Z.leb_spec 0 (o - 2^64)); [lia|]. cbn [andb snd].
    right. repeat split; lia || reflexivity.
Qed.

Lemma capture_metadata_failures (sh : EifSectionHeader) (w : world)
    (f : failure) :
  fst (capture_metadata sh w) = Exit f ->
  f = AllocFailed \/ f = TruncatedMetadata \/ f = OutOfBounds.
Proof.
  unfold capture_metadata, IO.bind, malloc, IO.die, IO.lift.
  destruct (_ <=? heap_free w); [|cbn; intros [= <-]; tauto].
  rewrite read_eq. cbn [fst snd].
  destruct (negb _); [cbn; intros [= <-]; tauto|].
  unfold store. destruct (_ && _); cbn; [discriminate|intros [= <-]; tauto].
Qed.

Lemma section_iter_seek_failed (h : EifHeader) (i : nat) (st : locals)
    (w : world) (o : Z) :
  section_offsets h !! i = Some o ->
  uint64_t (seek_result o w) <> o ->
  section_iter h i st w = (Exit SeekFailed, after_seek o w).
Proof.
  intros Hoff Hne. destruct st as [buf md].
  rewrite section_iter_unfold, Hoff. cbv zeta.
  destruct (Z.eqb_spec (uint64_t (seek_result o w)) o); [contradiction|].
  reflexivity.
Qed.

Lemma section_iter_past_seek (h : EifHeader) (i : nat) (st : locals)
    (w : world) (o : Z) :
  section_offsets h !! i = Some o ->
  uint64_t (seek_result o w) = o ->
  fst (section_iter h i st w) <> Exit SeekFailed.
Proof.
  intros Hoff Heq. destruct st as [buf md].
  rewrite section_iter_unfold, Hoff. cbv zeta.
  destruct (Z.eqb_spec (uint64_t (seek_result o w)) o); [|contradiction].
  cbn [negb].
  destruct (negb (Z.of_nat _ =? 12)); [discriminate|].
  destruct (section_sizes h !! i); [|discriminate].
  destruct (bool_decide (md = None) && _); [|discriminate].
  match goal with
  | |- context [capture_metadata ?s ?x] =>
      pose proof (capture_metadata_failures s x) as Hf;
      destruct (capture_metadata s x) as [[m|f] w5]
  end; [discriminate|].
  cbn [fst] in *. intros [= ->].
  destruct (Hf SeekFailed eq_refl) as [|[|]]; discriminate.
Qed.

(** X12. Given a table entry that is a 64-bit value, iteration [i] exits
    with SeekFailed exactly when the entry is not [2^64 - 1] and is either
    [2^63] or more or beyond what the file system lets a file offset be; it
    has then made its [lseek] and nothing else: no [read], the file offset
    where it was. *)
Theorem seek_failed_iff (h : EifHeader) (i : nat) (st : locals) (w : world)
    (o : Z) :
  section_offsets h !! i = Some o ->
  0 <= o < 2^64 ->
  (fst (section_iter h i st w) = Exit SeekFailed
   <-> o <> UINT64_MAX /\ (2^63 <= o \/ s_maxbytes w < o))
  /\ (fst (section_iter h i st w) = Exit SeekFailed ->
      snd (section_iter h i st w)
      = log_syscall (SysLseek (int64_t o) (-1)) w).
Proof.
  intros Hoff Ho.
  destruct (seek_result_cases o w Ho)
    as [(H63 & Hmax & Hret & Hws)|(Hout & Hret & Hws)].
  - assert (Hpass : uint64_t (seek_result o w) = o)
      by (rewrite Hret; unfold uint64_t; apply Z.mod_small; lia).
    pose proof (section_iter_past_seek h i st w o Hoff Hpass) as Hnot.
    split; [split|]; [contradiction | lia | contradiction].
  - destruct (Z.eq_dec o UINT64_MAX) as [->|Hne].
    + assert (Hpass : uint64_t (seek_result UINT64_MAX w) = UINT64_MAX)
        by (rewrite Hret; reflexivity).
      pose proof (section_iter_past_seek h i st w _ Hoff Hpass) as Hnot.
      split; [split|]; [contradiction | tauto | contradiction].
    + assert (Hfail : uint64_t (seek_result o w) <> o).
      { rewrite Hret. change (uint64_t (-1)) with UINT64_MAX. congruence. }
      rewrite (section_iter_seek_failed h i st w o Hoff Hfail), Hws.
      split; [split|]; [intros _; split; [exact Hne|lia] | reflexivity
                       | reflexivity].
Qed.

Lemma seek_failed_iff_witness :
  let h := sample_header 1 [2^63] [0] in
  let st := (header_buf two_metadata_file, None) in
  let w := sample_world two_metadata_file in
  (fst (section_iter h 0 st w) = Exit SeekFailed
   <-> 2^63 <> UINT64_MAX /\ (2^63 <= 2^63 \/ s_maxbytes w < 2^63))
  /\ (fst (section_iter h 0 st w) = Exit SeekFailed ->
      snd (section_iter h 0 st w)
      = log_syscall (SysLseek (int64_t (2^63)) (-1)) w).
Proof.
  cbv zeta. apply seek_failed_iff.
  - reflexivity.
  - lia.
Defined.

(** X13. A table entry that points past the end of the file, or fewer than
    12 bytes before it, is not a seek failure: the [lseek] lands there, the
    [read] returns short, and the iteration exits with
    TruncatedSectionHeader, having printed nothing. *)
Theorem offset_past_end_is_truncated_header (h : EifHeader) (i : nat)
    (st : locals) (w : world) (o : Z) :
  section_offsets h !! i = Some o ->
  0 <= o < 2^63 ->
  o <= s_maxbytes w ->
  Z.of_nat (length (file_data w)) < o + 12 ->
  section_iter h i st w
  = (Exit TruncatedSectionHeader, after_read 12 (after_seek o w))
  /\ file_pos (after_seek o w) = o
  /\ stdout (after_read 12 (after_seek o w)) = stdout w.
Proof.
  intros Hoff Ho Hmax Hend. destruct st as [buf md].
  destruct (seek_result_cases o w ltac:(lia))
    as [(_ & _ & Hret & Hws)|(Hout & _)]; [|lia].
  rewrite section_iter_unfold, Hoff. cbv zeta. rewrite Hret.
  unfold uint64_t at 1. rewrite (Z.mod_small o) by lia.
  rewrite Z.eqb_refl. cbn [negb].
  pose proof (length_read_data 12 (after_seek o w)) as (_ & _ & Hlen).
  rewrite Hws in Hlen at 2 3.
  cbn [file_data file_pos log_syscall set_file_pos] in Hlen.
  destruct (Z.eqb_spec (Z.of_nat (length (read_data 12 (after_seek o w)))) 12);
    [lia|].
  cbn [negb]. split; [reflexivity|].
  rewrite Hws. split; reflexivity.
Qed.

Lemma offset_past_end_is_truncated_header_witness :
  let h := sample_header 2 [548; 5000] [0; 0] in
  let st := (header_buf truncated_file, None) in
  let w := sample_world truncated_file in
  section_iter h 1 st w
  = (Exit TruncatedSectionHeader, after_read 12 (after_seek 5000 w))
  /\ file_pos (after_seek 5000 w) = 5000
  /\ stdout (after_read 12 (after_seek 5000 w)) = stdout w.
Proof.
  cbv zeta. apply offset_past_end_is_truncated_header.
  - reflexivity.
  - lia.
  - vm_compute. discriminate.
  - vm_compute. reflexivity.
Defined.

(** ** The metadata block on every input *)

(** X14. What the metadata block does, by the size in the section header, the
    memory [malloc] grants, the bytes one [read] transfers and the bytes left
    in the file: AllocFailed when [malloc] refuses size + 1 bytes (taken
    modulo 2^64); a write before the start of an empty block when the size is
    [2^64 - 1]; TruncatedMetadata when size + 1 is [2^63] or more, or more
    than one [read] transfers, or more than the file has left; otherwise the
    payload and its terminator. *)
Theorem capture_metadata_outcome (sh : EifSectionHeader) (w : world) :
  0 <= section_size sh < 2^64 ->
  let size := section_size sh in
  let left :=
    Z.of_nat (length (file_data w) - Z.to_nat (file_pos w)) in
  fst (capture_metadata sh w) =
  if heap_free w <? uint64_t (size + 1) then Exit AllocFailed
  else if size =? UINT64_MAX then Exit OutOfBounds
  else if (2^63 <=? size + 1) || (max_rw_count w <? size + 1)
          || (left <? size + 1)
       then Exit TruncatedMetadata
  else Ok (payload_at (file_data w) (file_pos w) size ++ [x00]).
Proof.
  intros Hrange. cbv zeta.
  destruct (Z.ltb_spec (heap_free w) (uint64_t (section_size sh + 1)))
    as [Hheap|Hheap].
  { unfold capture_metadata, IO.bind, malloc.
    destruct (Z.leb_spec (uint64_t (section_size sh + 1)) (heap_free w));
      [lia|reflexivity]. }
  destruct (Z.eqb_spec (section_size sh) UINT64_MAX) as [Hmax|Hmax].
  { unfold capture_metadata, IO.bind, malloc. rewrite Hmax in *.
    change (uint64_t (UINT64_MAX + 1)) with 0 in *.
    destruct (Z.leb_spec 0 (heap_free w)); [|lia].
    rewrite read_eq. cbn [fst snd].
    assert (Hd : read_data 0 w = []).
    { unfold read_data.
      replace (Z.to_nat (Z.min 0 (max_rw_count w))) with 0%nat by lia.
      reflexivity. }
    rewrite Hd. reflexivity. }
  assert (Hsize : uint64_t (section_size sh + 1) = section_size sh + 1).
  { unfold uint64_t, UINT64_MAX in *. apply Z.mod_small. lia. }
  rewrite Hsize in Hheap.
  destruct ((2^63 <=? section_size sh + 1)
            || (max_rw_count w <? section_size sh + 1)
            || (Z.of_nat (length (file_data w) - Z.to_nat (file_pos w))
                <? section_size sh + 1)) eqn:Ebad.
  - unfold capture_metadata, IO.bind, malloc. rewrite Hsize.
    destruct (Z.leb_spec (section_size sh + 1) (heap_free w)); [|lia].
    rewrite read_eq. cbn [fst snd].
    pose proof (length_read_data (section_size sh + 1) w) as (_ & Hrw & Hlen).
    assert (Hne : Z.of_nat (length (read_data (section_size sh + 1) w))
                  <> int64_t (section_size sh + 1)).
    { unfold UINT64_MAX in Hmax. rewrite int64_t_u64 by lia.
      destruct (Z.ltb_spec (section_size sh + 1) (2^63)); [|lia].
      apply orb_true_iff in Ebad as [Ebad|Ebad];
        [apply orb_true_iff in Ebad as [Ebad|Ebad]|].
      - apply Z.leb_le in Ebad. lia.
      - apply Z.ltb_lt in Ebad. lia.
      - apply Z.ltb_lt in Ebad. lia. }
    destruct (Z.eqb_spec
                (Z.of_nat (length (read_data (section_size sh + 1) w)))
                (int64_t (section_size sh + 1))); [contradiction|].
    reflexivity.
  - apply orb_false_iff in Ebad as [Ebad E3].
    apply orb_false_iff in Ebad as [E1 E2].
    apply Z.leb_gt in E1. apply Z.ltb_ge in E2. apply Z.ltb_ge in E3.
    rewrite capture_metadata_complete by lia. reflexivity.
Qed.

Lemma capture_metadata_outcome_witness :
  let sh := mkEifSectionHeader 5 0 2 in
  let w := set_file_pos 560 (sample_world metadata_last_file) in
  let size := section_size sh in
  let left :=
    Z.of_nat (length (file_data w) - Z.to_nat (file_pos w)) in
  fst (capture_metadata sh w) =
  if heap_free w <? uint64_t (size + 1) then Exit AllocFailed
  else if size =? UINT64_MAX then Exit OutOfBounds
  else if (2^63 <=? size + 1) || (max_rw_count w <? size + 1)
          || (left <? size + 1)
       then Exit TruncatedMetadata
  else Ok (payload_at (file_data w) (file_pos w) size ++ [x00]).
Proof.
  apply (capture_metadata_outcome (mkEifSectionHeader 5 0 2)
           (set_file_pos 560 (sample_world metadata_last_file))).
  cbn. lia.
Defined.

(** ** Files the program accepts *)

Lemma section_readable_ext (w w' : world) (o : Z) :
  file_data w' = file_data w ->
  s_maxbytes w' = s_maxbytes w ->
  max_rw_count w' = max_rw_count w ->
  heap_free w' = heap_free w ->
  section_readable w o -> section_readable w' o.
Proof.
  unfold section_readable. intros -> -> -> ->. done.
Qed.

Lemma section_iter_completes (h : EifHeader) (i : nat) (st : locals)
    (w : world) (o d : Z) :
  section_offsets h !! i = Some o ->
  section_sizes h !! i = Some d ->
  section_readable w o ->
  exists st' w', section_iter h i st w = (Ok st', w').
Proof.
  intros Hoff Hsz (Ho & Hmax & Hrw & Hend & Hmeta). destruct st as [buf md].
  destruct (seek_result_cases o w ltac:(lia))
    as [(_ & _ & Hret & Hws)|(Hout & _)]; [|lia].
  rewrite section_iter_unfold, Hoff. cbv zeta. rewrite Hret.
  unfold uint64_t at 1. rewrite (Z.mod_small o) by lia.
  rewrite Z.eqb_refl. cbn [negb].
  destruct (read_data_available 12 (after_seek o w)) as [Hdata Hgot].
  { rewrite Hws. cbn [max_rw_count log_syscall set_file_pos]. lia. }
  { rewrite Hws. cbn [file_data file_pos log_syscall set_file_pos]. lia. }
  rewrite Hgot, Z.eqb_refl. cbn [negb]. rewrite Hsz.
  set (sh := layout_section_header (read_data 12 (after_seek o w))) in *.
  set (w3 := put_stdout (descriptor sh) (after_read 12 (after_seek o w))).
  set (w4 := if negb (d =? section_size sh)
             then put_stderr (Warning d (section_size sh)) w3 else w3).
  destruct (bool_decide (md = None) && (section_type sh =? 5)) eqn:Ecap;
    [|eauto].
  apply andb_true_iff in Ecap as [_ Etype]. apply Z.eqb_eq in Etype.
  assert (Hsh : sh = layout_section_header (payload_at (file_data w) o 12)).
  { subst sh. rewrite Hdata, Hws. reflexivity. }
  rewrite Hsh in Etype. destruct (Hmeta Etype) as (H63 & Hheap & Hrw' & Hav).
  rewrite <- Hsh in H63, Hheap, Hrw', Hav.
  pose proof (section_size_range (read_data 12 (after_seek o w))) as Hrange.
  fold sh in Hrange.
  assert (Hw4 : file_data w4 = file_data w /\ file_pos w4 = o + 12
                /\ heap_free w4 = heap_free w
                /\ max_rw_count w4 = max_rw_count w).
  { subst w4 w3. unfold after_read. rewrite Hgot, Hws.
    destruct (negb (d =? section_size sh)); repeat split; reflexivity. }
  destruct Hw4 as (Hfd & Hfp & Hhf & Hmr).
  rewrite capture_metadata_complete; [eauto|lia|lia|lia|lia|].
  rewrite Hfd, Hfp. lia.
Qed.

Lemma walk_loop_completes (h : EifHeader) (n i : nat) (st : locals)
    (w : world) :
  (forall j, (i <= j < i + n)%nat ->
     exists o d, section_offsets h !! j = Some o
                 /\ section_sizes h !! j = Some d
                 /\ section_readable w o) ->
  exists st' w', walk_loop h n i st w = (Ok st', w').
Proof.
  revert i st w. induction n as [|n IH]; intros i st w Hall.
  - cbn. unfold IO.ret. eauto.
  - cbn [walk_loop]. unfold IO.bind.
    destruct (Hall i ltac:(lia)) as (o & d & Ho & Hd & Hr).
    destruct (section_iter_completes h i st w o d Ho Hd Hr)
      as ([buf1 md1] & w1 & Eit).
    rewrite Eit. apply IH. intros j Hj.
    destruct (Hall j ltac:(lia)) as (o' & d' & Ho' & Hd' & Hr').
    exists o', d'. split; [exact Ho'|]. split; [exact Hd'|].
    destruct st as [buf md].
    apply section_iter_Ok in Eit
      as (_ & _ & _ & _ & _ & _ & _ & _ & _ & Hfd & Hsm & Hmr & Hhf & _).
    exact (section_readable_ext w w1 o' Hfd Hsm Hmr Hhf Hr').
Qed.

Lemma walk_sections_completes (h : EifHeader) (buf : list byte) (w : world) :
  section_cnt h <= 32 ->
  (Z.to_nat (section_cnt h) <= length (section_offsets h))%nat ->
  (Z.to_nat (section_cnt h) <= length (section_sizes h))%nat ->
  Forall (section_readable w)
    (take (Z.to_nat (section_cnt h)) (section_offsets h)) ->
  exists md w', walk_sections h buf w = (Ok md, w').
Proof.
  intros Hcnt Hlo Hls Hall. rewrite walk_sections_unfold.
  destruct (Z.leb_spec (section_cnt h) 32); [|lia].
  destruct (walk_loop_completes h (Z.to_nat (section_cnt h)) 0 (buf, None)
              (put_stdout OutSectionsBegin w)) as (st' & wl & ->); [|eauto].
  intros j Hj.
  destruct (lookup_lt_is_Some_2 (section_offsets h) j) as [o Ho]; [lia|].
  destruct (lookup_lt_is_Some_2 (section_sizes h) j) as [d Hd]; [lia|].
  exists o, d. split; [exact Ho|]. split; [exact Hd|].
  apply (section_readable_ext w); try reflexivity.
  rewrite Forall_lookup in Hall. apply (Hall j).
  rewrite lookup_take_lt by lia. exact Ho.
Qed.

(** X15. A sufficient condition for the program to run to its end: the
    header buffer is granted, the file holds 548 bytes from the file offset
    on, the section count read from them is at most 32, and each of the first
    [section_cnt] offsets of the table names a section the loop can visit.
    Then [parse_eif_file] returns, with no exit. *)
Theorem readable_file_is_parsed (w : world) :
  548 <= heap_free w ->
  548 <= max_rw_count w ->
  (Z.to_nat (file_pos w) + 548 <= length (file_data w))%nat ->
  let h := layout_header (payload_at (file_data w) (file_pos w) 548) in
  section_cnt h <= 32 ->
  Forall (section_readable w)
    (take (Z.to_nat (section_cnt h)) (section_offsets h)) ->
  exists md w', parse_eif_file w = (Ok md, w').
Proof.
  intros Hheap Hrw Hav h Hcnt Hall.
  destruct (read_data_available 548 w) as [Hdata Hgot]; [lia | lia |].
  rewrite parse_eif_file_unfold.
  destruct (Z.leb_spec 548 (heap_free w)); [|lia].
  cbv zeta. rewrite Hgot, Z.eqb_refl, Hdata. fold h.
  assert (Hlen : (548 <= length (payload_at (file_data w) (file_pos w) 548))%nat).
  { rewrite <- Hdata. lia. }
  pose proof (layout_header_in_range _ Hlen)
    as (_ & _ & _ & _ & _ & _ & _ & Hc & Hlo & _ & Hls & _).
  fold h in Hc, Hlo, Hls. unfold MAX_SECTIONS in Hlo, Hls.
  apply walk_sections_completes; [exact Hcnt | lia | lia |].
  eapply Forall_impl; [exact Hall|].
  intros o. apply section_readable_ext; reflexivity.
Qed.

Lemma readable_file_is_parsed_witness :
  exists md w', parse_eif_file (sample_world mismatch_file) = (Ok md, w').
Proof.
  apply (readable_file_is_parsed (sample_world mismatch_file)).
  - vm_compute. discriminate.
  - vm_compute. discriminate.
  - vm_compute. lia.
  - vm_compute. discriminate.
  - apply Forall_forall. intros o Ho.
    assert (Hcases : o = 548).
    { vm_compute in Ho. apply list_elem_of_singleton in Ho. exact Ho. }
    subst o. unfold section_readable.
    split; [lia|]. split; [vm_compute; discriminate|].
    split; [vm_compute; discriminate|]. split; [vm_compute; discriminate|].
    intros _. vm_compute. repeat split; discriminate.
Defined.

(** ** What is shown of the metadata *)

(** [%s] shows the bytes up to the first null byte. *)
Lemma c_string_split (l : list byte) :
  exists rest,
    l = c_string l ++ rest
    /\ ~ elem_of x00 (c_string l)
    /\ (rest = [] \/ exists r, rest = x00 :: r).
Proof.
  induction l as [|b l (rest & Hl & Hno & Hrest)].
  - exists []. split; [reflexivity|]. split; [apply not_elem_of_nil|by left].
  - cbn [c_string]. destruct (bool_decide_reflect (b = x00)) as [->|Hb].
    + exists (x00 :: l). split; [reflexivity|].
      split; [apply not_elem_of_nil|right; eauto].
    + exists rest. split; [cbn; by rewrite <- Hl|].
      split; [|exact Hrest].
      rewrite not_elem_of_cons. split; [congruence|exact Hno].
Qed.

Lemma c_string_terminated (l : list byte) :
  c_string (l ++ [x00]) = c_string l.
Proof.
  induction l as [|b l IH]; [reflexivity|].
  cbn [app c_string]. destruct (bool_decide (b = x00)); [reflexivity|].
  by rewrite IH.
Qed.

(** X16. The report of a walk that completes, by the descriptors it has
    printed. If none of them is metadata-typed, nothing is retained and the
    output ends with the closing line of the section list. If one is, and
    the first of them is that of section [k], the bytes behind the section
    header at [section_offsets[k]] are retained, as many as that descriptor
    says, and one more line follows the closing line: it shows that payload
    up to its first null byte, so a payload that holds a null byte is shown
    cut there, and only a payload free of null bytes is shown whole. *)
Theorem metadata_shown_up_to_first_null (h : EifHeader) (buf : list byte)
    (w : world) (md : option (list byte)) (w' : world) :
  walk_sections h buf w = (Ok md, w') ->
  exists ds,
    length ds = Z.to_nat (section_cnt h)
    /\ Forall (fun d => is_descriptor d = true) ds
    /\ match first_metadata ds with
       | None =>
           md = None
           /\ stdout w' = stdout w ++ OutSectionsBegin :: ds ++ [OutSectionsEnd]
       | Some (k, size) =>
           exists o pos payload shown rest,
             section_offsets h !! k = Some o
             /\ (o <> UINT64_MAX -> pos = o)
             /\ payload = payload_at (file_data w) (pos + 12) size
             /\ md = Some (payload ++ [x00])
             /\ Z.of_nat (length payload) = size
             /\ stdout w'
                = stdout w ++ OutSectionsBegin :: ds
                    ++ [OutSectionsEnd; OutMetadata shown]
             /\ payload = shown ++ rest
             /\ ~ elem_of x00 shown
             /\ (rest = [] \/ exists r, rest = x00 :: r)
       end.
Proof.
  rewrite walk_sections_unfold.
  destruct (section_cnt h <=? 32); [|discriminate].
  destruct (walk_loop _ _ _ _ _) as [[[buf' md']|f] wl] eqn:Eloop;
    [|discriminate].
  intros Hrun. cbn [snd] in Hrun.
  apply walk_loop_Ok in Eloop
    as (ds & cs & Hout & _ & Hlen & Hdesc & _ & Hmd).
  cbn [stdout put_stdout] in Hout.
  exists ds. split; [exact Hlen|]. split; [exact Hdesc|].
  destruct (first_metadata ds) as [[k size]|] eqn:Efirst.
  - destruct Hmd as (o & pos & Ho & Hpos & -> & Hplen & _).
    injection Hrun as <- <-.
    cbn [file_data put_stdout Nat.add] in Ho, Hplen |- *.
    set (payload := payload_at (file_data w) (pos + 12) size) in *.
    destruct (c_string_split payload) as (rest & Hsplit & Hno & Hrest).
    exists o, pos, payload, (c_string payload), rest.
    split; [exact Ho|]. split; [exact Hpos|]. split; [reflexivity|].
    split; [reflexivity|]. split; [exact Hplen|]. split; [|done].
    cbn [stdout put_stdout]. rewrite Hout, c_string_terminated.
    rewrite <- !app_assoc. reflexivity.
  - destruct Hmd as [-> _]. injection Hrun as <- <-.
    split; [reflexivity|].
    cbn [stdout put_stdout]. rewrite Hout, <- !app_assoc. reflexivity.
Qed.

Lemma metadata_shown_up_to_first_null_witness :
  let h := sample_header 1 [548] [10] in
  let r := walk_sections h (header_buf mismatch_file)
             (sample_world mismatch_file) in
  exists ds,
    length ds = Z.to_nat (section_cnt h)
    /\ Forall (fun d => is_descriptor d = true) ds
    /\ match first_metadata ds with
       | None =>
           fst r = Ok None
           /\ stdout (snd r) = OutSectionsBegin :: ds ++ [OutSectionsEnd]
       | Some (k, size) =>
           exists o pos payload shown rest,
             section_offsets h !! k = Some o
             /\ (o <> UINT64_MAX -> pos = o)
             /\ payload = payload_at mismatch_file (pos + 12) size
             /\ fst r = Ok (Some (payload ++ [x00]))
             /\ Z.of_nat (length payload) = size
             /\ stdout (snd r)
                = OutSectionsBegin :: ds
                    ++ [OutSectionsEnd; OutMetadata shown]
             /\ payload = shown ++ rest
             /\ ~ elem_of x00 shown
             /\ (rest = [] \/ exists r, rest = x00 :: r)
       end.
Proof.
  cbv zeta.
  destruct (walk_sections (sample_header 1 [548] [10])
              (header_buf mismatch_file) (sample_world mismatch_file))
    as [[md|f] w'] eqn:Erun; [|vm_compute in Erun; discriminate].
  cbn [fst snd].
  destruct (metadata_shown_up_to_first_null _ _ _ md w' Erun)
    as (ds & Hlen & Hdesc & Hrep).
  exists ds. split; [exact Hlen|]. split; [exact Hdesc|].
  destruct (first_metadata ds) as [[k size]|].
  - destruct Hrep as (o & pos & payload & shown & rest & Ho & Hpos & Hpay
                      & -> & Hrep).
    exists o, pos, payload, shown, rest.
    split; [exact Ho|]. split; [exact Hpos|]. split; [exact Hpay|].
    split; [reflexivity|exact Hrep].
  - destruct Hrep as [-> Hout]. split; [reflexivity|exact Hout].
Defined.

(** ** A file with an empty section table *)

(** X17. When the section count field (bytes 26-27) reads 0, the program
    reads the 548 header bytes and nothing else, whatever follows them in the
    file and whatever the two tables hold: it prints the header line and the
    two lines around the empty section list, retains no metadata, writes
    nothing to [stderr] and returns. *)
Theorem file_without_sections (w : world) :
  548 <= heap_free w ->
  548 <= max_rw_count w ->
  (Z.to_nat (file_pos w) + 548 <= length (file_data w))%nat ->
  field (payload_at (file_data w) (file_pos w) 548) 26 2 = 0 ->
  let h := layout_header (payload_at (file_data w) (file_pos w) 548) in
  exists w',
    parse_eif_file w = (Ok None, w')
    /\ stdout w'
       = stdout w ++ [header_line h; OutSectionsBegin; OutSectionsEnd]
    /\ stderr w' = stderr w
    /\ syscalls w' = syscalls w ++ [SysRead 548 548].
Proof.
  intros Hheap Hrw Hav Hcnt h.
  destruct (read_data_available 548 w) as [Hdata Hgot]; [lia | lia |].
  rewrite parse_eif_file_unfold.
  destruct (Z.leb_spec 548 (heap_free w)); [|lia].
  cbv zeta. rewrite Hgot, Z.eqb_refl, Hdata, walk_sections_unfold.
  fold h. assert (Hc : section_cnt h = 0) by exact Hcnt.
  rewrite Hc. cbn [Z.leb Z.compare Z.to_nat walk_loop].
  unfold IO.ret. cbn [snd].
  eexists. split; [reflexivity|].
  unfold after_read. rewrite Hgot.
  cbn [snd stdout stderr syscalls put_stdout log_syscall set_file_pos].
  rewrite <- !app_assoc. repeat split; reflexivity.
Qed.

Lemma file_without_sections_witness :
  let w := sample_world (encode_header (sample_header 0 [548] [2])
                         ++ section_bytes 5 2 [x7b; x7d]) in
  let h := layout_header (payload_at (file_data w) (file_pos w) 548) in
  exists w',
    parse_eif_file w = (Ok None, w')
    /\ stdout w'
       = stdout w ++ [header_line h; OutSectionsBegin; OutSectionsEnd]
    /\ stderr w' = stderr w
    /\ syscalls w' = syscalls w ++ [SysRead 548 548].
Proof.
  apply (file_without_sections
           (sample_world (encode_header (sample_header 0 [548] [2])
                          ++ section_bytes 5 2 [x7b; x7d]))).
  - vm_compute. discriminate.
  - vm_compute. discriminate.
  - vm_compute. lia.
  - vm_compute. reflexivity.
Defined.

(** ** The header buffer during the walk *)

(** X18. The loop reads every section header into the buffer that held the
    file header. Over any number of completed iterations the buffer keeps its
    length, and all but its first 12 bytes are left as the header read put
    them; after at least one iteration the first 12 bytes are a section
    header that lies in the file. *)
Theorem walk_reuses_header_buffer (h : EifHeader) (n i : nat)
    (buf : list byte) (md : option (list byte)) (w : world)
    (buf' : list byte) (md' : option (list byte)) (w' : world) :
  (12 <= length buf)%nat ->
  walk_loop h n i (buf, md) w = (Ok (buf', md'), w') ->
  length buf' = length buf
  /\ drop 12 buf' = drop 12 buf
  /\ (n = 0%nat -> buf' = buf)
  /\ ((0 < n)%nat ->
      exists pos, take 12 buf' = payload_at (file_data w) pos 12
                  /\ length (payload_at (file_data w) pos 12) = 12%nat).
Proof.
  revert i buf md w. induction n as [|n IH]; intros i buf md w Hlen Hrun.
  - cbn in Hrun. injection Hrun as <- <- <-.
    split; [reflexivity|]. split; [reflexivity|]. split; [reflexivity|lia].
  - cbn [walk_loop] in Hrun. unfold IO.bind in Hrun.
    destruct (section_iter h i (buf, md) w) as [[[buf1 md1]|f] w1] eqn:Eit;
      [|discriminate].
    apply section_iter_Ok in Eit
      as (o & d & _ & _ & _ & Hhdr & Hbuf1 & _ & _ & Hfd & _).
    cbv zeta in Hhdr, Hbuf1.
    set (hdr := payload_at (file_data w) (file_pos (after_seek o w)) 12) in *.
    assert (Hlen1 : length buf1 = length buf).
    { rewrite Hbuf1, length_app, length_drop. lia. }
    assert (Hdrop1 : drop 12 buf1 = drop 12 buf).
    { rewrite Hbuf1, drop_app_length'; [reflexivity|by rewrite Hhdr]. }
    destruct (IH (S i) buf1 md1 w1 ltac:(lia) Hrun) as (Hl & Hd & H0 & Hpos).
    split; [lia|]. split; [congruence|]. split; [lia|].
    intros _. destruct n as [|n].
    + rewrite (H0 eq_refl), Hbuf1. exists (file_pos (after_seek o w)).
      rewrite take_app_length'; [done|by rewrite Hhdr].
    + destruct (Hpos ltac:(lia)) as (pos & Htake & Hplen).
      exists pos. rewrite <- Hfd. done.
Qed.

Lemma walk_reuses_header_buffer_witness :
  let h := sample_header 2 [548; 562] [2; 3] in
  let w := sample_world two_metadata_file in
  let r := walk_loop h 2 0 (header_buf two_metadata_file, None) w in
  match fst r with
  | Ok (buf', _) =>
      length buf' = length (header_buf two_metadata_file)
      /\ drop 12 buf' = drop 12 (header_buf two_metadata_file)
      /\ (2%nat = 0%nat -> buf' = header_buf two_metadata_file)
      /\ ((0 < 2)%nat ->
          exists pos, take 12 buf' = payload_at (file_data w) pos 12
                      /\ length (payload_at (file_data w) pos 12) = 12%nat)
  | Exit _ => False
  end.
Proof.
  cbv zeta.
  destruct (walk_loop (sample_header 2 [548; 562] [2; 3]) 2 0
              (header_buf two_metadata_file, None)
              (sample_world two_metadata_file))
    as [[[buf' md']|f] w'] eqn:Erun; [|vm_compute in Erun; discriminate].
  cbn [fst].
  apply (walk_reuses_header_buffer (sample_header 2 [548; 562] [2; 3]) 2 0
           (header_buf two_metadata_file) None
           (sample_world two_metadata_file) buf' md' w');
    [vm_compute; lia | exact Erun].
Defined.

(** * The byte read beyond the metadata payload *)

Lemma after_seek_file_pos (o : Z) (w : world) :
  file_pos (after_seek o w)
  = if (0 <=? int64_t o) && (int64_t o <=? s_maxbytes w)
    then int64_t o else file_pos w.
Proof. unfold after_seek, lseek. destruct (_ && _); reflexivity. Qed.

Lemma after_seek_static (o : Z) (w : world) :
  file_data (after_seek o w) = file_data w
  /\ s_maxbytes (after_seek o w) = s_maxbytes w
  /\ max_rw_count (after_seek o w) = max_rw_count w
  /\ heap_free (after_seek o w) = heap_free w.
Proof. unfold after_seek, lseek. destruct (_ && _); repeat split. Qed.

Lemma walk_loop_app_Ok (h : EifHeader) (k n i : nat) (st st' : locals)
    (w w' : world) :
  walk_loop h (k + n) i st w = (Ok st', w') ->
  exists st1 w1,
    walk_loop h k i st w = (Ok st1, w1)
    /\ walk_loop h n (i + k) st1 w1 = (Ok st', w').
Proof.
  rewrite walk_loop_app.
  destruct (walk_loop h k i st w) as [[st1|f] w1]; [eauto|discriminate].
Qed.

Section SameFileButByte.
Variables (p : Z) (w wB : world).
Hypothesis Hsame : same_file_but_byte p w wB.

Lemma sfb_shape : same_shape w wB.
Proof.
  destruct Hsame as (_ & _ & [b Hb] & ? & ? & ? & ?).
  repeat split; try done. rewrite Hb. by rewrite length_insert.
Qed.

Lemma sfb_after_seek (o : Z) :
  same_file_but_byte p (after_seek o w) (after_seek o wB).
Proof.
  destruct Hsame as (? & ? & ? & ? & Hmax & ? & ?).
  unfold after_seek, lseek. rewrite <- Hmax.
  destruct ((0 <=? int64_t o) && (int64_t o <=? s_maxbytes w)) eqn:E;
    unfold same_file_but_byte; cbn; repeat split; try done.
  apply andb_true_iff in E as [E _]. by apply Z.leb_le in E.
Qed.

Lemma sfb_after_read (count : Z) :
  same_file_but_byte p (after_read count w) (after_read count wB).
Proof.
  pose proof (shape_length_read_data count w wB sfb_shape) as Hlen.
  destruct Hsame as (? & ? & ? & Hpos & ? & ? & ?).
  unfold after_read, same_file_but_byte. rewrite Hlen, <- Hpos. cbn.
  repeat split; try done. lia.
Qed.

Lemma sfb_put_stdout (l l' : out_line) :
  same_file_but_byte p (put_stdout l w) (put_stdout l' wB).
Proof.
  destruct Hsame as (? & ? & ? & ? & ? & ? & ?).
  unfold same_file_but_byte. cbn. repeat split; done.
Qed.

Lemma sfb_prints (l l' : out_line) (b b' : bool) (e e' : err_line) :
  same_file_but_byte p
    (if b then put_stderr e (put_stdout l w) else put_stdout l w)
    (if b' then put_stderr e' (put_stdout l' wB) else put_stdout l' wB).
Proof.
  destruct Hsame as (? & ? & ? & ? & ? & ? & ?).
  destruct b, b'; unfold same_file_but_byte; cbn; repeat split; done.
Qed.

Lemma sfb_read_data (count : Z) :
  ~ (file_pos w <= p < file_pos w + count) ->
  read_data count wB = read_data count w.
Proof.
  intros Hout.
  destruct Hsame as (Hp & Hpos0 & [b Hb] & Hpos & _ & Hrw & _).
  rewrite !read_data_payload, Hb, <- Hpos, <- Hrw.
  apply payload_at_insert. lia.
Qed.

Lemma sfb_payload_at (pos size : Z) :
  0 <= pos ->
  ~ (pos <= p < pos + size) ->
  payload_at (file_data wB) pos size = payload_at (file_data w) pos size.
Proof.
  intros Hpos0 Hout. destruct Hsame as (Hp & _ & [b Hb] & _).
  rewrite Hb. apply payload_at_insert. lia.
Qed.
End SameFileButByte.

Lemma sfb_of_same_but_byte (p : Z) (w wB : world) :
  same_but_byte p w wB -> 0 <= file_pos w -> same_file_but_byte p w wB.
Proof.
  intros (? & ? & ? & ? & ? & ? & _) ?. repeat split; done.
Qed.

(** The 12 bytes a section header read has returned. *)
Lemma read_section_header_at (w : world) :
  Z.of_nat (length (read_data 12 w)) = 12 ->
  layout_section_header (read_data 12 w)
  = section_header_at (file_data w) (file_pos w).
Proof.
  intros Hgot. destruct (read_data_full 12 w ltac:(lia) Hgot) as [-> _].
  reflexivity.
Qed.

(** The block does not show the byte that follows the payload. *)
Lemma capture_metadata_sim (sh : EifSectionHeader) (p : Z) (w wB : world)
    (m : list byte) (w1 : world) :
  same_file_but_byte p w wB ->
  0 <= section_size sh < 2^64 ->
  ~ (file_pos w <= p < file_pos w + section_size sh) ->
  capture_metadata sh w = (Ok m, w1) ->
  m = payload_at (file_data w) (file_pos w) (section_size sh) ++ [x00]
  /\ exists w1B,
       capture_metadata sh wB = (Ok m, w1B) /\ same_file_but_byte p w1 w1B.
Proof.
  intros Hsame Hrange Hout Hrun.
  pose proof (capture_metadata_Ok sh w m w1 Hrange Hrun)
    as (Hm & Hplen & Hav & Hheap & Hrw & H63 & _).
  cbv zeta in Hm. split; [exact Hm|].
  rewrite capture_metadata_complete in Hrun by lia.
  injection Hrun as <- <-.
  exists (after_read (section_size sh + 1) wB).
  split; [|by apply sfb_after_read].
  pose proof (sfb_shape p w wB Hsame) as (Hlen & _).
  pose proof (sfb_payload_at p w wB Hsame (file_pos w) (section_size sh))
    as Hpay.
  destruct Hsame as (Hp & Hpos0 & _ & Hfp & _ & Hrwc & Hhf).
  rewrite capture_metadata_complete; try lia.
  rewrite <- Hfp, Hpay by lia. reflexivity.
Qed.

(** An iteration before the capture: the section header it reads may hold
    the changed byte, as long as it is not metadata-typed in either file. *)
Lemma section_iter_skip_sim (hA hB : EifHeader) (i : nat)
    (bufA bufB : list byte) (p : Z) (w wB : world)
    (stA : locals) (w1 : world) (o : Z) :
  same_file_but_byte p w wB ->
  section_offsets hA !! i = Some o ->
  section_offsets hB !! i = Some o ->
  is_Some (section_sizes hB !! i) ->
  section_iter hA i (bufA, None) w = (Ok stA, w1) ->
  section_type (section_header_at (file_data w) (file_pos (after_seek o w)))
  <> 5 ->
  section_type (section_header_at (file_data wB) (file_pos (after_seek o w)))
  <> 5 ->
  snd stA = None
  /\ file_pos w1 = file_pos (after_seek o w) + 12
  /\ s_maxbytes w1 = s_maxbytes w
  /\ file_data w1 = file_data w
  /\ exists stB w1B,
       section_iter hB i (bufB, None) wB = (Ok stB, w1B)
       /\ snd stB = None
       /\ file_data w1B = file_data wB
       /\ same_file_but_byte p w1 w1B.
Proof.
  intros Hsame HoA HoB [dB HdB] Hrun HtA HtB.
  rewrite section_iter_unfold in Hrun |- *.
  rewrite HoA in Hrun. rewrite HoB, HdB. cbv zeta in *.
  pose proof (sfb_shape p w wB Hsame) as Hshape.
  pose proof (sfb_after_seek p w wB Hsame o) as Hs1.
  pose proof (sfb_shape p _ _ Hs1) as Hshape1.
  pose proof (after_seek_static o w) as (Hfd1 & Hsm1 & _).
  pose proof (after_seek_static o wB) as (Hfd1B & _).
  rewrite (shape_seek_result o w wB Hshape).
  destruct (negb (uint64_t (seek_result o w) =? o)); [discriminate|].
  rewrite (shape_length_read_data 12 _ _ Hshape1).
  destruct (Z.eqb_spec (Z.of_nat (length (read_data 12 (after_seek o w)))) 12)
    as [Hgot|]; [|discriminate].
  cbn [negb] in *.
  assert (HgotB : Z.of_nat (length (read_data 12 (after_seek o wB))) = 12).
  { rewrite (shape_length_read_data 12 _ _ Hshape1). exact Hgot. }
  rewrite (read_section_header_at _ Hgot), Hfd1 in Hrun.
  rewrite (read_section_header_at _ HgotB), Hfd1B.
  assert (HposB : file_pos (after_seek o wB) = file_pos (after_seek o w)).
  { by destruct Hs1 as (_ & _ & _ & <- & _). }
  rewrite HposB.
  set (shA := section_header_at (file_data w) _) in *.
  set (shB := section_header_at (file_data wB) _) in *.
  destruct (section_sizes hA !! i) as [dA|]; [|discriminate].
  destruct (Z.eqb_spec (section_type shA) 5) as [|_]; [contradiction|].
  destruct (Z.eqb_spec (section_type shB) 5) as [|_]; [contradiction|].
  rewrite andb_false_r in Hrun |- *.
  injection Hrun as <- <-. cbn [snd].
  split; [reflexivity|].
  split.
  { unfold after_read. rewrite Hgot. destruct (negb _); reflexivity. }
  split.
  { rewrite <- Hsm1. unfold after_read. destruct (negb _); reflexivity. }
  split.
  { rewrite <- Hfd1. unfold after_read. destruct (negb _); reflexivity. }
  eexists _, _. split; [reflexivity|]. split; [reflexivity|].
  split.
  { rewrite <- Hfd1B. unfold after_read. destruct (negb _); reflexivity. }
  apply sfb_prints, sfb_after_read. exact Hs1.
Qed.

(** The capturing iteration: its section header and its payload lie before
    the changed byte. *)
Lemma section_iter_capture_sim (hA hB : EifHeader) (i : nat)
    (bufA bufB : list byte) (p : Z) (w wB : world)
    (stA : locals) (w1 : world) (o : Z) :
  same_file_but_byte p w wB ->
  section_offsets hA !! i = Some o ->
  section_offsets hB !! i = Some o ->
  is_Some (section_sizes hB !! i) ->
  section_iter hA i (bufA, None) w = (Ok stA, w1) ->
  let q := file_pos (after_seek o w) in
  section_type (section_header_at (file_data w) q) = 5 ->
  p = q + 12 + section_size (section_header_at (file_data w) q) ->
  exists m,
    snd stA = Some m
    /\ m = payload_at (file_data w) (q + 12)
             (section_size (section_header_at (file_data w) q)) ++ [x00]
    /\ exists stB w1B,
         section_iter hB i (bufB, None) wB = (Ok stB, w1B)
         /\ snd stB = Some m
         /\ same_shape w1 w1B.
Proof.
  intros Hsame HoA HoB [dB HdB] Hrun q HtA Hp.
  rewrite section_iter_unfold in Hrun |- *.
  rewrite HoA in Hrun. rewrite HoB, HdB. cbv zeta in *.
  pose proof (sfb_shape p w wB Hsame) as Hshape.
  pose proof (sfb_after_seek p w wB Hsame o) as Hs1.
  pose proof (after_seek_static o w) as (Hfd1 & _).
  rewrite (shape_seek_result o w wB Hshape).
  destruct (negb (uint64_t (seek_result o w) =? o)); [discriminate|].
  assert (Hq0 : 0 <= q) by (by destruct Hs1 as (_ & ? & _)).
  pose proof (section_size_range (payload_at (file_data w) q 12)) as Hsize.
  fold (section_header_at (file_data w) q) in Hsize.
  rewrite (sfb_read_data p _ _ Hs1 12) by (fold q; lia).
  destruct (Z.eqb_spec (Z.of_nat (length (read_data 12 (after_seek o w)))) 12)
    as [Hgot|]; [|discriminate].
  cbn [negb] in *.
  rewrite (read_section_header_at _ Hgot), Hfd1 in Hrun |- *.
  fold q in Hrun |- *.
  set (sh := section_header_at (file_data w) q) in *.
  destruct (section_sizes hA !! i) as [dA|]; [|discriminate].
  rewrite HtA in Hrun |- *. cbn [bool_decide decide_rel andb Z.eqb] in *.
  rewrite bool_decide_true in Hrun |- * by reflexivity. cbn [andb] in *.
  pose proof (sfb_after_read p _ _ Hs1 12) as Hs2.
  pose proof (sfb_prints p _ _ Hs2 (descriptor sh) (descriptor sh)
                (negb (dA =? section_size sh)) (negb (dB =? section_size sh))
                (Warning dA (section_size sh)) (Warning dB (section_size sh)))
    as Hs4.
  set (w4 := if negb (dA =? section_size sh) then _ else _) in *.
  set (w4B := if negb (dB =? section_size sh) then _ else _) in *.
  assert (Hw4 : file_pos w4 = q + 12 /\ file_data w4 = file_data w).
  { subst w4. unfold after_read. rewrite Hgot, <- Hfd1.
    destruct (negb (dA =? section_size sh)); split; reflexivity. }
  destruct Hw4 as [Hw4pos Hw4fd].
  destruct (capture_metadata sh w4) as [[m|f] w5] eqn:Ecapt; [|discriminate].
  injection Hrun as <- <-. cbn [snd].
  destruct (capture_metadata_sim sh p w4 w4B m w5 Hs4 Hsize) as
    (Hm & w5B & HB & Hs5); [rewrite Hw4pos; lia | exact Ecapt |].
  rewrite Hw4pos, Hw4fd in Hm.
  exists m. split; [reflexivity|]. split; [exact Hm|].
  rewrite HB. eexists _, _. split; [reflexivity|]. split; [reflexivity|].
  exact (sfb_shape p _ _ Hs5).
Qed.

(** Once the metadata is retained, an iteration depends on the file only
    through its length, and on the header only through the table entry. *)
Lemma section_iter_retained (hA hB : EifHeader) (i : nat)
    (bufA bufB m : list byte) (w wB : world) (stA : locals) (w1 : world) :
  same_shape w wB ->
  section_offsets hB !! i = section_offsets hA !! i ->
  is_Some (section_sizes hB !! i) ->
  section_iter hA i (bufA, Some m) w = (Ok stA, w1) ->
  snd stA = Some m
  /\ exists bufB' w1B,
       section_iter hB i (bufB, Some m) wB = (Ok (bufB', Some m), w1B)
       /\ same_shape w1 w1B.
Proof.
  intros Hs Ho [dB HdB] Hrun.
  rewrite section_iter_unfold in Hrun |- *. rewrite Ho, HdB.
  destruct (section_offsets hA !! i) as [o|]; [|discriminate].
  cbv zeta in *. rewrite (shape_seek_result o w wB Hs).
  destruct (negb (uint64_t (seek_result o w) =? o)); [discriminate|].
  pose proof (shape_after_seek o w wB Hs) as Hs1.
  rewrite (shape_length_read_data 12 _ _ Hs1).
  destruct (negb (Z.of_nat (length (read_data 12 (after_seek o w))) =? 12));
    [discriminate|].
  destruct (section_sizes hA !! i) as [d|]; [|discriminate].
  rewrite bool_decide_false in Hrun |- * by discriminate.
  cbn [andb] in *. injection Hrun as <- <-.
  split; [reflexivity|]. eexists _, _. split; [reflexivity|].
  apply shape_prints, shape_after_read. exact Hs1.
Qed.

Lemma walk_loop_retained (hA hB : EifHeader) (n i : nat)
    (bufA bufB m : list byte) (w wB : world) (stA : locals) (w1 : world) :
  same_shape w wB ->
  (forall j, (i <= j < i + n)%nat ->
             section_offsets hB !! j = section_offsets hA !! j
             /\ is_Some (section_sizes hB !! j)) ->
  walk_loop hA n i (bufA, Some m) w = (Ok stA, w1) ->
  snd stA = Some m
  /\ exists stB w1B,
       walk_loop hB n i (bufB, Some m) wB = (Ok stB, w1B)
       /\ snd stB = Some m.
Proof.
  revert i bufA bufB w wB. induction n as [|n IH];
    intros i bufA bufB w wB Hs Htab Hrun.
  - cbn in Hrun. injection Hrun as <- <-.
    split; [reflexivity|]. eexists _, _. split; reflexivity.
  - cbn [walk_loop] in Hrun |- *. unfold IO.bind in Hrun |- *.
    destruct (section_iter hA i (bufA, Some m) w) as [[st1|f] w1'] eqn:Eit;
      [|discriminate].
    destruct (Htab i ltac:(lia)) as [Ho Hd].
    destruct (section_iter_retained hA hB i bufA bufB m w wB st1 w1'
                Hs Ho Hd Eit) as (Hst1 & bufB' & w1B & HB & Hs').
    destruct st1 as [buf1 md1]. cbn [snd] in Hst1. subst md1.
    rewrite HB. apply (IH (S i) buf1 bufB' w1' w1B Hs'); [|exact Hrun].
    intros j Hj. apply Htab. lia.
Qed.

(** The iterations up to and with the capturing one. *)
Lemma walk_loop_to_capture (hA hB : EifHeader) (k i : nat)
    (bufA bufB : list byte) (p : Z) (w wB : world)
    (stA : locals) (w1 : world) (q : Z) :
  same_file_but_byte p w wB ->
  (forall j, (i <= j < i + S k)%nat ->
             section_offsets hB !! j = section_offsets hA !! j
             /\ is_Some (section_sizes hB !! j)) ->
  let qs := header_positions (s_maxbytes w) (file_pos w)
              (drop i (section_offsets hA)) in
  (forall j qj, (j < k)%nat -> qs !! j = Some qj ->
     section_type (section_header_at (file_data w) qj) <> 5
     /\ section_type (section_header_at (file_data wB) qj) <> 5) ->
  qs !! k = Some q ->
  section_type (section_header_at (file_data w) q) = 5 ->
  p = q + 12 + section_size (section_header_at (file_data w) q) ->
  walk_loop hA (S k) i (bufA, None) w = (Ok stA, w1) ->
  exists m stB w1B,
    snd stA = Some m
    /\ m = payload_at (file_data w) (q + 12)
             (section_size (section_header_at (file_data w) q)) ++ [x00]
    /\ walk_loop hB (S k) i (bufB, None) wB = (Ok stB, w1B)
    /\ snd stB = Some m
    /\ same_shape w1 w1B.
Proof.
  revert i bufA bufB w wB. induction k as [|k IH];
    intros i bufA bufB w wB Hsame Htab qs Hskip Hq Hty Hp Hrun.
  - cbn [walk_loop] in Hrun |- *. unfold IO.bind, IO.ret in Hrun |- *.
    destruct (section_iter hA i (bufA, None) w) as [[st1|f] w1'] eqn:Eit;
      [|discriminate].
    injection Hrun as <- <-.
    destruct (section_offsets hA !! i) as [o|] eqn:HoA;
      [|rewrite section_iter_unfold, HoA in Eit; discriminate].
    destruct (Htab i ltac:(lia)) as [HoB Hd]. rewrite HoA in HoB.
    subst qs. rewrite (drop_S _ _ _ HoA) in Hq. cbn in Hq.
    rewrite <- after_seek_file_pos in Hq. injection Hq as <-.
    destruct (section_iter_capture_sim hA hB i bufA bufB p w wB st1 w1' o
                Hsame HoA HoB Hd Eit Hty Hp)
      as (m & Hm1 & Hm & stB & w1B & HB & HstB & Hshape).
    exists m, stB, w1B. rewrite HB. done.
  - cbn [walk_loop] in Hrun |- *. unfold IO.bind in Hrun |- *.
    destruct (section_iter hA i (bufA, None) w) as [[st1|f] w1'] eqn:Eit;
      [|discriminate].
    destruct (section_offsets hA !! i) as [o|] eqn:HoA;
      [|rewrite section_iter_unfold, HoA in Eit; discriminate].
    destruct (Htab i ltac:(lia)) as [HoB Hd]. rewrite HoA in HoB.
    subst qs. rewrite (drop_S _ _ _ HoA) in Hskip, Hq.
    cbn [header_positions] in Hskip, Hq. cbv zeta in Hskip, Hq.
    rewrite <- after_seek_file_pos in Hskip, Hq.
    destruct (Hskip 0%nat _ ltac:(lia) eq_refl) as [HtA HtB].
    destruct (section_iter_skip_sim hA hB i bufA bufB p w wB st1 w1' o
                Hsame HoA HoB Hd Eit HtA HtB)
      as (Hst1 & Hpos1 & Hsm1 & Hfd1 & stB & w1B & HB & HstB & HfdB & Hs1).
    destruct st1 as [buf1 md1]. cbn [snd] in Hst1. subst md1.
    destruct stB as [bufB1 mdB1]. cbn [snd] in HstB. subst mdB1.
    rewrite HB. rewrite <- Hfd1.
    apply (IH (S i) buf1 bufB1 w1' w1B Hs1).
    + intros j Hj. apply Htab. lia.
    + rewrite Hfd1, HfdB, Hsm1, Hpos1. intros j qj Hj Hqj.
      apply (Hskip (S j) qj ltac:(lia)). exact Hqj.
    + rewrite Hsm1, Hpos1. exact Hq.
    + rewrite Hfd1. exact Hty.
    + rewrite Hfd1. exact Hp.
    + exact Hrun.
Qed.

Lemma header_positions_nonneg (smax : Z) (offs : list Z) (pos : Z)
    (j : nat) (q : Z) :
  0 <= pos -> header_positions smax pos offs !! j = Some q -> 0 <= q.
Proof.
  revert pos j. induction offs as [|o offs IH]; intros pos j Hpos Hq;
    [discriminate|].
  cbn [header_positions] in Hq. cbv zeta in Hq.
  set (q0 := if (0 <=? int64_t o) && (int64_t o <=? smax)
             then int64_t o else pos) in *.
  assert (0 <= q0).
  { subst q0. destruct (Z.leb_spec 0 (int64_t o)); cbn [andb]; [|lia].
    destruct (int64_t o <=? smax); lia. }
  destruct j as [|j]; [injection Hq as <-; lia|].
  apply (IH (q0 + 12) j); [lia|exact Hq].
Qed.

Lemma header_positions_prefix (smax : Z) (n : nat) (offsA offsB : list Z)
    (pos : Z) (j : nat) :
  take n offsB = take n offsA -> (j < n)%nat ->
  header_positions smax pos offsB !! j = header_positions smax pos offsA !! j.
Proof.
  revert offsA offsB pos j.
  induction n as [|n IH]; intros offsA offsB pos j Htake Hj; [lia|].
  destruct offsA as [|a offsA], offsB as [|b offsB]; try discriminate;
    [reflexivity|].
  cbn [take] in Htake. injection Htake as -> Htake.
  cbn [header_positions]. cbv zeta.
  destruct j as [|j]; [reflexivity|].
  cbn [lookup list_lookup]. apply IH; [exact Htake|lia].
Qed.

Lemma sfb_refl (p : Z) (w : world) :
  0 <= p -> 0 <= file_pos w -> same_file_but_byte p w w.
Proof.
  intros Hp Hpos. repeat split; try done.
  destruct (file_data w !! Z.to_nat p) as [b|] eqn:E.
  - exists b. symmetry. by apply list_insert_id.
  - exists x00. symmetry. apply list_insert_ge. by apply lookup_ge_None.
Qed.

(** A complete parse is a complete run of the loop over the header that the
    first 548 bytes give. *)
Lemma parse_eif_file_Ok (w : world) (md : option (list byte)) (w' : world) :
  parse_eif_file w = (Ok md, w') ->
  let buf := payload_at (file_data w) (file_pos w) 548 in
  let h := layout_header buf in
  let w1 := put_stdout OutSectionsBegin
              (put_stdout (header_line h) (after_read 548 w)) in
  exists st wl,
    walk_loop h (Z.to_nat (section_cnt h)) 0 (buf, None) w1 = (Ok st, wl)
    /\ md = snd st
    /\ stdout w'
       = stdout wl ++ OutSectionsEnd
           :: match md with
              | Some m => [OutMetadata (c_string m)]
              | None => []
              end
    /\ file_pos w1 = file_pos w + 548
    /\ section_cnt h <= 32
    /\ length (section_sizes h) = 32%nat.
Proof.
  intros Hrun buf h w1.
  rewrite parse_eif_file_unfold in Hrun.
  destruct (548 <=? heap_free w); [|discriminate].
  cbv zeta in Hrun.
  destruct (Z.eqb_spec (Z.of_nat (length (read_data 548 w))) 548)
    as [Hgot|]; [|discriminate].
  destruct (read_data_full 548 w ltac:(lia) Hgot) as [Hdata _].
  rewrite Hdata in Hrun. fold buf h in Hrun.
  assert (Hlen : (548 <= length buf)%nat) by (subst buf; rewrite <- Hdata; lia).
  pose proof (layout_header_in_range buf Hlen)
    as (_ & _ & _ & _ & _ & _ & _ & _ & _ & _ & Hls & _).
  rewrite walk_sections_unfold in Hrun.
  destruct (Z.leb_spec (section_cnt h) 32) as [Hle|]; [|discriminate].
  fold w1 in Hrun.
  destruct (walk_loop h (Z.to_nat (section_cnt h)) 0 (buf, None) w1)
    as [[st|f] wl]; [|discriminate].
  injection Hrun as <- <-. exists st, wl.
  split; [reflexivity|]. split; [reflexivity|].
  split.
  { destruct (snd st); cbn [stdout put_stdout]; rewrite <- ?app_assoc;
      reflexivity. }
  split; [subst w1; unfold after_read; rewrite Hgot; reflexivity|].
  split; [exact Hle|exact Hls].
Qed.

(** What a complete parse retains: the payload behind the first
    metadata-typed section header it reads. *)
Lemma parse_captures_at (w : world) (md : option (list byte)) (w' : world)
    (k : nat) (q : Z) :
  parse_eif_file w = (Ok md, w') ->
  0 <= file_pos w ->
  let h := layout_header (payload_at (file_data w) (file_pos w) 548) in
  let qs := header_positions (s_maxbytes w) (file_pos w + 548)
              (section_offsets h) in
  (k < Z.to_nat (section_cnt h))%nat ->
  qs !! k = Some q ->
  section_type (section_header_at (file_data w) q) = 5 ->
  (forall j qj, (j < k)%nat -> qs !! j = Some qj ->
     section_type (section_header_at (file_data w) qj) <> 5) ->
  let m := payload_at (file_data w) (q + 12)
             (section_size (section_header_at (file_data w) q)) ++ [x00] in
  md = Some m
  /\ last (stdout w') = Some (OutMetadata (c_string m)).
Proof.
  intros Hrun Hpos0 h qs Hk Hq Hty Hskip m.
  destruct (parse_eif_file_Ok w md w' Hrun)
    as (st & wl & Eloop & Hmd & Hout & Hfp1 & Hle & Hls).
  cbv zeta in Eloop, Hfp1, Hle, Hls. fold h in Eloop, Hfp1, Hle, Hls.
  set (buf := payload_at (file_data w) (file_pos w) 548) in *.
  set (w1 := put_stdout OutSectionsBegin
               (put_stdout (header_line h) (after_read 548 w))) in *.
  assert (Hq0 : 0 <= q).
  { apply (header_positions_nonneg (s_maxbytes w) (section_offsets h)
             (file_pos w + 548) k q); [lia|exact Hq]. }
  pose proof (section_size_range (payload_at (file_data w) q 12)) as Hsize.
  fold (section_header_at (file_data w) q) in Hsize.
  set (p := q + 12 + section_size (section_header_at (file_data w) q)).
  replace (Z.to_nat (section_cnt h))
    with (S k + (Z.to_nat (section_cnt h) - S k))%nat in Eloop by lia.
  apply walk_loop_app_Ok in Eloop as ([buf1 md1] & wk & Epre & Epost).
  destruct (walk_loop_to_capture h h k 0 buf buf p w1 w1 (buf1, md1) wk q)
    as (m' & _ & _ & Hst1 & Hm' & _); try done.
  { apply sfb_refl; [lia|rewrite Hfp1; lia]. }
  { intros j Hj. split; [reflexivity|].
    apply lookup_lt_is_Some_2. lia. }
  { rewrite Hfp1. intros j qj Hj Hqj. split; exact (Hskip j qj Hj Hqj). }
  { rewrite Hfp1. exact Hq. }
  cbn [snd] in Hst1. subst md1.
  destruct st as [bufn mdn].
  apply walk_loop_Ok in Epost as (_ & _ & _ & _ & _ & _ & _ & [-> _]).
  cbn [snd] in Hmd. subst md. fold m in Hm'. subst m'.
  split; [reflexivity|]. rewrite Hout.
  transitivity
    (last ((stdout wl ++ [OutSectionsEnd]) ++ [OutMetadata (c_string m)]));
    [by rewrite <- app_assoc|apply last_snoc].
Qed.

(** With the same section count and the same offsets within the count, and
    no section header before the capturing one metadata-typed in the second
    file, the second file is parsed to the end as the first is. *)
Lemma parse_completes_alike (p : Z) (w wB : world) (k : nat) (q : Z)
    (md : option (list byte)) (w' : world) :
  same_but_byte p w wB ->
  0 <= file_pos w ->
  parse_eif_file w = (Ok md, w') ->
  let hA := layout_header (payload_at (file_data w) (file_pos w) 548) in
  let hB := layout_header (payload_at (file_data wB) (file_pos w) 548) in
  let cnt := Z.to_nat (section_cnt hA) in
  let qs := header_positions (s_maxbytes w) (file_pos w + 548)
              (section_offsets hA) in
  (k < cnt)%nat ->
  qs !! k = Some q ->
  section_type (section_header_at (file_data w) q) = 5 ->
  (forall j qj, (j < k)%nat -> qs !! j = Some qj ->
     section_type (section_header_at (file_data w) qj) <> 5) ->
  p = q + 12 + section_size (section_header_at (file_data w) q) ->
  section_cnt hB = section_cnt hA ->
  take cnt (section_offsets hB) = take cnt (section_offsets hA) ->
  (forall j qj, (j < k)%nat -> qs !! j = Some qj ->
     section_type (section_header_at (file_data wB) qj) <> 5) ->
  exists m wB',
    md = Some m
    /\ m = payload_at (file_data w) (q + 12)
             (section_size (section_header_at (file_data w) q)) ++ [x00]
    /\ last m = Some x00
    /\ parse_eif_file wB = (Ok (Some m), wB')
    /\ last (stdout w') = Some (OutMetadata (c_string m))
    /\ last (stdout wB') = Some (OutMetadata (c_string m)).
Proof.
  intros Hsbb Hpos0 Hrun hA hB cnt qs Hk Hq Hty HskipA Hp Hcnt Hoffs HskipB.
  pose proof (sfb_of_same_but_byte p w wB Hsbb Hpos0) as Hsame.
  pose proof (sfb_shape p w wB Hsame) as Hshape.
  pose proof Hshape as (_ & HposB & _ & _ & Hheap).
  (* the header read, in both files *)
  rewrite parse_eif_file_unfold in Hrun |- *. rewrite <- Hheap.
  destruct (548 <=? heap_free w); [|discriminate].
  cbv zeta in Hrun |- *.
  rewrite (shape_length_read_data 548 w wB Hshape).
  destruct (Z.eqb_spec (Z.of_nat (length (read_data 548 w))) 548)
    as [Hgot|]; [|discriminate].
  assert (HgotB : Z.of_nat (length (read_data 548 wB)) = 548).
  { rewrite (shape_length_read_data 548 w wB Hshape). exact Hgot. }
  destruct (read_data_full 548 w ltac:(lia) Hgot) as [Hdata _].
  destruct (read_data_full 548 wB ltac:(lia) HgotB) as [HdataB _].
  rewrite <- HposB in HdataB. rewrite Hdata in Hrun. rewrite HdataB.
  fold hA in Hrun. fold hB.
  set (bufA := payload_at (file_data w) (file_pos w) 548) in *.
  set (bufB := payload_at (file_data wB) (file_pos w) 548) in *.
  assert (HlenB : (548 <= length bufB)%nat) by (rewrite <- HdataB; lia).
  pose proof (layout_header_in_range bufB HlenB)
    as (_ & _ & _ & _ & _ & _ & _ & _ & _ & _ & Hls & _).
  fold hB in Hls. unfold MAX_SECTIONS in Hls.
  (* the walk *)
  rewrite walk_sections_unfold in Hrun |- *. rewrite Hcnt.
  destruct (Z.leb_spec (section_cnt hA) 32) as [Hle|]; [|discriminate].
  fold cnt in Hrun |- *.
  set (wA1 := put_stdout OutSectionsBegin
                (put_stdout (header_line hA) (after_read 548 w))) in *.
  set (wB1 := put_stdout OutSectionsBegin
                (put_stdout (header_line hB) (after_read 548 wB))).
  assert (Hs1 : same_file_but_byte p wA1 wB1).
  { apply sfb_put_stdout, sfb_put_stdout, sfb_after_read. exact Hsame. }
  assert (HwA1 : file_data wA1 = file_data w
                 /\ s_maxbytes wA1 = s_maxbytes w
                 /\ file_pos wA1 = file_pos w + 548).
  { subst wA1. unfold after_read. rewrite Hgot. repeat split. }
  destruct HwA1 as (Hfd1 & Hsm1 & Hfp1).
  assert (HfdB1 : file_data wB1 = file_data wB) by reflexivity.
  assert (Htab : forall j, (j < cnt)%nat ->
                   section_offsets hB !! j = section_offsets hA !! j
                   /\ is_Some (section_sizes hB !! j)).
  { intros j Hj. split.
    - rewrite <- (lookup_take_lt (section_offsets hB) cnt) by lia.
      rewrite Hoffs. apply lookup_take_lt. lia.
    - apply lookup_lt_is_Some_2. subst cnt. lia. }
  destruct (walk_loop hA cnt 0 (bufA, None) wA1) as [[stA|f] wl] eqn:Eloop;
    [|discriminate].
  injection Hrun as <- <-.
  replace cnt with (S k + (cnt - S k))%nat in Eloop |- * by lia.
  apply walk_loop_app_Ok in Eloop as (st1 & w1 & Epre & Epost).
  destruct (walk_loop_to_capture hA hB k 0 bufA bufB p wA1 wB1 st1 w1 q Hs1)
    as (m & stB1 & w1B & Hst1 & Hm & EpreB & HstB1 & Hshape1).
  { intros j Hj. apply Htab. lia. }
  { rewrite Hsm1, Hfp1, Hfd1, HfdB1. intros j qj Hj Hqj.
    split; [exact (HskipA j qj Hj Hqj) | exact (HskipB j qj Hj Hqj)]. }
  { rewrite Hsm1, Hfp1. exact Hq. }
  { rewrite Hfd1. exact Hty. }
  { rewrite Hfd1. exact Hp. }
  { exact Epre. }
  rewrite Hfd1 in Hm.
  destruct st1 as [buf1 md1]. cbn [snd] in Hst1. subst md1.
  destruct stB1 as [bufB1 mdB1]. cbn [snd] in HstB1. subst mdB1.
  destruct (walk_loop_retained hA hB (cnt - S k) (0 + S k) buf1 bufB1 m
              w1 w1B stA wl Hshape1)
    as (HstA & stB & wlB & EpostB & HstB); [|exact Epost|].
  { intros j Hj. apply Htab. lia. }
  rewrite walk_loop_app, EpreB, EpostB. rewrite HstA, HstB.
  exists m. eexists. split; [reflexivity|]. split; [exact Hm|].
  split; [rewrite Hm; apply last_snoc|].
  split; [reflexivity|].
  split; cbn [stdout put_stdout]; apply last_snoc.
Qed.

(** C10, amended. The retained metadata ends in a null byte. Let the
    program parse a file completely, let [q] be the position at which it
    reads the first metadata-typed section header (the header of section
    [k]), and [p] the position of the byte right after the payload captured
    there. Let a second file differ from the first at [p] only, and let the
    first metadata-typed section header that the walk of the second file
    reads (the header of its section [kB]) lie at [q] as well. Then every
    complete parse of the second file retains the same metadata and shows the
    same metadata line: the byte read beyond the payload is overwritten by
    the terminator and shows nowhere. The parse of the second file is
    complete whenever its header gives the same section count and the same
    offsets for the sections within the count. *)
Theorem extra_byte_never_shows (p : Z) (w wB : world) (k kB : nat) (q : Z)
    (md : option (list byte)) (w' : world) :
  same_but_byte p w wB ->
  0 <= file_pos w ->
  parse_eif_file w = (Ok md, w') ->
  let hA := layout_header (payload_at (file_data w) (file_pos w) 548) in
  let hB := layout_header (payload_at (file_data wB) (file_pos w) 548) in
  let qsA := header_positions (s_maxbytes w) (file_pos w + 548)
               (section_offsets hA) in
  let qsB := header_positions (s_maxbytes w) (file_pos w + 548)
               (section_offsets hB) in
  (k < Z.to_nat (section_cnt hA))%nat ->
  qsA !! k = Some q ->
  section_type (section_header_at (file_data w) q) = 5 ->
  (forall j qj, (j < k)%nat -> qsA !! j = Some qj ->
     section_type (section_header_at (file_data w) qj) <> 5) ->
  p = q + 12 + section_size (section_header_at (file_data w) q) ->
  (kB < Z.to_nat (section_cnt hB))%nat ->
  qsB !! kB = Some q ->
  (forall j qj, (j < kB)%nat -> qsB !! j = Some qj ->
     section_type (section_header_at (file_data wB) qj) <> 5) ->
  exists m,
    md = Some m
    /\ m = payload_at (file_data w) (q + 12)
             (section_size (section_header_at (file_data w) q)) ++ [x00]
    /\ last m = Some x00
    /\ last (stdout w') = Some (OutMetadata (c_string m))
    /\ (forall mdB wB',
          parse_eif_file wB = (Ok mdB, wB') ->
          mdB = Some m
          /\ last (stdout wB') = Some (OutMetadata (c_string m)))
    /\ (section_cnt hB = section_cnt hA ->
        take (Z.to_nat (section_cnt hA)) (section_offsets hB)
        = take (Z.to_nat (section_cnt hA)) (section_offsets hA) ->
        exists wB', parse_eif_file wB = (Ok (Some m), wB')).
Proof.
  intros Hsbb Hpos0 Hrun hA hB qsA qsB Hk Hq Hty HskipA Hp HkB HqB HskipB.
  pose proof (sfb_of_same_but_byte p w wB Hsbb Hpos0) as Hsame.
  pose proof (sfb_shape p w wB Hsame) as (_ & HposB & HsmB & _).
  destruct (parse_captures_at w md w' k q Hrun Hpos0 Hk Hq Hty HskipA)
    as [Hmd Hout].
  set (size := section_size (section_header_at (file_data w) q)) in *.
  set (m := payload_at (file_data w) (q + 12) size ++ [x00]) in *.
  assert (Hq0 : 0 <= q).
  { apply (header_positions_nonneg (s_maxbytes w) (section_offsets hA)
             (file_pos w + 548) k q); [lia|exact Hq]. }
  pose proof (section_size_range (payload_at (file_data w) q 12)) as Hsize.
  fold (section_header_at (file_data w) q) in Hsize. fold size in Hsize.
  assert (HshB : section_header_at (file_data wB) q
                 = section_header_at (file_data w) q).
  { unfold section_header_at.
    rewrite (sfb_payload_at p w wB Hsame q 12) by lia. reflexivity. }
  assert (HpayB : payload_at (file_data wB) (q + 12) size
                  = payload_at (file_data w) (q + 12) size).
  { apply (sfb_payload_at p w wB Hsame); lia. }
  exists m. split; [exact Hmd|]. split; [reflexivity|].
  split; [apply last_snoc|]. split; [exact Hout|].
  split.
  - intros mdB wB' HrunB.
    destruct (parse_captures_at wB mdB wB' kB q HrunB) as [HmdB HoutB].
    + rewrite <- HposB. exact Hpos0.
    + rewrite <- HposB. exact HkB.
    + rewrite <- HposB, <- HsmB. exact HqB.
    + rewrite HshB. exact Hty.
    + rewrite <- HposB, <- HsmB. exact HskipB.
    + rewrite HshB in HmdB, HoutB. fold size in HmdB, HoutB.
      rewrite HpayB in HmdB, HoutB. split; [exact HmdB|exact HoutB].
  - intros Hcnt Hoffs.
    assert (Hpre : forall j, (j < Z.to_nat (section_cnt hA))%nat ->
                     qsB !! j = qsA !! j).
    { intros j Hj.
      apply (header_positions_prefix _ (Z.to_nat (section_cnt hA)));
        [exact Hoffs|exact Hj]. }
    assert (HkkB : kB = k).
    { destruct (Nat.lt_trichotomy kB k) as [Hlt|[Heq|Hgt]]; [|exact Heq|].
      - exfalso. apply (HskipA kB q Hlt); [|exact Hty].
        rewrite <- Hpre by lia. exact HqB.
      - exfalso. apply (HskipB k q Hgt); [|rewrite HshB; exact Hty].
        rewrite Hpre by lia. exact Hq. }
    subst kB.
    destruct (parse_completes_alike p w wB k q md w' Hsbb Hpos0 Hrun Hk Hq
                Hty HskipA Hp Hcnt Hoffs)
      as (m' & wB' & Hmd' & _ & _ & HB & _).
    + intros j qj Hj Hqj. apply (HskipB j qj Hj).
      rewrite Hpre by lia. exact Hqj.
    + rewrite Hmd in Hmd'. injection Hmd' as <-. eauto.
Qed.

Lemma extra_byte_never_shows_witness :
  let w := sample_world flags_overlap_file in
  let wB := sample_world (<[562%nat := xff]> flags_overlap_file) in
  header_positions (s_maxbytes w) 548 [560; 548] = [560; 548]
  /\ 560 <= 562 < 560 + 12
  /\ exists m wB',
       fst (parse_eif_file w) = Ok (Some m)
       /\ m = [x7b; x7d; x00]
       /\ parse_eif_file wB = (Ok (Some m), wB')
       /\ last (stdout (snd (parse_eif_file w)))
          = Some (OutMetadata (c_string m))
       /\ last (stdout wB') = Some (OutMetadata (c_string m))
       /\ stdout wB' <> stdout (snd (parse_eif_file w)).
Proof.
  cbv zeta. split; [reflexivity|]. split; [lia|].
  destruct (extra_byte_never_shows 562
              (sample_world flags_overlap_file)
              (sample_world (<[562%nat := xff]> flags_overlap_file))
              1 1 548 (Some [x7b; x7d; x00])
              (snd (parse_eif_file (sample_world flags_overlap_file))))
    as (m & Hmd & Hm & _ & Hout & Hall & Hcomp).
  - unfold same_but_byte. split; [lia|]. split; [by exists xff|].
    repeat split.
  - vm_compute. discriminate.
  - vm_compute. reflexivity.
  - vm_compute. lia.
  - vm_compute. reflexivity.
  - vm_compute. reflexivity.
  - intros j qj Hj Hqj. destruct j as [|j]; [|lia].
    vm_compute in Hqj. injection Hqj as <-. vm_compute. discriminate.
  - vm_compute. reflexivity.
  - vm_compute. lia.
  - vm_compute. reflexivity.
  - intros j qj Hj Hqj. destruct j as [|j]; [|lia].
    vm_compute in Hqj. injection Hqj as <-. vm_compute. discriminate.
  - destruct Hcomp as [wB' HB]; [vm_compute; reflexivity..|].
    destruct (Hall _ _ HB) as [_ HoutB].
    injection Hmd as <-. exists [x7b; x7d; x00], wB'.
    split; [vm_compute; reflexivity|]. split; [reflexivity|].
    split; [exact HB|]. split; [exact Hout|]. split; [exact HoutB|].
    assert (EB : wB' = snd (parse_eif_file
                   (sample_world (<[562%nat := xff]> flags_overlap_file))))
      by (rewrite HB; reflexivity).
    rewrite EB. vm_compute. discriminate.
Defined.

(** C10 as stated does not hold. The two files [overlap_file 1] and
    [overlap_file 0] differ in byte 562 only, the byte right after the
    payload (548 + 12 + 2) that the walk of the first file captures; it is
    also the first byte of the header of the section visited first. With the
    value 1 that section is of an unknown type and the metadata at 548 is
    retained; with the value 0 it is metadata-typed and its own payload is
    retained and presented instead. *)
Lemma extra_byte_can_change_the_capture :
  let wA := sample_world (overlap_file 1) in
  let wB := sample_world (overlap_file 0) in
  same_but_byte (548 + 12 + 2) wA wB
  /\ fst (parse_eif_file wA) = Ok (Some [x7b; x7d; x00])
  /\ last (stdout (snd (parse_eif_file wA))) = Some (OutMetadata [x7b; x7d])
  /\ fst (parse_eif_file wB) = Ok (Some [x41; x42; x00])
  /\ last (stdout (snd (parse_eif_file wB))) = Some (OutMetadata [x41; x42]).
Proof.
  cbv zeta. split.
  - unfold same_but_byte. split; [lia|]. split; [by exists x00|].
    repeat split.
  - vm_compute. repeat split.
Qed.

(** The byte can also be one of the section table. The two files
    [moved_section_file 4] and [moved_section_file 40] differ in byte 35
    only, the last byte of the first table entry. The first file has its
    section header read at 4, and byte 35 is the byte right after the
    payload captured there (4 + 12 + 19); the second has it read at 40 and
    retains another payload. *)
Lemma extra_byte_can_move_the_section :
  let wA := sample_world (moved_section_file 4) in
  let wB := sample_world (moved_section_file 40) in
  same_but_byte (4 + 12 + 19) wA wB
  /\ section_size (section_header_at (file_data wA) 4) = 19
  /\ last (stdout (snd (parse_eif_file wA)))
     = Some (OutMetadata [x53; x45; x43; x52; x45; x54; x21; x21; x41; x41])
  /\ fst (parse_eif_file wB) = Ok (Some [x7b; x7d; x00])
  /\ last (stdout (snd (parse_eif_file wB))) = Some (OutMetadata [x7b; x7d]).
Proof.
  cbv zeta. split.
  - unfold same_but_byte. split; [lia|]. split; [by exists x28|].
    repeat split.
  - vm_compute. repeat split.
Qed.
